(** * A shallow embedding of the block allocator (block_allocator.h, block_allocator.odin)

    The allocator state is the C struct [block_allocator_t]; every [uint32_t]
    is a [Z] whose wrap-around is written out with [u32], every [uint8_t]
    with [u8].  The four arrays of the struct (two of them heap allocated)
    are finite maps from indices to cells, read with a total lookup. *)

From Stdlib Require Import ZArith Lia Bool List.
From stdpp Require Import base option gmap fin_maps.

Local Open Scope Z_scope.

(** ** Machine integers *)

Definition u32 (x : Z) : Z := x mod 2 ^ 32.
Definition u8 (x : Z) : Z := x mod 2 ^ 8.

(** [__builtin_clz] on a 32-bit value.  The C builtin is undefined at 0; the
    model returns 32 there, which is what Odin's [bits.count_leading_zeros]
    gives. *)
Definition clz (x : Z) : Z :=
  if x =? 0 then 32 else 31 - Z.log2 x.

(** [__builtin_ctz]: index of the lowest set bit, scanning from bit [i].
    The model returns 32 on 0 (undefined in C). *)
Fixpoint ctz_from (fuel : nat) (i : Z) (x : Z) : Z :=
  match fuel with
  | O => i
  | S fuel' => if Z.testbit x i then i else ctz_from fuel' (i + 1) x
  end.

Definition ctz (x : Z) : Z := ctz_from 32 0 x.

(** ** Constants of block_allocator.h *)

Definition BLOCK_ALLOCATOR_SUCCESS : Z := 0.
Definition BLOCK_ALLOCATOR_OUT_OF_MEMORY : Z := -1.
Definition BLOCK_ALLOCATOR_MAX_ALLOCS : Z := 131072.
Definition BLOCK_ALLOCATOR_UNUSED : Z := 0xffffffff.
Definition BLOCK_ALLOCATOR_HEAD_BITS : Z := 0xf0000000.
Definition BLOCK_ALLOCATOR_HEAD_MASK : Z := 0x0fffffff.

(** ** Data model *)

Record block_allocator_block_t := Block {
  offset : Z;
  size : Z;
  bin_prev : Z;
  bin_next : Z;
  mem_prev : Z;
  mem_next : Z
}.

Record block_allocator_allocation_t := Allocation {
  alloc_offset : Z;
  alloc_size : Z;
  alloc_metadata : Z
}.

(** Memory that was never written reads as the all-zero record. *)
#[global] Instance block_inhabited : Inhabited block_allocator_block_t :=
  populate (Block 0 0 0 0 0 0).

#[global] Instance block_eq_dec : EqDecision block_allocator_block_t.
Proof. solve_decision. Defined.

#[global] Instance allocation_eq_dec : EqDecision block_allocator_allocation_t.
Proof. solve_decision. Defined.

Record block_allocator_t := Allocator {
  top_bins : Z;
  bottom_bins : gmap Z Z;
  bin_lists : gmap Z Z;
  blocks : gmap Z block_allocator_block_t;
  head_block : Z;
  free_blocks : gmap Z Z;
  free_offset : Z
}.

(** Field updates of a block record. *)
Definition with_size (v : Z) (b : block_allocator_block_t) :=
  Block (offset b) v (bin_prev b) (bin_next b) (mem_prev b) (mem_next b).
Definition with_offset (v : Z) (b : block_allocator_block_t) :=
  Block v (size b) (bin_prev b) (bin_next b) (mem_prev b) (mem_next b).
Definition with_bin_prev (v : Z) (b : block_allocator_block_t) :=
  Block (offset b) (size b) v (bin_next b) (mem_prev b) (mem_next b).
Definition with_bin_next (v : Z) (b : block_allocator_block_t) :=
  Block (offset b) (size b) (bin_prev b) v (mem_prev b) (mem_next b).
Definition with_mem_prev (v : Z) (b : block_allocator_block_t) :=
  Block (offset b) (size b) (bin_prev b) (bin_next b) v (mem_next b).
Definition with_mem_next (v : Z) (b : block_allocator_block_t) :=
  Block (offset b) (size b) (bin_prev b) (bin_next b) (mem_prev b) v.

(** Stores into the allocator struct. *)
Definition set_top_bins (v : Z) (a : block_allocator_t) :=
  Allocator v (bottom_bins a) (bin_lists a) (blocks a) (head_block a)
            (free_blocks a) (free_offset a).
Definition set_bottom_bin (t v : Z) (a : block_allocator_t) :=
  Allocator (top_bins a) (<[t := v]> (bottom_bins a)) (bin_lists a) (blocks a)
            (head_block a) (free_blocks a) (free_offset a).
Definition set_bin_list (k v : Z) (a : block_allocator_t) :=
  Allocator (top_bins a) (bottom_bins a) (<[k := v]> (bin_lists a)) (blocks a)
            (head_block a) (free_blocks a) (free_offset a).
Definition set_block (i : Z) (b : block_allocator_block_t) (a : block_allocator_t) :=
  Allocator (top_bins a) (bottom_bins a) (bin_lists a) (<[i := b]> (blocks a))
            (head_block a) (free_blocks a) (free_offset a).
Definition set_head_block (v : Z) (a : block_allocator_t) :=
  Allocator (top_bins a) (bottom_bins a) (bin_lists a) (blocks a) v
            (free_blocks a) (free_offset a).
Definition set_free_block (k v : Z) (a : block_allocator_t) :=
  Allocator (top_bins a) (bottom_bins a) (bin_lists a) (blocks a)
            (head_block a) (<[k := v]> (free_blocks a)) (free_offset a).
Definition set_free_offset (v : Z) (a : block_allocator_t) :=
  Allocator (top_bins a) (bottom_bins a) (bin_lists a) (blocks a)
            (head_block a) (free_blocks a) v.

(** Loads: [allocator->blocks[i]] and the three index arrays. *)
Abbreviation block_at a i := (blocks a !!! i).
Abbreviation bottom_bin a t := (bottom_bins a !!! t).
Abbreviation bin_list a k := (bin_lists a !!! k).
Abbreviation free_block a k := (free_blocks a !!! k).

(** [allocator->blocks[i].field = v]. *)
Definition store_size (i v : Z) (a : block_allocator_t) :=
  set_block i (with_size v (block_at a i)) a.
Definition store_bin_prev (i v : Z) (a : block_allocator_t) :=
  set_block i (with_bin_prev v (block_at a i)) a.
Definition store_bin_next (i v : Z) (a : block_allocator_t) :=
  set_block i (with_bin_next v (block_at a i)) a.
Definition store_mem_prev (i v : Z) (a : block_allocator_t) :=
  set_block i (with_mem_prev v (block_at a i)) a.
Definition store_mem_next (i v : Z) (a : block_allocator_t) :=
  set_block i (with_mem_next v (block_at a i)) a.

(** [for (int i = first; i < first + n; i++) arr[i] = f(i)], the three
    initialisation loops of [block_allocator_init]. *)
Fixpoint store_loop (n : nat) (i : Z) (f : Z -> Z) (arr : gmap Z Z) : gmap Z Z :=
  match n with
  | O => arr
  | S n' => store_loop n' (i + 1) f (<[i := f i]> arr)
  end.

(** ** block_allocator.h, lines 88-97 *)

Definition block_allocator_size_to_bin_index (size : Z) : Z * Z * Z :=
  let leading_zeros := clz size in
  let out_top := if 28 <? leading_zeros then 0 else 28 - leading_zeros in
  let out_bottom := Z.land (Z.shiftr size out_top) 7 in
  (Z.lor (Z.shiftl out_top 3) out_bottom, out_top, out_bottom).

Definition block_allocator_is_used (block : block_allocator_block_t) : bool :=
  (bin_next block =? BLOCK_ALLOCATOR_UNUSED) && (bin_prev block =? BLOCK_ALLOCATOR_UNUSED).

(** ** block_allocator_insert, lines 99-116 *)

Definition block_allocator_insert (allocator : block_allocator_t)
    (offset size mem_prev mem_next : Z) : Z * block_allocator_t :=
  if free_offset allocator =? BLOCK_ALLOCATOR_MAX_ALLOCS
  then (BLOCK_ALLOCATOR_OUT_OF_MEMORY, allocator)
  else
    let '(index, top_index, bottom_index) := block_allocator_size_to_bin_index size in
    let a := set_top_bins (u32 (Z.lor (top_bins allocator) (Z.shiftl 1 top_index))) allocator in
    let a := set_bottom_bin top_index
               (u8 (Z.lor (bottom_bin a top_index) (Z.shiftl 1 bottom_index))) a in
    let block_index := free_block a (free_offset a) in
    let a := set_free_offset (u32 (free_offset a + 1)) a in
    let head_block_index := bin_list a index in
    let block := Block offset size (Z.lor BLOCK_ALLOCATOR_HEAD_BITS index)
                       head_block_index mem_prev mem_next in
    let a := set_block block_index block a in
    let a := if head_block_index =? BLOCK_ALLOCATOR_UNUSED then a
             else store_bin_prev head_block_index block_index a in
    let a := if mem_prev =? BLOCK_ALLOCATOR_UNUSED then a
             else store_mem_next mem_prev block_index a in
    let a := if mem_next =? BLOCK_ALLOCATOR_UNUSED then a
             else store_mem_prev mem_next block_index a in
    let a := set_bin_list index block_index a in
    let a := if offset =? 0 then set_head_block block_index a else a in
    (BLOCK_ALLOCATOR_SUCCESS, a).

(** The two statements that clear a bin's bits (lines 138-139 and 193-194). *)
Definition clear_bin_bits (top_index bottom_index : Z) (a : block_allocator_t)
    : block_allocator_t :=
  let a := set_bottom_bin top_index
             (u8 (Z.land (bottom_bin a top_index) (Z.lnot (Z.shiftl 1 bottom_index)))) a in
  if bottom_bin a top_index =? 0
  then set_top_bins (u32 (Z.land (top_bins a) (Z.lnot (Z.shiftl 1 top_index)))) a
  else a.

(** [allocator->free_offset -= 1; allocator->free_blocks[allocator->free_offset] = i],
    lines 120-121 and 212-213. *)
Definition release_slot (i : Z) (a : block_allocator_t) : block_allocator_t :=
  let a := set_free_offset (u32 (free_offset a - 1)) a in
  set_free_block (free_offset a) i a.

(** ** block_allocator_remove, lines 118-140 *)

Definition block_allocator_remove (allocator : block_allocator_t) (block_index : Z)
    : block_allocator_t :=
  let block := block_at allocator block_index in
  let a := release_slot block_index allocator in
  let is_head := negb (Z.land (bin_prev block) BLOCK_ALLOCATOR_HEAD_BITS =? 0) in
  if negb is_head then
    let a := store_bin_next (bin_prev block) (bin_next block) a in
    if bin_next block =? BLOCK_ALLOCATOR_UNUSED then a
    else store_bin_prev (bin_next block) (bin_prev block) a
  else
    let index := Z.land (bin_prev block) BLOCK_ALLOCATOR_HEAD_MASK in
    let top_index := Z.shiftr index 3 in
    let bottom_index := Z.land index 7 in
    let a := set_bin_list index (bin_next block) a in
    if negb (bin_next block =? BLOCK_ALLOCATOR_UNUSED) then
      store_bin_prev (bin_next block) (bin_prev block) a
    else clear_bin_bits top_index bottom_index a.

(** ** block_allocator_init, lines 142-160

    Both calls to [malloc] are taken to succeed; the fresh block array is
    unwritten memory. *)

(** Lines 143-157: the allocator before its first block is inserted. *)
Definition init_cleared : block_allocator_t :=
  {| top_bins := 0;
     bottom_bins := store_loop 32 0 (fun _ => 0) ∅;
     bin_lists := store_loop 256 0 (fun _ => BLOCK_ALLOCATOR_UNUSED) ∅;
     blocks := ∅;
     head_block := 0;
     free_blocks := store_loop (Z.to_nat BLOCK_ALLOCATOR_MAX_ALLOCS) 0 (fun i => i) ∅;
     free_offset := 0 |}.

Definition block_allocator_init (size : Z) : Z * block_allocator_t :=
  let '(_, a) := block_allocator_insert init_cleared 0 size
                   BLOCK_ALLOCATOR_UNUSED BLOCK_ALLOCATOR_UNUSED in
  (BLOCK_ALLOCATOR_SUCCESS, a).

(** ** block_allocator_alloc, lines 167-207 *)

(** Lines 171-185: the bin the allocation is served from, if any. *)
Definition alloc_find_bin (allocator : block_allocator_t) (top_index bottom_index : Z)
    : option (Z * Z) :=
  let bigger_bottoms :=
    if bottom_index =? 7 then 0
    else u8 (Z.land (bottom_bin allocator top_index)
                    (Z.lnot (Z.shiftl 1 (bottom_index + 1) - 1))) in
  if negb (bigger_bottoms =? 0) then Some (top_index, ctz bigger_bottoms)
  else if top_index =? 31 then None
  else
    let bigger_tops :=
      u32 (Z.land (top_bins allocator) (Z.lnot (Z.shiftl 1 (top_index + 1) - 1))) in
    if bigger_tops =? 0 then None
    else
      let top_index := ctz bigger_tops in
      Some (top_index, ctz (bottom_bin allocator top_index)).

(** Lines 186-197: unlink the head of bin [(top_index << 3) | bottom_index]
    and mark it used.  [block] is a pointer into the array, so every
    [block->field] reads the current cell. *)
Definition alloc_pop (allocator : block_allocator_t) (top_index bottom_index : Z)
    : Z * block_allocator_t :=
  let index := Z.lor (Z.shiftl top_index 3) bottom_index in
  let block_index := bin_list allocator index in
  let a := set_bin_list index (bin_next (block_at allocator block_index)) allocator in
  let a :=
    if negb (bin_next (block_at a block_index) =? BLOCK_ALLOCATOR_UNUSED) then
      store_bin_prev (bin_next (block_at a block_index))
        (Z.lor BLOCK_ALLOCATOR_HEAD_BITS index) a
    else clear_bin_bits top_index bottom_index a in
  let a := store_bin_prev block_index BLOCK_ALLOCATOR_UNUSED a in
  let a := store_bin_next block_index BLOCK_ALLOCATOR_UNUSED a in
  (block_index, a).

Definition block_allocator_alloc (allocator : block_allocator_t) (sz : Z)
    : Z * block_allocator_t * option block_allocator_allocation_t :=
  if sz =? 0 then (BLOCK_ALLOCATOR_OUT_OF_MEMORY, allocator, None)
  else
    let '(_, top_index, bottom_index) := block_allocator_size_to_bin_index sz in
    match alloc_find_bin allocator top_index bottom_index with
    | None => (BLOCK_ALLOCATOR_OUT_OF_MEMORY, allocator, None)
    | Some (top_index, bottom_index) =>
      let '(block_index, a) := alloc_pop allocator top_index bottom_index in
      let remaining_size := u32 (size (block_at a block_index) - sz) in
      let '(res, a) :=
        if 0 <? remaining_size then
          block_allocator_insert a (u32 (offset (block_at a block_index) + sz))
            remaining_size block_index (mem_next (block_at a block_index))
        else (BLOCK_ALLOCATOR_SUCCESS, a) in
      if res =? BLOCK_ALLOCATOR_OUT_OF_MEMORY then (res, a, None)
      else
        let a := store_size block_index sz a in
        let alloc := Allocation (offset (block_at a block_index))
                                (size (block_at a block_index)) block_index in
        (BLOCK_ALLOCATOR_SUCCESS, a, Some alloc)
    end.

(** ** block_allocator_free, lines 209-228 *)

(** Lines 214-220 and 221-226: claim a free neighbour.  [block] is the local
    copy of the block being freed. *)
Definition free_merge_prev (block : block_allocator_block_t) (a : block_allocator_t)
    : block_allocator_block_t * block_allocator_t :=
  if negb (mem_prev block =? BLOCK_ALLOCATOR_UNUSED)
     && negb (block_allocator_is_used (block_at a (mem_prev block)))
  then
    let prev_block := block_at a (mem_prev block) in
    let block := with_offset (offset prev_block) block in
    let block := with_size (u32 (size block + size prev_block)) block in
    let a := block_allocator_remove a (mem_prev block) in
    (with_mem_prev (mem_prev prev_block) block, a)
  else (block, a).

Definition free_merge_next (block : block_allocator_block_t) (a : block_allocator_t)
    : block_allocator_block_t * block_allocator_t :=
  if negb (mem_next block =? BLOCK_ALLOCATOR_UNUSED)
     && negb (block_allocator_is_used (block_at a (mem_next block)))
  then
    let next_block := block_at a (mem_next block) in
    let block := with_size (u32 (size block + size next_block)) block in
    let a := block_allocator_remove a (mem_next block) in
    (with_mem_next (mem_next next_block) block, a)
  else (block, a).

Definition block_allocator_free (allocator : block_allocator_t)
    (alloc : block_allocator_allocation_t) : block_allocator_t :=
  if alloc_size alloc =? 0 then allocator
  else
    let block := block_at allocator (alloc_metadata alloc) in
    let a := release_slot (alloc_metadata alloc) allocator in
    let '(block, a) := free_merge_prev block a in
    let '(block, a) := free_merge_next block a in
    snd (block_allocator_insert a (offset block) (size block)
           (mem_prev block) (mem_next block)).

(** ** Traversal, lines 230-238 *)

Definition block_allocator_head (allocator : block_allocator_t) : block_allocator_block_t :=
  block_at allocator (head_block allocator).

Definition block_allocator_next (allocator : block_allocator_t)
    (block : block_allocator_block_t) : Z * option block_allocator_block_t :=
  if mem_next block =? BLOCK_ALLOCATOR_UNUSED
  then (BLOCK_ALLOCATOR_OUT_OF_MEMORY, None)
  else (BLOCK_ALLOCATOR_SUCCESS, Some (block_at allocator (mem_next block))).

(** The blocks met by [block_allocator_head] followed by at most [fuel]
    calls of [block_allocator_next]. *)
Fixpoint chain_from (fuel : nat) (allocator : block_allocator_t)
    (block : block_allocator_block_t) : list block_allocator_block_t :=
  match fuel with
  | O => [block]
  | S fuel' =>
    match block_allocator_next allocator block with
    | (_, Some nb) => block :: chain_from fuel' allocator nb
    | (_, None) => [block]
    end
  end.

Definition spatial_chain (allocator : block_allocator_t) : list block_allocator_block_t :=
  chain_from (Z.to_nat BLOCK_ALLOCATOR_MAX_ALLOCS) allocator (block_allocator_head allocator).

(** ** The Odin port (block_allocator.odin)

    The port keeps the same struct; its two slices carry their length
    [max_allocs], which [block_allocator_init] takes as a parameter. *)

Module Odin.

Record Block_Allocator := Make {
  fields : block_allocator_t;
  max_allocs : Z
}.

Definition BLOCK_UNUSED : Z := 0xffffffff.
Definition BLOCK_HEAD_BITS : Z := 0xf0000000.

(** [bits.count_trailing_zeros] on a [u8]. *)
Definition ctz8 (x : Z) : Z := if x =? 0 then 8 else ctz x.

(** Lines 199-207. *)
Definition size_to_bin_index (size : Z) : Z * Z * Z :=
  let leading_zeros := clz size in
  let top_index := if 28 <? leading_zeros then 0 else 28 - leading_zeros in
  let bottom_index := Z.land (Z.shiftr size top_index) 7 in
  (Z.lor (Z.shiftl top_index 3) bottom_index, top_index, bottom_index).

(** Lines 209-230: the bin bits are flipped before the pool is checked. *)
Definition insert_block (allocator : Block_Allocator)
    (offset size mem_prev mem_next : Z) : bool * Block_Allocator :=
  let '(index, top_index, bottom_index) := size_to_bin_index size in
  let a := fields allocator in
  let a := set_top_bins (u32 (Z.lor (top_bins a) (u32 (Z.shiftl 1 top_index)))) a in
  let a := set_bottom_bin top_index
             (u8 (Z.lor (bottom_bin a top_index) (u8 (Z.shiftl 1 bottom_index)))) a in
  if free_offset a =? u32 (max_allocs allocator)
  then (false, Make a (max_allocs allocator))
  else
    let block_index := free_block a (free_offset a) in
    let a := set_free_offset (u32 (free_offset a + 1)) a in
    let head_block_index := bin_list a index in
    let a := set_block block_index
               (Block offset size (Z.lor BLOCK_HEAD_BITS index)
                      head_block_index mem_prev mem_next) a in
    let a := if head_block_index =? BLOCK_UNUSED then a
             else store_bin_prev head_block_index block_index a in
    let a := if mem_prev =? BLOCK_UNUSED then a
             else store_mem_next mem_prev block_index a in
    let a := if mem_next =? BLOCK_UNUSED then a
             else store_mem_prev mem_next block_index a in
    let a := set_bin_list index block_index a in
    let a := if offset =? 0 then set_head_block block_index a else a in
    (true, Make a (max_allocs allocator)).

(** Lines 58-81. *)
Definition block_allocator_init (size max_allocs : Z) : Block_Allocator :=
  let a := {| top_bins := 0;
              bottom_bins := store_loop 32 0 (fun _ => 0) ∅;
              bin_lists := store_loop 256 0 (fun _ => BLOCK_UNUSED) ∅;
              blocks := ∅;
              head_block := 0;
              free_blocks := store_loop (Z.to_nat max_allocs) 0 (fun i => i) ∅;
              free_offset := 0 |} in
  snd (insert_block (Make a max_allocs) 0 size BLOCK_UNUSED BLOCK_UNUSED).

(** Lines 88-153; the result is [(alloc, ok)] and the allocator. *)
Definition block_alloc (allocator : Block_Allocator) (sz : Z)
    : block_allocator_allocation_t * bool * Block_Allocator :=
  let '(_, top_index, bottom_index) := size_to_bin_index sz in
  let a := fields allocator in
  let n := max_allocs allocator in
  let bigger_bottoms :=
    u8 (Z.land (bottom_bin a top_index)
               (Z.lnot (u8 (u8 (Z.shiftl 1 (bottom_index + 1)) - 1)))) in
  let found :=
    if negb (bigger_bottoms =? 0) then Some (top_index, ctz8 bigger_bottoms)
    else
      let bigger_tops :=
        u32 (Z.land (top_bins a)
                    (Z.lnot (u32 (u32 (Z.shiftl 1 (top_index + 1)) - 1)))) in
      if bigger_tops =? 0 then None
      else
        let top_index := ctz bigger_tops in
        Some (top_index, ctz8 (bottom_bin a top_index)) in
  match found with
  | None => (Allocation 0 0 0, false, allocator)
  | Some (top_index, bottom_index) =>
    let index := Z.lor (Z.shiftl top_index 3) bottom_index in
    let block_index := bin_list a index in
    if size (block_at a block_index) <? sz then (Allocation 0 0 0, false, allocator)
    else
      let a := set_bin_list index (bin_next (block_at a block_index)) a in
      let a :=
        if negb (bin_next (block_at a block_index) =? BLOCK_UNUSED) then
          store_bin_prev (bin_next (block_at a block_index))
            (Z.lor BLOCK_HEAD_BITS index) a
        else clear_bin_bits top_index bottom_index a in
      let a := store_bin_next block_index BLOCK_UNUSED a in
      let a := store_bin_prev block_index BLOCK_UNUSED a in
      let remaining_size := u32 (size (block_at a block_index) - sz) in
      let '(ok, al) :=
        if 0 <? remaining_size then
          insert_block (Make a n) (u32 (offset (block_at a block_index) + sz))
            remaining_size block_index (mem_next (block_at a block_index))
        else (true, Make a n) in
      if negb ok then (Allocation 0 0 0, false, al)
      else
        let a := store_size block_index sz (fields al) in
        (Allocation (offset (block_at a block_index)) (size (block_at a block_index))
                    block_index, true, Make a n)
  end.

Definition BLOCK_HEAD_MASK : Z := 0x0fffffff.

(** Lines 183-186. *)
Definition block_is_used (block : block_allocator_block_t) : bool :=
  (bin_next block =? BLOCK_UNUSED) && (bin_prev block =? BLOCK_UNUSED).

(** Lines 232-263. *)
Definition remove_block (allocator : Block_Allocator) (block_index : Z)
    : Block_Allocator :=
  let a := fields allocator in
  let block := block_at a block_index in
  let a := set_free_offset (u32 (free_offset a - 1)) a in
  let a := set_free_block (free_offset a) block_index a in
  let is_head := negb (Z.land (bin_prev block) BLOCK_HEAD_BITS =? 0) in
  let a :=
    if negb is_head then
      let a := store_bin_next (bin_prev block) (bin_next block) a in
      if negb (bin_next block =? BLOCK_UNUSED)
      then store_bin_prev (bin_next block) (bin_prev block) a
      else a
    else
      let index := Z.land (bin_prev block) BLOCK_HEAD_MASK in
      let top_index := Z.shiftr index 3 in
      let bottom_index := Z.land index 7 in
      let a := set_bin_list index (bin_next block) a in
      if negb (bin_next block =? BLOCK_UNUSED)
      then store_bin_prev (bin_next block) (bin_prev block) a
      else clear_bin_bits top_index bottom_index a in
  Make a (max_allocs allocator).

(** Lines 155-181: the port frees whatever record it is given; it has no
    test of [alloc.size]. *)
Definition block_free (allocator : Block_Allocator)
    (alloc : block_allocator_allocation_t) : Block_Allocator :=
  let n := max_allocs allocator in
  let a := fields allocator in
  let block := block_at a (alloc_metadata alloc) in
  let a := set_free_offset (u32 (free_offset a - 1)) a in
  let a := set_free_block (free_offset a) (alloc_metadata alloc) a in
  let '(block, a) :=
    if negb (mem_prev block =? BLOCK_UNUSED)
       && negb (block_is_used (block_at a (mem_prev block)))
    then
      let prev_block := block_at a (mem_prev block) in
      let block := with_offset (offset prev_block) block in
      let block := with_size (u32 (size block + size prev_block)) block in
      let a := fields (remove_block (Make a n) (mem_prev block)) in
      (with_mem_prev (mem_prev prev_block) block, a)
    else (block, a) in
  let '(block, a) :=
    if negb (mem_next block =? BLOCK_UNUSED)
       && negb (block_is_used (block_at a (mem_next block)))
    then
      let next_block := block_at a (mem_next block) in
      let block := with_size (u32 (size block + size next_block)) block in
      let a := fields (remove_block (Make a n) (mem_next block)) in
      (with_mem_next (mem_next next_block) block, a)
    else (block, a) in
  snd (insert_block (Make a n) (offset block) (size block)
         (mem_prev block) (mem_next block)).

(** Lines 188-197. *)
Definition block_allocator_head (allocator : Block_Allocator)
    : block_allocator_block_t :=
  block_at (fields allocator) (head_block (fields allocator)).

Definition block_allocator_next (allocator : Block_Allocator)
    (block : block_allocator_block_t) : block_allocator_block_t * bool :=
  if mem_next block =? BLOCK_UNUSED then (Block 0 0 0 0 0 0, false)
  else (block_at (fields allocator) (mem_next block), true).

End Odin.

(** ** Reachable states

    [reachable a hs]: the allocator [a] results from [block_allocator_init]
    followed by calls of [block_allocator_alloc] (successful or not) and
    [block_allocator_free]; [hs] are the allocations handed out and not yet
    freed, the only records a caller may pass to [block_allocator_free]. *)

Inductive reachable
    : block_allocator_t -> list block_allocator_allocation_t -> Prop :=
| reach_init total_size :
    1 <= total_size <= 0xffffffff ->
    reachable (snd (block_allocator_init total_size)) []
| reach_alloc a hs sz a' h :
    reachable a hs -> 0 <= sz < 2 ^ 32 ->
    block_allocator_alloc a sz = (BLOCK_ALLOCATOR_SUCCESS, a', Some h) ->
    reachable a' (h :: hs)
| reach_alloc_failed a hs sz a' :
    reachable a hs -> 0 <= sz < 2 ^ 32 ->
    block_allocator_alloc a sz = (BLOCK_ALLOCATOR_OUT_OF_MEMORY, a', None) ->
    reachable a' hs
| reach_free a hs h :
    reachable a hs -> In h hs ->
    reachable (block_allocator_free a h) (remove allocation_eq_dec h hs).

(** ** Properties of a state *)

(** Slot [i] of the block pool is waiting on the stack of free slots. *)
Definition slot_pending (a : block_allocator_t) (i : Z) : Prop :=
  exists k, free_offset a <= k < BLOCK_ALLOCATOR_MAX_ALLOCS /\ free_block a k = i.

(** Slot [i] is handed out: it holds a block of the spatial chain. *)
Definition slot_live (a : block_allocator_t) (i : Z) : Prop :=
  0 <= i < BLOCK_ALLOCATOR_MAX_ALLOCS /\ ~ slot_pending a i.

Definition bin_of (s : Z) : Z := fst (fst (block_allocator_size_to_bin_index s)).

(** Bitmap consistency (invariant 4 of the data model). *)
Definition bitmaps_consistent (a : block_allocator_t) : Prop :=
  (forall t, 0 <= t < 32 ->
     (Z.testbit (top_bins a) t = true <-> bottom_bin a t <> 0)) /\
  (forall t b, 0 <= t < 32 -> 0 <= b < 8 ->
     (Z.testbit (bottom_bin a t) b = true <->
      bin_list a (8 * t + b) <> BLOCK_ALLOCATOR_UNUSED)).

Definition bitmaps_in_range (a : block_allocator_t) : Prop :=
  0 <= top_bins a < 2 ^ 32 /\
  (forall t, 0 <= t < 32 -> 0 <= bottom_bin a t < 2 ^ 8).

(** The block pool: [L] lists the slots handed out. *)
Record pool_inv (a : block_allocator_t) (L : list Z) : Prop := {
  pool_len : Z.of_nat (length L) = free_offset a;
  pool_le : free_offset a <= BLOCK_ALLOCATOR_MAX_ALLOCS;
  pool_nodup : NoDup L;
  pool_live : forall i, i ∈ L -> slot_live a i;
  pool_range : forall k, free_offset a <= k < BLOCK_ALLOCATOR_MAX_ALLOCS ->
    0 <= free_block a k < BLOCK_ALLOCATOR_MAX_ALLOCS;
  pool_inj : forall k1 k2,
    free_offset a <= k1 < BLOCK_ALLOCATOR_MAX_ALLOCS ->
    free_offset a <= k2 < BLOCK_ALLOCATOR_MAX_ALLOCS ->
    free_block a k1 = free_block a k2 -> k1 = k2;
  pool_total : forall i, 0 <= i < BLOCK_ALLOCATOR_MAX_ALLOCS ->
    i ∈ L \/ slot_pending a i
}.

(** The bin lists: doubly linked through [bin_prev] and [bin_next], the head
    of bin [k] carrying [HEAD_BITS | k]; a block sits in the bin of its size. *)
Record bins_inv (a : block_allocator_t) (L : list Z) : Prop := {
  bins_head : forall k, 0 <= k < 256 ->
    bin_list a k <> BLOCK_ALLOCATOR_UNUSED ->
    bin_list a k ∈ L /\
    bin_prev (block_at a (bin_list a k)) = Z.lor BLOCK_ALLOCATOR_HEAD_BITS k /\
    bin_of (size (block_at a (bin_list a k))) = k;
  bins_prev : forall i, i ∈ L ->
    block_allocator_is_used (block_at a i) = false ->
    (exists k, 0 <= k < 256 /\
       bin_prev (block_at a i) = Z.lor BLOCK_ALLOCATOR_HEAD_BITS k /\
       bin_list a k = i) \/
    (bin_prev (block_at a i) ∈ L /\
     bin_next (block_at a (bin_prev (block_at a i))) = i);
  bins_next : forall i, i ∈ L ->
    block_allocator_is_used (block_at a i) = false ->
    bin_next (block_at a i) <> BLOCK_ALLOCATOR_UNUSED ->
    bin_next (block_at a i) ∈ L /\
    bin_prev (block_at a (bin_next (block_at a i))) = i /\
    bin_of (size (block_at a (bin_next (block_at a i)))) = bin_of (size (block_at a i))
}.

(** The spatial chain: [l] is a run of blocks linked through [mem_prev] and
    [mem_next], entered from [prev] and left towards [nxt]. *)
Fixpoint chain_seg (a : block_allocator_t) (prev : Z) (l : list Z) (nxt : Z) : Prop :=
  match l with
  | [] => True
  | x :: l' =>
    mem_prev (block_at a x) = prev /\
    mem_next (block_at a x) = default nxt (head l') /\
    chain_seg a x l' nxt
  end.

(** No block of [l] is free next to a free block ([prev_used] tells about the
    block before [l]). *)
Fixpoint no_adjacent_free (a : block_allocator_t) (prev_used : bool) (l : list Z) : Prop :=
  match l with
  | [] => True
  | x :: l' =>
    (prev_used || block_allocator_is_used (block_at a x) = true) /\
    no_adjacent_free a (block_allocator_is_used (block_at a x)) l'
  end.

Record chain_inv (a : block_allocator_t) (ch : list Z) : Prop := {
  chain_links : chain_seg a BLOCK_ALLOCATOR_UNUSED ch BLOCK_ALLOCATOR_UNUSED;
  chain_adjacent : no_adjacent_free a true ch;
  chain_sizes : forall i, i ∈ ch -> 0 <= size (block_at a i) < 2 ^ 32
}.

(** The allocations handed out are distinct used blocks of non-zero size. *)
Record handles_inv (a : block_allocator_t) (ch : list Z)
    (hs : list block_allocator_allocation_t) : Prop := {
  handles_inj : forall h1 h2, In h1 hs -> In h2 hs ->
    alloc_metadata h1 = alloc_metadata h2 -> h1 = h2;
  handles_live : forall h, In h hs ->
    alloc_metadata h ∈ ch /\
    block_allocator_is_used (block_at a (alloc_metadata h)) = true /\
    alloc_size h <> 0
}.

(** The structural invariant; [ch] is the spatial chain in address order. *)
Definition state_inv (a : block_allocator_t) (ch : list Z)
    (hs : list block_allocator_allocation_t) : Prop :=
  pool_inv a ch /\ bitmaps_in_range a /\ bitmaps_consistent a /\
  bins_inv a ch /\ chain_inv a ch /\ handles_inv a ch hs.

(** The pool, the bitmaps and the bin lists together. *)
Definition core_inv (a : block_allocator_t) (L : list Z) : Prop :=
  pool_inv a L /\ bitmaps_in_range a /\ bitmaps_consistent a /\ bins_inv a L.

(** ** What the helpers change, field by field *)

(** [block_allocator_insert allocator offset size mem_prev mem_next] when the
    pool is not exhausted: [a'] is the state afterwards. *)
Record insert_effect (a a' : block_allocator_t) (o s mp mn : Z) : Prop := {
  ins_fo : free_offset a' = u32 (free_offset a + 1);
  ins_fb : free_blocks a' = free_blocks a;
  ins_bits : exists t b,
    bin_of s = 8 * t + b /\ 0 <= t < 32 /\ 0 <= b < 8 /\
    top_bins a' = u32 (Z.lor (top_bins a) (Z.shiftl 1 t)) /\
    bottom_bins a' = <[t := u8 (Z.lor (bottom_bin a t) (Z.shiftl 1 b))]> (bottom_bins a);
  ins_bin : bin_lists a' = <[bin_of s := free_block a (free_offset a)]> (bin_lists a);
  ins_head : head_block a' =
    if o =? 0 then free_block a (free_offset a) else head_block a;
  ins_bp : forall x, 0 <= x < BLOCK_ALLOCATOR_MAX_ALLOCS ->
    bin_prev (block_at a' x) =
    if decide (bin_list a (bin_of s) = x) then free_block a (free_offset a)
    else if decide (free_block a (free_offset a) = x)
         then Z.lor BLOCK_ALLOCATOR_HEAD_BITS (bin_of s)
         else bin_prev (block_at a x);
  ins_bn : forall x, bin_next (block_at a' x) =
    if decide (free_block a (free_offset a) = x) then bin_list a (bin_of s)
    else bin_next (block_at a x);
  ins_sz : forall x, size (block_at a' x) =
    if decide (free_block a (free_offset a) = x) then s else size (block_at a x);
  ins_off : forall x, offset (block_at a' x) =
    if decide (free_block a (free_offset a) = x) then o else offset (block_at a x);
  ins_mn : forall x, 0 <= x < BLOCK_ALLOCATOR_MAX_ALLOCS ->
    mem_next (block_at a' x) =
    if decide (mp = x) then free_block a (free_offset a)
    else if decide (free_block a (free_offset a) = x) then mn
         else mem_next (block_at a x);
  ins_mp : forall x, 0 <= x < BLOCK_ALLOCATOR_MAX_ALLOCS ->
    mem_prev (block_at a' x) =
    if decide (mn = x) then free_block a (free_offset a)
    else if decide (free_block a (free_offset a) = x) then mp
         else mem_prev (block_at a x)
}.

(** Block [p] leaves its bin list (lines 122-139 and 186-195); what happens to
    the record of [p] itself is left open. *)
Record unlink_effect (a a' : block_allocator_t) (p : Z) : Prop := {
  unl_bin : bin_lists a' =
    if negb (Z.land (bin_prev (block_at a p)) BLOCK_ALLOCATOR_HEAD_BITS =? 0)
    then <[Z.land (bin_prev (block_at a p)) BLOCK_ALLOCATOR_HEAD_MASK :=
             bin_next (block_at a p)]> (bin_lists a)
    else bin_lists a;
  unl_bits :
    let k := Z.land (bin_prev (block_at a p)) BLOCK_ALLOCATOR_HEAD_MASK in
    let c := if negb (Z.land (bin_prev (block_at a p)) BLOCK_ALLOCATOR_HEAD_BITS =? 0)
                && (bin_next (block_at a p) =? BLOCK_ALLOCATOR_UNUSED)
             then clear_bin_bits (Z.shiftr k 3) (Z.land k 7) a else a in
    top_bins a' = top_bins c /\ bottom_bins a' = bottom_bins c;
  unl_bp : forall x, 0 <= x < BLOCK_ALLOCATOR_MAX_ALLOCS -> x <> p ->
    bin_prev (block_at a' x) =
    if decide (bin_next (block_at a p) = x) then bin_prev (block_at a p)
    else bin_prev (block_at a x);
  unl_bn : forall x, 0 <= x < BLOCK_ALLOCATOR_MAX_ALLOCS -> x <> p ->
    bin_next (block_at a' x) =
    if negb (Z.land (bin_prev (block_at a p)) BLOCK_ALLOCATOR_HEAD_BITS =? 0)
    then bin_next (block_at a x)
    else if decide (bin_prev (block_at a p) = x) then bin_next (block_at a p)
         else bin_next (block_at a x);
  unl_sz : forall x, size (block_at a' x) = size (block_at a x);
  unl_off : forall x, offset (block_at a' x) = offset (block_at a x);
  unl_mp : forall x, mem_prev (block_at a' x) = mem_prev (block_at a x);
  unl_mn : forall x, mem_next (block_at a' x) = mem_next (block_at a x);
  unl_head : head_block a' = head_block a
}.

(** [a'] has the blocks of [a] at the same places: only bin links differ. *)
Definition same_layout (a a' : block_allocator_t) : Prop :=
  head_block a' = head_block a /\
  forall x, offset (block_at a' x) = offset (block_at a x) /\
            size (block_at a' x) = size (block_at a x) /\
            mem_prev (block_at a' x) = mem_prev (block_at a x) /\
            mem_next (block_at a' x) = mem_next (block_at a x).

(** Whether the block before the end of [l] is used ([pu] when [l] is empty). *)
Definition last_used (a : block_allocator_t) (pu : bool) (l : list Z) : bool :=
  match last l with
  | Some x => block_allocator_is_used (block_at a x)
  | None => pu
  end.

(** [P] holds of [0 .. n-1]; used to settle finite case distinctions by
    evaluation. *)
Fixpoint all_below (n : nat) (P : Z -> bool) : bool :=
  match n with
  | O => true
  | S n' => P (Z.of_nat n') && all_below n' P
  end.

(** ** Statements about single calls and call sequences *)

(** The three results of [block_allocator_alloc]: the return code, the
    allocator left behind and what was written to [out_alloc]. *)
Definition alloc_result (a : block_allocator_t) (sz : Z) : Z :=
  fst (fst (block_allocator_alloc a sz)).

Definition alloc_state (a : block_allocator_t) (sz : Z) : block_allocator_t :=
  snd (fst (block_allocator_alloc a sz)).

Definition alloc_out (a : block_allocator_t) (sz : Z)
    : option block_allocator_allocation_t :=
  snd (block_allocator_alloc a sz).

(** [n] calls [block_allocator_alloc(allocator, sz, &out)] in a row;
    [errors] counts the calls that did not return SUCCESS. *)
Fixpoint alloc_repeat (n : nat) (sz : Z) (a : block_allocator_t) (errors : Z)
    : block_allocator_t * Z :=
  match n with
  | O => (a, errors)
  | S n' =>
    alloc_repeat n' sz (alloc_state a sz)
      (if alloc_result a sz =? BLOCK_ALLOCATOR_SUCCESS then errors else errors + 1)
  end.

(** One call of [block_allocator_alloc] per size of [szs], in order. *)
Fixpoint alloc_each (szs : list Z) (a : block_allocator_t) (errors : Z)
    : block_allocator_t * Z :=
  match szs with
  | [] => (a, errors)
  | sz :: szs' =>
    alloc_each szs' (alloc_state a sz)
      (if alloc_result a sz =? BLOCK_ALLOCATOR_SUCCESS then errors else errors + 1)
  end.

(** The sizes [2^hi, ..., 2^(lo+1), 2^lo] for [n = hi - lo + 1]. *)
Fixpoint halving_sizes (n : nat) (lo : Z) : list Z :=
  match n with
  | O => []
  | S n' => 2 ^ (lo + Z.of_nat n') :: halving_sizes n' lo
  end.

(** What a traversal with [block_allocator_head] and [block_allocator_next]
    reports: offset, size and usage of each block met. *)
Definition chain_layout (a : block_allocator_t) : list (Z * Z * bool) :=
  map (fun b => (offset b, size b, block_allocator_is_used b)) (spatial_chain a).

Definition chain_total (a : block_allocator_t) : Z :=
  fold_right Z.add 0 (map size (spatial_chain a)).

(** Consecutive blocks of a traversal tile the heap. *)
Fixpoint chain_contiguous (l : list block_allocator_block_t) : bool :=
  match l with
  | [] => true
  | b :: l' =>
    match l' with
    | [] => true
    | b' :: _ => (offset b + size b =? offset b') && chain_contiguous l'
    end
  end.

(** A free block handed out by the pool has no free spatial neighbour: each of
    [mem_prev] and [mem_next] is the end of the chain or a used block of the
    pool that links back. *)
Definition neighbour_used (a : block_allocator_t) (i n : Z) : Prop :=
  n = BLOCK_ALLOCATOR_UNUSED \/
  (slot_live a n /\ n <> i /\ block_allocator_is_used (block_at a n) = true).

Definition no_free_neighbours (a : block_allocator_t) : Prop :=
  forall i, slot_live a i ->
    block_allocator_is_used (block_at a i) = false ->
    (neighbour_used a i (mem_prev (block_at a i)) /\
     (mem_prev (block_at a i) <> BLOCK_ALLOCATOR_UNUSED ->
      mem_next (block_at a (mem_prev (block_at a i))) = i)) /\
    (neighbour_used a i (mem_next (block_at a i)) /\
     (mem_next (block_at a i) <> BLOCK_ALLOCATOR_UNUSED ->
      mem_prev (block_at a (mem_next (block_at a i))) = i)).

(** The bins strictly above the bin of [sz] are all empty. *)
Definition no_bin_above (a : block_allocator_t) (sz : Z) : Prop :=
  forall k, bin_of sz < k < 256 -> bin_list a k = BLOCK_ALLOCATOR_UNUSED.


(** [a] is reached from [block_allocator_init] by some calls, whatever
    allocations are still held. *)
Definition reachable_state (a : block_allocator_t) : Prop :=
  exists hs, reachable a hs.

(** The state after [init(0xFFFFFFFF)] and [m] calls [alloc(1)]: [m + 1] slots
    are taken and every free block is still large. *)
Definition drained (m : Z) (a : block_allocator_t) : Prop :=
  exists ch hs,
    state_inv a ch hs /\ reachable a hs /\
    free_offset a = m + 1 /\
    (exists k, 224 <= k < 256 /\ bin_list a k <> BLOCK_ALLOCATOR_UNUSED) /\
    (forall x, x ∈ ch -> block_allocator_is_used (block_at a x) = false ->
               2 ^ 32 - 1 - m <= size (block_at a x)).

(** [block_allocator_free], lines 211-226: the local copy of the block and
    the allocator once both neighbours have been looked at, just before the
    call of [block_allocator_insert] on line 227. *)
Definition free_merged (a : block_allocator_t) (alloc : block_allocator_allocation_t)
    : block_allocator_block_t * block_allocator_t :=
  let r := free_merge_prev (block_at a (alloc_metadata alloc))
             (release_slot (alloc_metadata alloc) a) in
  free_merge_next (fst r) (snd r).

(** The return code of that call, which [block_allocator_free] drops. *)
Definition free_insert_result (a : block_allocator_t)
    (alloc : block_allocator_allocation_t) : Z :=
  let r := free_merged a alloc in
  fst (block_allocator_insert (snd r) (offset (fst r)) (size (fst r))
         (mem_prev (fst r)) (mem_next (fst r))).

(** ** Properties of reachable states *)

(** [free_offset] counts the slots in use; the other slots are listed once
    each in [free_blocks] from index [free_offset] on. *)
Definition pool_accounted (a : block_allocator_t) : Prop :=
  1 <= free_offset a <= BLOCK_ALLOCATOR_MAX_ALLOCS /\
  (exists ch, NoDup ch /\ Z.of_nat (length ch) = free_offset a /\
              forall i, i ∈ ch <-> slot_live a i) /\
  (forall i, 0 <= i < BLOCK_ALLOCATOR_MAX_ALLOCS -> slot_live a i \/ slot_pending a i) /\
  (forall k, free_offset a <= k < BLOCK_ALLOCATOR_MAX_ALLOCS ->
     0 <= free_block a k < BLOCK_ALLOCATOR_MAX_ALLOCS) /\
  (forall k1 k2,
     free_offset a <= k1 < BLOCK_ALLOCATOR_MAX_ALLOCS ->
     free_offset a <= k2 < BLOCK_ALLOCATOR_MAX_ALLOCS ->
     free_block a k1 = free_block a k2 -> k1 = k2).

(** Each bin list holds free blocks whose size maps to that bin, doubly
    linked from the head, which carries [HEAD_BITS | k]. *)
Definition bins_hold_class (a : block_allocator_t) : Prop :=
  (forall k, 0 <= k < 256 -> bin_list a k <> BLOCK_ALLOCATOR_UNUSED ->
     slot_live a (bin_list a k) /\
     block_allocator_is_used (block_at a (bin_list a k)) = false /\
     bin_prev (block_at a (bin_list a k)) = Z.lor BLOCK_ALLOCATOR_HEAD_BITS k /\
     bin_of (size (block_at a (bin_list a k))) = k) /\
  (forall i, slot_live a i -> block_allocator_is_used (block_at a i) = false ->
     bin_next (block_at a i) <> BLOCK_ALLOCATOR_UNUSED ->
     slot_live a (bin_next (block_at a i)) /\
     bin_prev (block_at a (bin_next (block_at a i))) = i /\
     bin_of (size (block_at a (bin_next (block_at a i)))) = bin_of (size (block_at a i))) /\
  (forall i, slot_live a i -> block_allocator_is_used (block_at a i) = false ->
     (exists k, 0 <= k < 256 /\
        bin_prev (block_at a i) = Z.lor BLOCK_ALLOCATOR_HEAD_BITS k /\
        bin_list a k = i) \/
     (slot_live a (bin_prev (block_at a i)) /\
      bin_next (block_at a (bin_prev (block_at a i))) = i)).

(** What a successful [block_allocator_alloc(a, sz)] did: it took block [p],
    the head of bin [k], the lowest non-empty bin above the bin of [sz]; [p]
    keeps its offset, gets size [sz] and is used; the rest of [p] is a new
    free block in the slot on top of the free stack, linked after [p]. *)
Definition split_result (a : block_allocator_t) (sz p k : Z) : Prop :=
  let j := free_block a (free_offset a) in
  let a' := alloc_state a sz in
  bin_of sz < k < 256 /\ bin_list a k = p /\
  (forall k', bin_of sz < k' < k -> bin_list a k' = BLOCK_ALLOCATOR_UNUSED) /\
  slot_live a p /\ block_allocator_is_used (block_at a p) = false /\
  alloc_out a sz = Some (Allocation (offset (block_at a p)) sz p) /\
  free_offset a' = free_offset a + 1 /\
  ~ slot_live a j /\ slot_live a' j /\
  size (block_at a' p) = sz /\
  offset (block_at a' p) = offset (block_at a p) /\
  block_allocator_is_used (block_at a' p) = true /\
  size (block_at a' j) = u32 (size (block_at a p) - sz) /\
  0 < size (block_at a' j) /\
  offset (block_at a' j) = u32 (offset (block_at a p) + sz) /\
  block_allocator_is_used (block_at a' j) = false /\
  bin_list a' (bin_of (size (block_at a' j))) = j /\
  mem_next (block_at a' p) = j /\ mem_prev (block_at a' j) = p /\
  (forall x, slot_live a x -> x <> p ->
     slot_live a' x /\
     block_allocator_is_used (block_at a' x) = block_allocator_is_used (block_at a x) /\
     size (block_at a' x) = size (block_at a x) /\
     offset (block_at a' x) = offset (block_at a x)).

(** The allocations held are distinct blocks of the pool, marked used. *)
Definition held_blocks (a : block_allocator_t)
    (hs : list block_allocator_allocation_t) : Prop :=
  (forall h, In h hs ->
     slot_live a (alloc_metadata h) /\
     block_allocator_is_used (block_at a (alloc_metadata h)) = true /\
     alloc_size h <> 0) /\
  (forall h1 h2, In h1 hs -> In h2 hs ->
     alloc_metadata h1 = alloc_metadata h2 -> h1 = h2).

(** [block_allocator_next] on a block of the pool: the end of the heap, or
    another block of the pool whose [mem_prev] points back. *)
Definition next_stays_in_pool (a : block_allocator_t) : Prop :=
  forall i, slot_live a i ->
    (mem_next (block_at a i) = BLOCK_ALLOCATOR_UNUSED /\
     block_allocator_next a (block_at a i) = (BLOCK_ALLOCATOR_OUT_OF_MEMORY, None)) \/
    (slot_live a (mem_next (block_at a i)) /\
     mem_next (block_at a i) <> i /\
     mem_prev (block_at a (mem_next (block_at a i))) = i /\
     block_allocator_next a (block_at a i) =
       (BLOCK_ALLOCATOR_SUCCESS, Some (block_at a (mem_next (block_at a i))))).

(** * Proofs *)

(** ** Machine integers and bits *)

Lemma all_below_spec n P :
  all_below n P = true -> forall x, 0 <= x < Z.of_nat n -> P x = true.
Proof.
  induction n as [|n IH]; intros H x Hx; [lia|].
  cbn [all_below] in H. apply andb_true_iff in H as [H1 H2].
  destruct (Z.eq_dec x (Z.of_nat n)) as [->|Hne]; [exact H1|].
  apply IH; [exact H2|lia].
Qed.

Lemma u32_range x : 0 <= u32 x < 2 ^ 32.
Proof. unfold u32. apply Z.mod_pos_bound. lia. Qed.

Lemma u8_range x : 0 <= u8 x < 2 ^ 8.
Proof. unfold u8. apply Z.mod_pos_bound. lia. Qed.

Lemma u32_id x : 0 <= x < 2 ^ 32 -> u32 x = x.
Proof. intros. unfold u32. apply Z.mod_small. lia. Qed.

Lemma testbit_u32 x i : 0 <= i < 32 -> Z.testbit (u32 x) i = Z.testbit x i.
Proof. intros. unfold u32. apply Z.mod_pow2_bits_low. lia. Qed.

Lemma testbit_u8 x i : 0 <= i < 8 -> Z.testbit (u8 x) i = Z.testbit x i.
Proof. intros. unfold u8. apply Z.mod_pow2_bits_low. lia. Qed.

Lemma testbit_set x b i :
  0 <= b -> Z.testbit (Z.lor x (Z.shiftl 1 b)) i = Z.testbit x i || (i =? b).
Proof.
  intros Hb. rewrite Z.lor_spec, Z.shiftl_1_l, Z.pow2_bits_eqb by lia.
  f_equal. apply Z.eqb_sym.
Qed.

Lemma testbit_clear x b i :
  0 <= b -> 0 <= i ->
  Z.testbit (Z.land x (Z.lnot (Z.shiftl 1 b))) i = Z.testbit x i && negb (i =? b).
Proof.
  intros Hb Hi. rewrite Z.land_spec, Z.lnot_spec, Z.shiftl_1_l, Z.pow2_bits_eqb by lia.
  do 2 f_equal. apply Z.eqb_sym.
Qed.

Lemma testbit_above x b i :
  0 <= b -> 0 <= i ->
  Z.testbit (Z.land x (Z.lnot (Z.shiftl 1 (b + 1) - 1))) i = Z.testbit x i && (b <? i).
Proof.
  intros Hb Hi.
  replace (Z.shiftl 1 (b + 1) - 1) with (Z.ones (b + 1))
    by (rewrite Z.ones_equiv, Z.shiftl_1_l; lia).
  rewrite Z.land_spec, Z.lnot_spec by lia. f_equal.
  destruct (Z.ltb_spec b i).
  - rewrite Z.ones_spec_high by lia. reflexivity.
  - rewrite Z.ones_spec_low by lia. reflexivity.
Qed.

Lemma nonzero_testbit n x :
  0 <= x < 2 ^ n -> x <> 0 -> exists i, 0 <= i < n /\ Z.testbit x i = true.
Proof.
  intros Hx Hne. exists (Z.log2 x). split.
  - split; [apply Z.log2_nonneg|]. apply Z.log2_lt_pow2; lia.
  - apply Z.bit_log2. lia.
Qed.

Lemma testbit_nonzero x i : Z.testbit x i = true -> x <> 0.
Proof. intros H ->. rewrite Z.bits_0 in H. discriminate. Qed.

Lemma ctz_from_spec fuel : forall s x i,
  0 <= s -> s <= i < s + Z.of_nat fuel -> Z.testbit x i = true ->
  Z.testbit x (ctz_from fuel s x) = true /\
  s <= ctz_from fuel s x <= i /\
  (forall j, s <= j < ctz_from fuel s x -> Z.testbit x j = false).
Proof.
  induction fuel as [|fuel IH]; intros s x i Hs Hi Hbit; [lia|].
  cbn [ctz_from]. destruct (Z.testbit x s) eqn:E.
  - repeat split; try lia. exact E.
  - assert (s <> i) by (intros ->; congruence).
    destruct (IH (s + 1) x i) as (H1 & H2 & H3); try lia; [exact Hbit|].
    repeat split; try lia; [exact H1|].
    intros j Hj. destruct (Z.eq_dec j s) as [->|]; [exact E|]. apply H3. lia.
Qed.

Lemma ctz_spec n x :
  0 <= n <= 32 -> 0 <= x < 2 ^ n -> x <> 0 ->
  Z.testbit x (ctz x) = true /\ 0 <= ctz x < n /\
  (forall j, 0 <= j < ctz x -> Z.testbit x j = false).
Proof.
  intros Hn Hx Hne. destruct (nonzero_testbit n x Hx Hne) as (i & Hi & Hbit).
  destruct (ctz_from_spec 32 0 x i) as (H1 & H2 & H3); try lia; [exact Hbit|].
  unfold ctz. repeat split; try lia; [exact H1|exact H3].
Qed.

(** ** The size-to-bin mapping *)

Lemma lor_shiftl3 t b : 0 <= t < 32 -> 0 <= b < 8 -> Z.lor (Z.shiftl t 3) b = 8 * t + b.
Proof.
  intros Ht Hb.
  assert (H : all_below 32 (fun t => all_below 8 (fun b =>
            Z.lor (Z.shiftl t 3) b =? 8 * t + b)) = true) by (vm_compute; reflexivity).
  apply Z.eqb_eq.
  apply (all_below_spec 8 (fun b => Z.lor (Z.shiftl t 3) b =? 8 * t + b)); [|lia].
  apply (all_below_spec 32 (fun t => all_below 8 (fun b =>
            Z.lor (Z.shiftl t 3) b =? 8 * t + b))); [exact H|lia].
Qed.

Lemma clz_range s : 0 <= s < 2 ^ 32 -> 0 <= clz s <= 32.
Proof.
  intros Hs. unfold clz. destruct (Z.eqb_spec s 0); [lia|].
  assert (0 <= Z.log2 s) by apply Z.log2_nonneg.
  assert (Z.log2 s < 32) by (apply Z.log2_lt_pow2; lia). lia.
Qed.

Lemma size_to_bin_index_spec s :
  0 <= s < 2 ^ 32 ->
  exists t b, block_allocator_size_to_bin_index s = (8 * t + b, t, b) /\
              0 <= t <= 28 /\ 0 <= b < 8.
Proof.
  intros Hs. unfold block_allocator_size_to_bin_index.
  pose proof (clz_range s Hs) as Hc.
  set (t := if 28 <? clz s then 0 else 28 - clz s).
  assert (Ht : 0 <= t <= 28) by (subst t; destruct (Z.ltb_spec 28 (clz s)); lia).
  set (b := Z.land (Z.shiftr s t) 7).
  assert (Hb : 0 <= b < 8).
  { subst b. change 7 with (Z.ones 3). rewrite Z.land_ones by lia.
    apply Z.mod_pos_bound. lia. }
  exists t, b. rewrite lor_shiftl3 by lia. auto.
Qed.

Lemma bin_of_range s : 0 <= s < 2 ^ 32 -> 0 <= bin_of s < 232.
Proof.
  intros Hs. destruct (size_to_bin_index_spec s Hs) as (t & b & E & Ht & Hb).
  unfold bin_of. rewrite E. cbn [fst]. lia.
Qed.

(** ** Reading a field after a store *)

Ltac store_frame :=
  intros;
  unfold store_size, store_bin_prev, store_bin_next, store_mem_prev, store_mem_next,
         set_block, release_slot, set_top_bins, set_bottom_bin, set_bin_list, set_head_block,
         set_free_block, set_free_offset;
  cbn [top_bins bottom_bins bin_lists blocks head_block free_blocks free_offset];
  rewrite ?lookup_total_insert; repeat case_decide; subst; try congruence; reflexivity.

Create Rewrite HintDb alloc_rw.

Lemma offset_store_size : forall i v a k, offset (block_at (store_size i v a) k) = offset (block_at a k).
Proof. store_frame. Qed.
Lemma size_store_size : forall i v a k, size (block_at (store_size i v a) k) = if decide (i = k) then v else size (block_at a k).
Proof. store_frame. Qed.
Lemma bin_prev_store_size : forall i v a k, bin_prev (block_at (store_size i v a) k) = bin_prev (block_at a k).
Proof. store_frame. Qed.
Lemma bin_next_store_size : forall i v a k, bin_next (block_at (store_size i v a) k) = bin_next (block_at a k).
Proof. store_frame. Qed.
Lemma mem_prev_store_size : forall i v a k, mem_prev (block_at (store_size i v a) k) = mem_prev (block_at a k).
Proof. store_frame. Qed.
Lemma mem_next_store_size : forall i v a k, mem_next (block_at (store_size i v a) k) = mem_next (block_at a k).
Proof. store_frame. Qed.
Lemma top_bins_store_size : forall i v a, top_bins (store_size i v a) = top_bins a.
Proof. store_frame. Qed.
Lemma bottom_bins_store_size : forall i v a, bottom_bins (store_size i v a) = bottom_bins a.
Proof. store_frame. Qed.
Lemma bin_lists_store_size : forall i v a, bin_lists (store_size i v a) = bin_lists a.
Proof. store_frame. Qed.
Lemma head_block_store_size : forall i v a, head_block (store_size i v a) = head_block a.
Proof. store_frame. Qed.
Lemma free_blocks_store_size : forall i v a, free_blocks (store_size i v a) = free_blocks a.
Proof. store_frame. Qed.
Lemma free_offset_store_size : forall i v a, free_offset (store_size i v a) = free_offset a.
Proof. store_frame. Qed.
Lemma offset_store_bin_prev : forall i v a k, offset (block_at (store_bin_prev i v a) k) = offset (block_at a k).
Proof. store_frame. Qed.
Lemma size_store_bin_prev : forall i v a k, size (block_at (store_bin_prev i v a) k) = size (block_at a k).
Proof. store_frame. Qed.
Lemma bin_prev_store_bin_prev : forall i v a k, bin_prev (block_at (store_bin_prev i v a) k) = if decide (i = k) then v else bin_prev (block_at a k).
Proof. store_frame. Qed.
Lemma bin_next_store_bin_prev : forall i v a k, bin_next (block_at (store_bin_prev i v a) k) = bin_next (block_at a k).
Proof. store_frame. Qed.
Lemma mem_prev_store_bin_prev : forall i v a k, mem_prev (block_at (store_bin_prev i v a) k) = mem_prev (block_at a k).
Proof. store_frame. Qed.
Lemma mem_next_store_bin_prev : forall i v a k, mem_next (block_at (store_bin_prev i v a) k) = mem_next (block_at a k).
Proof. store_frame. Qed.
Lemma top_bins_store_bin_prev : forall i v a, top_bins (store_bin_prev i v a) = top_bins a.
Proof. store_frame. Qed.
Lemma bottom_bins_store_bin_prev : forall i v a, bottom_bins (store_bin_prev i v a) = bottom_bins a.
Proof. store_frame. Qed.
Lemma bin_lists_store_bin_prev : forall i v a, bin_lists (store_bin_prev i v a) = bin_lists a.
Proof. store_frame. Qed.
Lemma head_block_store_bin_prev : forall i v a, head_block (store_bin_prev i v a) = head_block a.
Proof. store_frame. Qed.
Lemma free_blocks_store_bin_prev : forall i v a, free_blocks (store_bin_prev i v a) = free_blocks a.
Proof. store_frame. Qed.
Lemma free_offset_store_bin_prev : forall i v a, free_offset (store_bin_prev i v a) = free_offset a.
Proof. store_frame. Qed.
Lemma offset_store_bin_next : forall i v a k, offset (block_at (store_bin_next i v a) k) = offset (block_at a k).
Proof. store_frame. Qed.
Lemma size_store_bin_next : forall i v a k, size (block_at (store_bin_next i v a) k) = size (block_at a k).
Proof. store_frame. Qed.
Lemma bin_prev_store_bin_next : forall i v a k, bin_prev (block_at (store_bin_next i v a) k) = bin_prev (block_at a k).
Proof. store_frame. Qed.
Lemma bin_next_store_bin_next : forall i v a k, bin_next (block_at (store_bin_next i v a) k) = if decide (i = k) then v else bin_next (block_at a k).
Proof. store_frame. Qed.
Lemma mem_prev_store_bin_next : forall i v a k, mem_prev (block_at (store_bin_next i v a) k) = mem_prev (block_at a k).
Proof. store_frame. Qed.
Lemma mem_next_store_bin_next : forall i v a k, mem_next (block_at (store_bin_next i v a) k) = mem_next (block_at a k).
Proof. store_frame. Qed.
Lemma top_bins_store_bin_next : forall i v a, top_bins (store_bin_next i v a) = top_bins a.
Proof. store_frame. Qed.
Lemma bottom_bins_store_bin_next : forall i v a, bottom_bins (store_bin_next i v a) = bottom_bins a.
Proof. store_frame. Qed.
Lemma bin_lists_store_bin_next : forall i v a, bin_lists (store_bin_next i v a) = bin_lists a.
Proof. store_frame. Qed.
Lemma head_block_store_bin_next : forall i v a, head_block (store_bin_next i v a) = head_block a.
Proof. store_frame. Qed.
Lemma free_blocks_store_bin_next : forall i v a, free_blocks (store_bin_next i v a) = free_blocks a.
Proof. store_frame. Qed.
Lemma free_offset_store_bin_next : forall i v a, free_offset (store_bin_next i v a) = free_offset a.
Proof. store_frame. Qed.
Lemma offset_store_mem_prev : forall i v a k, offset (block_at (store_mem_prev i v a) k) = offset (block_at a k).
Proof. store_frame. Qed.
Lemma size_store_mem_prev : forall i v a k, size (block_at (store_mem_prev i v a) k) = size (block_at a k).
Proof. store_frame. Qed.
Lemma bin_prev_store_mem_prev : forall i v a k, bin_prev (block_at (store_mem_prev i v a) k) = bin_prev (block_at a k).
Proof. store_frame. Qed.
Lemma bin_next_store_mem_prev : forall i v a k, bin_next (block_at (store_mem_prev i v a) k) = bin_next (block_at a k).
Proof. store_frame. Qed.
Lemma mem_prev_store_mem_prev : forall i v a k, mem_prev (block_at (store_mem_prev i v a) k) = if decide (i = k) then v else mem_prev (block_at a k).
Proof. store_frame. Qed.
Lemma mem_next_store_mem_prev : forall i v a k, mem_next (block_at (store_mem_prev i v a) k) = mem_next (block_at a k).
Proof. store_frame. Qed.
Lemma top_bins_store_mem_prev : forall i v a, top_bins (store_mem_prev i v a) = top_bins a.
Proof. store_frame. Qed.
Lemma bottom_bins_store_mem_prev : forall i v a, bottom_bins (store_mem_prev i v a) = bottom_bins a.
Proof. store_frame. Qed.
Lemma bin_lists_store_mem_prev : forall i v a, bin_lists (store_mem_prev i v a) = bin_lists a.
Proof. store_frame. Qed.
Lemma head_block_store_mem_prev : forall i v a, head_block (store_mem_prev i v a) = head_block a.
Proof. store_frame. Qed.
Lemma free_blocks_store_mem_prev : forall i v a, free_blocks (store_mem_prev i v a) = free_blocks a.
Proof. store_frame. Qed.
Lemma free_offset_store_mem_prev : forall i v a, free_offset (store_mem_prev i v a) = free_offset a.
Proof. store_frame. Qed.
Lemma offset_store_mem_next : forall i v a k, offset (block_at (store_mem_next i v a) k) = offset (block_at a k).
Proof. store_frame. Qed.
Lemma size_store_mem_next : forall i v a k, size (block_at (store_mem_next i v a) k) = size (block_at a k).
Proof. store_frame. Qed.
Lemma bin_prev_store_mem_next : forall i v a k, bin_prev (block_at (store_mem_next i v a) k) = bin_prev (block_at a k).
Proof. store_frame. Qed.
Lemma bin_next_store_mem_next : forall i v a k, bin_next (block_at (store_mem_next i v a) k) = bin_next (block_at a k).
Proof. store_frame. Qed.
Lemma mem_prev_store_mem_next : forall i v a k, mem_prev (block_at (store_mem_next i v a) k) = mem_prev (block_at a k).
Proof. store_frame. Qed.
Lemma mem_next_store_mem_next : forall i v a k, mem_next (block_at (store_mem_next i v a) k) = if decide (i = k) then v else mem_next (block_at a k).
Proof. store_frame. Qed.
Lemma top_bins_store_mem_next : forall i v a, top_bins (store_mem_next i v a) = top_bins a.
Proof. store_frame. Qed.
Lemma bottom_bins_store_mem_next : forall i v a, bottom_bins (store_mem_next i v a) = bottom_bins a.
Proof. store_frame. Qed.
Lemma bin_lists_store_mem_next : forall i v a, bin_lists (store_mem_next i v a) = bin_lists a.
Proof. store_frame. Qed.
Lemma head_block_store_mem_next : forall i v a, head_block (store_mem_next i v a) = head_block a.
Proof. store_frame. Qed.
Lemma free_blocks_store_mem_next : forall i v a, free_blocks (store_mem_next i v a) = free_blocks a.
Proof. store_frame. Qed.
Lemma free_offset_store_mem_next : forall i v a, free_offset (store_mem_next i v a) = free_offset a.
Proof. store_frame. Qed.
Lemma offset_set_block : forall i b a k, offset (block_at (set_block i b a) k) = if decide (i = k) then offset b else offset (block_at a k).
Proof. store_frame. Qed.
Lemma size_set_block : forall i b a k, size (block_at (set_block i b a) k) = if decide (i = k) then size b else size (block_at a k).
Proof. store_frame. Qed.
Lemma bin_prev_set_block : forall i b a k, bin_prev (block_at (set_block i b a) k) = if decide (i = k) then bin_prev b else bin_prev (block_at a k).
Proof. store_frame. Qed.
Lemma bin_next_set_block : forall i b a k, bin_next (block_at (set_block i b a) k) = if decide (i = k) then bin_next b else bin_next (block_at a k).
Proof. store_frame. Qed.
Lemma mem_prev_set_block : forall i b a k, mem_prev (block_at (set_block i b a) k) = if decide (i = k) then mem_prev b else mem_prev (block_at a k).
Proof. store_frame. Qed.
Lemma mem_next_set_block : forall i b a k, mem_next (block_at (set_block i b a) k) = if decide (i = k) then mem_next b else mem_next (block_at a k).
Proof. store_frame. Qed.
Lemma top_bins_set_block : forall i b a, top_bins (set_block i b a) = top_bins a.
Proof. store_frame. Qed.
Lemma bottom_bins_set_block : forall i b a, bottom_bins (set_block i b a) = bottom_bins a.
Proof. store_frame. Qed.
Lemma bin_lists_set_block : forall i b a, bin_lists (set_block i b a) = bin_lists a.
Proof. store_frame. Qed.
Lemma head_block_set_block : forall i b a, head_block (set_block i b a) = head_block a.
Proof. store_frame. Qed.
Lemma free_blocks_set_block : forall i b a, free_blocks (set_block i b a) = free_blocks a.
Proof. store_frame. Qed.
Lemma free_offset_set_block : forall i b a, free_offset (set_block i b a) = free_offset a.
Proof. store_frame. Qed.
Lemma top_bins_set_top_bins : forall v a, top_bins (set_top_bins v a) = v.
Proof. store_frame. Qed.
Lemma bottom_bins_set_top_bins : forall v a, bottom_bins (set_top_bins v a) = bottom_bins a.
Proof. store_frame. Qed.
Lemma bin_lists_set_top_bins : forall v a, bin_lists (set_top_bins v a) = bin_lists a.
Proof. store_frame. Qed.
Lemma blocks_set_top_bins : forall v a, blocks (set_top_bins v a) = blocks a.
Proof. store_frame. Qed.
Lemma head_block_set_top_bins : forall v a, head_block (set_top_bins v a) = head_block a.
Proof. store_frame. Qed.
Lemma free_blocks_set_top_bins : forall v a, free_blocks (set_top_bins v a) = free_blocks a.
Proof. store_frame. Qed.
Lemma free_offset_set_top_bins : forall v a, free_offset (set_top_bins v a) = free_offset a.
Proof. store_frame. Qed.
Lemma top_bins_set_bottom_bin : forall t v a, top_bins (set_bottom_bin t v a) = top_bins a.
Proof. store_frame. Qed.
Lemma bottom_bins_set_bottom_bin : forall t v a, bottom_bins (set_bottom_bin t v a) = <[t := v]> (bottom_bins a).
Proof. store_frame. Qed.
Lemma bin_lists_set_bottom_bin : forall t v a, bin_lists (set_bottom_bin t v a) = bin_lists a.
Proof. store_frame. Qed.
Lemma blocks_set_bottom_bin : forall t v a, blocks (set_bottom_bin t v a) = blocks a.
Proof. store_frame. Qed.
Lemma head_block_set_bottom_bin : forall t v a, head_block (set_bottom_bin t v a) = head_block a.
Proof. store_frame. Qed.
Lemma free_blocks_set_bottom_bin : forall t v a, free_blocks (set_bottom_bin t v a) = free_blocks a.
Proof. store_frame. Qed.
Lemma free_offset_set_bottom_bin : forall t v a, free_offset (set_bottom_bin t v a) = free_offset a.
Proof. store_frame. Qed.
Lemma top_bins_set_bin_list : forall k v a, top_bins (set_bin_list k v a) = top_bins a.
Proof. store_frame. Qed.
Lemma bottom_bins_set_bin_list : forall k v a, bottom_bins (set_bin_list k v a) = bottom_bins a.
Proof. store_frame. Qed.
Lemma bin_lists_set_bin_list : forall k v a, bin_lists (set_bin_list k v a) = <[k := v]> (bin_lists a).
Proof. store_frame. Qed.
Lemma blocks_set_bin_list : forall k v a, blocks (set_bin_list k v a) = blocks a.
Proof. store_frame. Qed.
Lemma head_block_set_bin_list : forall k v a, head_block (set_bin_list k v a) = head_block a.
Proof. store_frame. Qed.
Lemma free_blocks_set_bin_list : forall k v a, free_blocks (set_bin_list k v a) = free_blocks a.
Proof. store_frame. Qed.
Lemma free_offset_set_bin_list : forall k v a, free_offset (set_bin_list k v a) = free_offset a.
Proof. store_frame. Qed.
Lemma top_bins_set_head_block : forall v a, top_bins (set_head_block v a) = top_bins a.
Proof. store_frame. Qed.
Lemma bottom_bins_set_head_block : forall v a, bottom_bins (set_head_block v a) = bottom_bins a.
Proof. store_frame. Qed.
Lemma bin_lists_set_head_block : forall v a, bin_lists (set_head_block v a) = bin_lists a.
Proof. store_frame. Qed.
Lemma blocks_set_head_block : forall v a, blocks (set_head_block v a) = blocks a.
Proof. store_frame. Qed.
Lemma head_block_set_head_block : forall v a, head_block (set_head_block v a) = v.
Proof. store_frame. Qed.
Lemma free_blocks_set_head_block : forall v a, free_blocks (set_head_block v a) = free_blocks a.
Proof. store_frame. Qed.
Lemma free_offset_set_head_block : forall v a, free_offset (set_head_block v a) = free_offset a.
Proof. store_frame. Qed.
Lemma top_bins_set_free_block : forall k v a, top_bins (set_free_block k v a) = top_bins a.
Proof. store_frame. Qed.
Lemma bottom_bins_set_free_block : forall k v a, bottom_bins (set_free_block k v a) = bottom_bins a.
Proof. store_frame. Qed.
Lemma bin_lists_set_free_block : forall k v a, bin_lists (set_free_block k v a) = bin_lists a.
Proof. store_frame. Qed.
Lemma blocks_set_free_block : forall k v a, blocks (set_free_block k v a) = blocks a.
Proof. store_frame. Qed.
Lemma head_block_set_free_block : forall k v a, head_block (set_free_block k v a) = head_block a.
Proof. store_frame. Qed.
Lemma free_blocks_set_free_block : forall k v a, free_blocks (set_free_block k v a) = <[k := v]> (free_blocks a).
Proof. store_frame. Qed.
Lemma free_offset_set_free_block : forall k v a, free_offset (set_free_block k v a) = free_offset a.
Proof. store_frame. Qed.
Lemma top_bins_set_free_offset : forall v a, top_bins (set_free_offset v a) = top_bins a.
Proof. store_frame. Qed.
Lemma bottom_bins_set_free_offset : forall v a, bottom_bins (set_free_offset v a) = bottom_bins a.
Proof. store_frame. Qed.
Lemma bin_lists_set_free_offset : forall v a, bin_lists (set_free_offset v a) = bin_lists a.
Proof. store_frame. Qed.
Lemma blocks_set_free_offset : forall v a, blocks (set_free_offset v a) = blocks a.
Proof. store_frame. Qed.
Lemma head_block_set_free_offset : forall v a, head_block (set_free_offset v a) = head_block a.
Proof. store_frame. Qed.
Lemma free_blocks_set_free_offset : forall v a, free_blocks (set_free_offset v a) = free_blocks a.
Proof. store_frame. Qed.
Lemma free_offset_set_free_offset : forall v a, free_offset (set_free_offset v a) = v.
Proof. store_frame. Qed.
Lemma top_bins_release_slot : forall i a, top_bins (release_slot i a) = top_bins a.
Proof. store_frame. Qed.
Lemma bottom_bins_release_slot : forall i a, bottom_bins (release_slot i a) = bottom_bins a.
Proof. store_frame. Qed.
Lemma bin_lists_release_slot : forall i a, bin_lists (release_slot i a) = bin_lists a.
Proof. store_frame. Qed.
Lemma blocks_release_slot : forall i a, blocks (release_slot i a) = blocks a.
Proof. store_frame. Qed.
Lemma head_block_release_slot : forall i a, head_block (release_slot i a) = head_block a.
Proof. store_frame. Qed.
Lemma free_blocks_release_slot : forall i a, free_blocks (release_slot i a) = <[u32 (free_offset a - 1) := i]> (free_blocks a).
Proof. store_frame. Qed.
Lemma free_offset_release_slot : forall i a, free_offset (release_slot i a) = u32 (free_offset a - 1).
Proof. store_frame. Qed.

#[global] Hint Rewrite offset_store_size size_store_size bin_prev_store_size bin_next_store_size mem_prev_store_size mem_next_store_size : alloc_rw.
#[global] Hint Rewrite top_bins_store_size bottom_bins_store_size bin_lists_store_size head_block_store_size free_blocks_store_size free_offset_store_size : alloc_rw.
#[global] Hint Rewrite offset_store_bin_prev size_store_bin_prev bin_prev_store_bin_prev bin_next_store_bin_prev mem_prev_store_bin_prev mem_next_store_bin_prev : alloc_rw.
#[global] Hint Rewrite top_bins_store_bin_prev bottom_bins_store_bin_prev bin_lists_store_bin_prev head_block_store_bin_prev free_blocks_store_bin_prev free_offset_store_bin_prev : alloc_rw.
#[global] Hint Rewrite offset_store_bin_next size_store_bin_next bin_prev_store_bin_next bin_next_store_bin_next mem_prev_store_bin_next mem_next_store_bin_next : alloc_rw.
#[global] Hint Rewrite top_bins_store_bin_next bottom_bins_store_bin_next bin_lists_store_bin_next head_block_store_bin_next free_blocks_store_bin_next free_offset_store_bin_next : alloc_rw.
#[global] Hint Rewrite offset_store_mem_prev size_store_mem_prev bin_prev_store_mem_prev bin_next_store_mem_prev mem_prev_store_mem_prev mem_next_store_mem_prev : alloc_rw.
#[global] Hint Rewrite top_bins_store_mem_prev bottom_bins_store_mem_prev bin_lists_store_mem_prev head_block_store_mem_prev free_blocks_store_mem_prev free_offset_store_mem_prev : alloc_rw.
#[global] Hint Rewrite offset_store_mem_next size_store_mem_next bin_prev_store_mem_next bin_next_store_mem_next mem_prev_store_mem_next mem_next_store_mem_next : alloc_rw.
#[global] Hint Rewrite top_bins_store_mem_next bottom_bins_store_mem_next bin_lists_store_mem_next head_block_store_mem_next free_blocks_store_mem_next free_offset_store_mem_next : alloc_rw.
#[global] Hint Rewrite offset_set_block size_set_block bin_prev_set_block bin_next_set_block mem_prev_set_block mem_next_set_block : alloc_rw.
#[global] Hint Rewrite top_bins_set_block bottom_bins_set_block bin_lists_set_block head_block_set_block free_blocks_set_block free_offset_set_block : alloc_rw.
#[global] Hint Rewrite top_bins_set_top_bins bottom_bins_set_top_bins bin_lists_set_top_bins blocks_set_top_bins head_block_set_top_bins free_blocks_set_top_bins : alloc_rw.
#[global] Hint Rewrite free_offset_set_top_bins top_bins_set_bottom_bin bottom_bins_set_bottom_bin bin_lists_set_bottom_bin blocks_set_bottom_bin head_block_set_bottom_bin : alloc_rw.
#[global] Hint Rewrite free_blocks_set_bottom_bin free_offset_set_bottom_bin top_bins_set_bin_list bottom_bins_set_bin_list bin_lists_set_bin_list blocks_set_bin_list : alloc_rw.
#[global] Hint Rewrite head_block_set_bin_list free_blocks_set_bin_list free_offset_set_bin_list top_bins_set_head_block bottom_bins_set_head_block bin_lists_set_head_block : alloc_rw.
#[global] Hint Rewrite blocks_set_head_block head_block_set_head_block free_blocks_set_head_block free_offset_set_head_block top_bins_set_free_block bottom_bins_set_free_block : alloc_rw.
#[global] Hint Rewrite bin_lists_set_free_block blocks_set_free_block head_block_set_free_block free_blocks_set_free_block free_offset_set_free_block top_bins_set_free_offset : alloc_rw.
#[global] Hint Rewrite bottom_bins_set_free_offset bin_lists_set_free_offset blocks_set_free_offset head_block_set_free_offset free_blocks_set_free_offset free_offset_set_free_offset : alloc_rw.
#[global] Hint Rewrite top_bins_release_slot bottom_bins_release_slot bin_lists_release_slot blocks_release_slot head_block_release_slot free_blocks_release_slot : alloc_rw.
#[global] Hint Rewrite free_offset_release_slot : alloc_rw.

Ltac rw := autorewrite with alloc_rw in *.
Ltac rwg := autorewrite with alloc_rw.

(** ** Head tags *)

Ltac consts :=
  unfold BLOCK_ALLOCATOR_UNUSED, BLOCK_ALLOCATOR_HEAD_BITS, BLOCK_ALLOCATOR_HEAD_MASK,
         BLOCK_ALLOCATOR_MAX_ALLOCS, BLOCK_ALLOCATOR_SUCCESS,
         BLOCK_ALLOCATOR_OUT_OF_MEMORY in *.

Lemma head_tag_spec k :
  0 <= k < 256 ->
  Z.lor BLOCK_ALLOCATOR_HEAD_BITS k = BLOCK_ALLOCATOR_HEAD_BITS + k /\
  Z.land (Z.lor BLOCK_ALLOCATOR_HEAD_BITS k) BLOCK_ALLOCATOR_HEAD_BITS <> 0 /\
  Z.land (Z.lor BLOCK_ALLOCATOR_HEAD_BITS k) BLOCK_ALLOCATOR_HEAD_MASK = k /\
  8 * Z.shiftr k 3 + Z.land k 7 = k /\
  0 <= Z.shiftr k 3 < 32 /\ 0 <= Z.land k 7 < 8.
Proof.
  intros Hk.
  pose (chk := fun k =>
    (Z.lor BLOCK_ALLOCATOR_HEAD_BITS k =? BLOCK_ALLOCATOR_HEAD_BITS + k)
    && negb (Z.land (Z.lor BLOCK_ALLOCATOR_HEAD_BITS k) BLOCK_ALLOCATOR_HEAD_BITS =? 0)
    && (Z.land (Z.lor BLOCK_ALLOCATOR_HEAD_BITS k) BLOCK_ALLOCATOR_HEAD_MASK =? k)
    && (8 * Z.shiftr k 3 + Z.land k 7 =? k)
    && (0 <=? Z.shiftr k 3) && (Z.shiftr k 3 <? 32)
    && (0 <=? Z.land k 7) && (Z.land k 7 <? 8)).
  assert (Hall : all_below 256 chk = true) by (vm_compute; reflexivity).
  pose proof (all_below_spec 256 chk Hall k ltac:(lia)) as H. unfold chk in H.
  repeat (apply andb_true_iff in H as [H ?]).
  repeat match goal with
  | H : (_ =? _) = true |- _ => apply Z.eqb_eq in H
  | H : (_ <=? _) = true |- _ => apply Z.leb_le in H
  | H : (_ <? _) = true |- _ => apply Z.ltb_lt in H
  | H : negb (_ =? _) = true |- _ => apply negb_true_iff, Z.eqb_neq in H
  end.
  repeat split; assumption.
Qed.

Lemma slot_no_head i :
  0 <= i < BLOCK_ALLOCATOR_MAX_ALLOCS -> Z.land i BLOCK_ALLOCATOR_HEAD_BITS = 0.
Proof.
  intros Hi. apply Z.bits_inj'. intros n Hn. rewrite Z.land_spec, Z.bits_0.
  destruct (Z.ltb_spec n 28).
  - change BLOCK_ALLOCATOR_HEAD_BITS with (Z.shiftl 15 28).
    rewrite Z.shiftl_spec_low by lia. apply andb_false_r.
  - destruct (Z.eq_dec i 0) as [->|]; [rewrite Z.bits_0; reflexivity|].
    rewrite Z.bits_above_log2; [reflexivity|lia|].
    apply Z.lt_le_trans with 28; [|lia].
    apply Z.log2_lt_pow2; consts; lia.
Qed.

Lemma head_tag_not_slot k :
  0 <= k < 256 ->
  ~ 0 <= Z.lor BLOCK_ALLOCATOR_HEAD_BITS k < BLOCK_ALLOCATOR_MAX_ALLOCS /\
  Z.lor BLOCK_ALLOCATOR_HEAD_BITS k <> BLOCK_ALLOCATOR_UNUSED.
Proof.
  intros Hk. destruct (head_tag_spec k Hk) as (-> & _). consts. lia.
Qed.

Lemma head_tag_inj k1 k2 :
  0 <= k1 < 256 -> 0 <= k2 < 256 ->
  Z.lor BLOCK_ALLOCATOR_HEAD_BITS k1 = Z.lor BLOCK_ALLOCATOR_HEAD_BITS k2 -> k1 = k2.
Proof.
  intros H1 H2. destruct (head_tag_spec k1 H1) as (-> & _).
  destruct (head_tag_spec k2 H2) as (-> & _). lia.
Qed.

(** ** Bitmaps *)

Lemma clear_bin_bits_bottom t b a :
  bottom_bins (clear_bin_bits t b a) =
  <[t := u8 (Z.land (bottom_bin a t) (Z.lnot (Z.shiftl 1 b)))]> (bottom_bins a).
Proof.
  unfold clear_bin_bits. cbv zeta. rw. rewrite lookup_total_insert_eq.
  destruct (_ =? 0); rw; reflexivity.
Qed.

Lemma clear_bin_bits_top t b a :
  top_bins (clear_bin_bits t b a) =
  if u8 (Z.land (bottom_bin a t) (Z.lnot (Z.shiftl 1 b))) =? 0
  then u32 (Z.land (top_bins a) (Z.lnot (Z.shiftl 1 t))) else top_bins a.
Proof.
  unfold clear_bin_bits. cbv zeta. rw. rewrite lookup_total_insert_eq.
  destruct (_ =? 0); rw; reflexivity.
Qed.

Lemma clear_bin_bits_frame t b a :
  bin_lists (clear_bin_bits t b a) = bin_lists a /\
  blocks (clear_bin_bits t b a) = blocks a /\
  head_block (clear_bin_bits t b a) = head_block a /\
  free_blocks (clear_bin_bits t b a) = free_blocks a /\
  free_offset (clear_bin_bits t b a) = free_offset a.
Proof.
  unfold clear_bin_bits. cbv zeta. rw. rewrite lookup_total_insert_eq.
  destruct (_ =? 0); rw; auto.
Qed.

Lemma bin_index_inj t b t' b' :
  0 <= b < 8 -> 0 <= b' < 8 -> 8 * t + b = 8 * t' + b' -> t = t' /\ b = b'.
Proof. lia. Qed.

Section BitmapUpdates.
Variables a a' : block_allocator_t.
Hypothesis Hrange : bitmaps_in_range a.
Hypothesis Hcons : bitmaps_consistent a.
Variables t b : Z.
Hypothesis Ht : 0 <= t < 32.
Hypothesis Hb : 0 <= b < 8.

(** A block goes to the head of bin [8t+b]. *)
Lemma bitmaps_set j :
  j <> BLOCK_ALLOCATOR_UNUSED ->
  top_bins a' = u32 (Z.lor (top_bins a) (Z.shiftl 1 t)) ->
  bottom_bins a' = <[t := u8 (Z.lor (bottom_bin a t) (Z.shiftl 1 b))]> (bottom_bins a) ->
  bin_lists a' = <[8 * t + b := j]> (bin_lists a) ->
  bitmaps_in_range a' /\ bitmaps_consistent a'.
Proof.
  intros Hj Etop Ebot Ebin. destruct Hrange as [Hr1 Hr2], Hcons as [Hc1 Hc2].
  assert (Hnew : Z.testbit (u8 (Z.lor (bottom_bin a t) (Z.shiftl 1 b))) b = true).
  { rewrite testbit_u8, testbit_set, Z.eqb_refl by lia. apply orb_true_r. }
  split; [split|split].
  - rewrite Etop. apply u32_range.
  - intros t2 Ht2. rewrite Ebot, lookup_total_insert. case_decide; [apply u8_range|auto].
  - intros t2 Ht2. rewrite Etop, Ebot, testbit_u32, testbit_set, lookup_total_insert by lia.
    case_decide.
    + subst t2. rewrite Z.eqb_refl, orb_true_r.
      split; [intros _; eapply testbit_nonzero; exact Hnew|reflexivity].
    + replace (t2 =? t) with false by (symmetry; apply Z.eqb_neq; congruence).
      rewrite orb_false_r. auto.
  - intros t2 b2 Ht2 Hb2. rewrite Ebot, Ebin, !lookup_total_insert.
    destruct (decide (t = t2)) as [<-|Hne].
    + rewrite testbit_u8, testbit_set by lia.
      destruct (Z.eqb_spec b2 b) as [->|Hbne].
      * rewrite decide_True by reflexivity. rewrite orb_true_r. tauto.
      * rewrite decide_False by lia. rewrite orb_false_r. auto.
    + rewrite decide_False by lia. auto.
Qed.

(** Bin [8t+b] becomes empty and its bits are cleared. *)
Lemma bitmaps_clear :
  top_bins a' = top_bins (clear_bin_bits t b a) ->
  bottom_bins a' = bottom_bins (clear_bin_bits t b a) ->
  bin_lists a' = <[8 * t + b := BLOCK_ALLOCATOR_UNUSED]> (bin_lists a) ->
  bitmaps_in_range a' /\ bitmaps_consistent a'.
Proof.
  rewrite clear_bin_bits_top, clear_bin_bits_bottom.
  set (v := u8 (Z.land (bottom_bin a t) (Z.lnot (Z.shiftl 1 b)))).
  intros Etop Ebot Ebin. destruct Hrange as [Hr1 Hr2], Hcons as [Hc1 Hc2].
  assert (Hv : forall i, 0 <= i < 8 ->
            Z.testbit v i = Z.testbit (bottom_bin a t) i && negb (i =? b)).
  { intros i Hi. unfold v. rewrite testbit_u8, testbit_clear by lia. reflexivity. }
  split; [split|split].
  - rewrite Etop. destruct (v =? 0); [apply u32_range|exact Hr1].
  - intros t2 Ht2. rewrite Ebot, lookup_total_insert. case_decide; [apply u8_range|auto].
  - intros t2 Ht2. rewrite Etop, Ebot, lookup_total_insert.
    destruct (Z.eqb_spec v 0) as [Hv0|Hv0].
    + rewrite testbit_u32, testbit_clear by lia. case_decide.
      * subst t2. rewrite Z.eqb_refl, andb_false_r. split; [discriminate|congruence].
      * replace (t2 =? t) with false by (symmetry; apply Z.eqb_neq; congruence).
        rewrite andb_true_r. auto.
    + case_decide; [|auto]. subst t2. split; [intros _; exact Hv0|intros _].
      apply Hc1; [assumption|].
      destruct (nonzero_testbit 8 v (u8_range _) Hv0) as (i & Hi & Hbit).
      rewrite Hv in Hbit by assumption. apply andb_true_iff in Hbit as [Hbit _].
      eapply testbit_nonzero. exact Hbit.
  - intros t2 b2 Ht2 Hb2. rewrite Ebot, Ebin, !lookup_total_insert.
    destruct (decide (t = t2)) as [<-|Hne].
    + rewrite Hv by assumption. destruct (Z.eqb_spec b2 b) as [->|Hbne].
      * rewrite decide_True by reflexivity. rewrite andb_false_r.
        split; [discriminate|congruence].
      * rewrite decide_False by lia. rewrite andb_true_r. auto.
    + rewrite decide_False by lia. auto.
Qed.

End BitmapUpdates.

Section BitmapFrames.
Variables a a' : block_allocator_t.
Hypothesis Hrange : bitmaps_in_range a.
Hypothesis Hcons : bitmaps_consistent a.

(** The head of a bin is replaced by another block. *)
Lemma bitmaps_relink k n :
  n <> BLOCK_ALLOCATOR_UNUSED -> bin_list a k <> BLOCK_ALLOCATOR_UNUSED ->
  top_bins a' = top_bins a -> bottom_bins a' = bottom_bins a ->
  bin_lists a' = <[k := n]> (bin_lists a) ->
  bitmaps_in_range a' /\ bitmaps_consistent a'.
Proof.
  intros Hn Hk Etop Ebot Ebin. destruct Hrange as [Hr1 Hr2], Hcons as [Hc1 Hc2].
  split; [split|split].
  - rewrite Etop. exact Hr1.
  - intros t2 Ht2. rewrite Ebot. auto.
  - intros t2 Ht2. rewrite Etop, Ebot. auto.
  - intros t2 b2 Ht2 Hb2. rewrite Ebot, Ebin, lookup_total_insert. case_decide.
    + subst k. rewrite Hc2 by assumption. tauto.
    + auto.
Qed.

(** Nothing of the bin index changes. *)
Lemma bitmaps_frame :
  top_bins a' = top_bins a -> bottom_bins a' = bottom_bins a ->
  bin_lists a' = bin_lists a ->
  bitmaps_in_range a' /\ bitmaps_consistent a'.
Proof.
  intros E1 E2 E3. unfold bitmaps_in_range, bitmaps_consistent.
  rewrite E1, E2, E3. split; assumption.
Qed.
End BitmapFrames.

(** ** The search of lines 171-185 *)

Section FindBin.
Variable a : block_allocator_t.
Hypothesis Hrange : bitmaps_in_range a.
Hypothesis Hcons : bitmaps_consistent a.
Variables t b : Z.
Hypothesis Ht : 0 <= t < 32.
Hypothesis Hb : 0 <= b < 8.

Lemma alloc_find_bin_Some t' b' :
  alloc_find_bin a t b = Some (t', b') ->
  0 <= t' < 32 /\ 0 <= b' < 8 /\
  bin_list a (8 * t' + b') <> BLOCK_ALLOCATOR_UNUSED /\
  8 * t + b < 8 * t' + b'.
Proof.
  destruct Hrange as [Hr1 Hr2], Hcons as [Hc1 Hc2].
  unfold alloc_find_bin.
  set (m := if b =? 7 then 0
            else u8 (Z.land (bottom_bin a t) (Z.lnot (Z.shiftl 1 (b + 1) - 1)))).
  destruct (Z.eqb_spec m 0) as [Hm|Hm]; cbn [negb].
  - destruct (Z.eqb_spec t 31); [discriminate|].
    set (mt := u32 (Z.land (top_bins a) (Z.lnot (Z.shiftl 1 (t + 1) - 1)))).
    destruct (Z.eqb_spec mt 0) as [Hmt|Hmt]; [discriminate|].
    intros [= <- <-].
    destruct (ctz_spec 32 mt ltac:(lia) (u32_range _) Hmt) as (Hbit & Hc & _).
    unfold mt at 1 in Hbit. rewrite testbit_u32, testbit_above in Hbit by lia.
    apply andb_true_iff in Hbit as [Hbit Hlt]. apply Z.ltb_lt in Hlt.
    apply Hc1 in Hbit; [|lia].
    destruct (ctz_spec 8 (bottom_bin a (ctz mt)) ltac:(lia) (Hr2 _ Hc) Hbit)
      as (Hbit' & Hc' & _).
    apply Hc2 in Hbit'; [|lia|lia]. repeat split; lia || exact Hbit'.
  - intros [= <- <-].
    destruct (Z.eqb_spec b 7); [subst m; congruence|]. subst m.
    destruct (ctz_spec 8 _ ltac:(lia) (u8_range _) Hm) as (Hbit & Hc & _).
    rewrite testbit_u8, testbit_above in Hbit by lia.
    apply andb_true_iff in Hbit as [Hbit Hlt]. apply Z.ltb_lt in Hlt.
    apply Hc2 in Hbit; [|lia|lia]. repeat split; lia || exact Hbit.
Qed.

Lemma alloc_find_bin_None :
  alloc_find_bin a t b = None ->
  forall k, 8 * t + b < k < 256 -> bin_list a k = BLOCK_ALLOCATOR_UNUSED.
Proof.
  destruct Hrange as [Hr1 Hr2], Hcons as [Hc1 Hc2].
  unfold alloc_find_bin.
  set (m := if b =? 7 then 0
            else u8 (Z.land (bottom_bin a t) (Z.lnot (Z.shiftl 1 (b + 1) - 1)))).
  destruct (Z.eqb_spec m 0) as [Hm|Hm]; cbn [negb]; [|discriminate].
  intros Hnone k Hk.
  destruct (head_tag_spec k ltac:(lia)) as (_ & _ & _ & Ek & Htk & Hbk).
  set (tk := Z.shiftr k 3) in *. set (bk := Z.land k 7) in *.
  rewrite <- Ek.
  destruct (Z.eq_dec (bin_list a (8 * tk + bk)) BLOCK_ALLOCATOR_UNUSED) as [|Hne];
    [assumption|exfalso].
  apply Hc2 in Hne; [|lia|lia].
  destruct (Z.eq_dec tk t) as [Etk|Netk].
  - rewrite Etk in *. assert (b < bk) by lia.
    destruct (Z.eqb_spec b 7); [lia|]. subst m.
    assert (Hbit : Z.testbit
              (u8 (Z.land (bottom_bin a t) (Z.lnot (Z.shiftl 1 (b + 1) - 1)))) bk = true).
    { rewrite testbit_u8, testbit_above, Hne by lia. apply Z.ltb_lt. lia. }
    rewrite Hm, Z.bits_0 in Hbit. discriminate.
  - assert (t < tk) by lia.
    destruct (Z.eqb_spec t 31); [lia|].
    set (mt := u32 (Z.land (top_bins a) (Z.lnot (Z.shiftl 1 (t + 1) - 1)))) in *.
    destruct (Z.eqb_spec mt 0) as [Hmt|Hmt]; [|discriminate].
    assert (Hbit : Z.testbit mt tk = true).
    { unfold mt. rewrite testbit_u32, testbit_above by lia.
      apply andb_true_iff. split; [|apply Z.ltb_lt; lia].
      apply Hc1; [lia|]. eapply testbit_nonzero. exact Hne. }
    rewrite Hmt, Z.bits_0 in Hbit. discriminate.
Qed.
(** The bin found is the lowest non-empty bin above [8 * t + b]. *)
Lemma alloc_find_bin_least t' b' :
  alloc_find_bin a t b = Some (t', b') ->
  forall k, 8 * t + b < k < 8 * t' + b' -> bin_list a k = BLOCK_ALLOCATOR_UNUSED.
Proof.
  intros Hf.
  destruct (alloc_find_bin_Some t' b' Hf) as (Ht' & Hb' & _ & _).
  revert Hf.
  destruct Hrange as [Hr1 Hr2], Hcons as [Hc1 Hc2].
  unfold alloc_find_bin.
  set (m := if b =? 7 then 0
            else u8 (Z.land (bottom_bin a t) (Z.lnot (Z.shiftl 1 (b + 1) - 1)))).
  intros Hf k Hk.
  assert (Hk256 : 0 <= k < 256) by lia.
  destruct (head_tag_spec k Hk256) as (_ & _ & _ & Ek & Htk & Hbk).
  set (tk := Z.shiftr k 3) in *. set (bk := Z.land k 7) in *.
  rewrite <- Ek.
  destruct (Z.eq_dec (bin_list a (8 * tk + bk)) BLOCK_ALLOCATOR_UNUSED) as [|Hne];
    [assumption|exfalso].
  apply Hc2 in Hne; [|lia|lia].
  assert (Hlow : tk = t -> m <> 0 /\ Z.testbit m bk = true).
  { intros Etk. rewrite Etk in *. assert (b < bk) by lia.
    destruct (Z.eqb_spec b 7); [lia|]. subst m.
    assert (Hbit : Z.testbit
              (u8 (Z.land (bottom_bin a t) (Z.lnot (Z.shiftl 1 (b + 1) - 1)))) bk = true).
    { rewrite testbit_u8, testbit_above, Hne by lia. apply Z.ltb_lt. lia. }
    split; [|exact Hbit]. intros E0. rewrite E0, Z.bits_0 in Hbit. discriminate. }
  destruct (Z.eqb_spec m 0) as [Hm|Hm]; cbn [negb] in Hf.
  - destruct (Z.eqb_spec t 31); [discriminate|].
    set (mt := u32 (Z.land (top_bins a) (Z.lnot (Z.shiftl 1 (t + 1) - 1)))) in *.
    destruct (Z.eqb_spec mt 0) as [Hmt|Hmt]; [discriminate|].
    injection Hf as Et' Eb'.
    destruct (ctz_spec 32 mt ltac:(lia) (u32_range _) Hmt) as (Hbit & Hc & Hmin).
    assert (Htk' : tk <> t) by (intros E; destruct (Hlow E); contradiction).
    assert (Hbt : Z.testbit mt tk = true).
    { unfold mt. rewrite testbit_u32, testbit_above by lia.
      apply andb_true_iff. split; [|apply Z.ltb_lt; lia].
      apply Hc1; [lia|]. eapply testbit_nonzero. exact Hne. }
    destruct (Z.lt_ge_cases tk (ctz mt)) as [Hlt|Hge].
    + rewrite (Hmin tk) in Hbt by lia. discriminate.
    + assert (Etk : tk = t') by lia.
      assert (Hbot : bottom_bin a t' <> 0)
        by (rewrite <- Etk; eapply testbit_nonzero; exact Hne).
      destruct (ctz_spec 8 (bottom_bin a t') ltac:(lia) (Hr2 _ Ht') Hbot)
        as (_ & _ & Hmin').
      rewrite Etk in Hne. rewrite Et' in Eb'.
      rewrite (Hmin' bk) in Hne by lia. discriminate.
  - injection Hf as Et' Eb'.
    assert (Etk : tk = t) by lia.
    destruct (Hlow Etk) as [_ Hbit].
    assert (Hm8 : 0 <= m < 2 ^ 8).
    { subst m. destruct (b =? 7); [lia|apply u8_range]. }
    destruct (ctz_spec 8 m ltac:(lia) Hm8 Hm) as (_ & _ & Hmin).
    rewrite (Hmin bk) in Hbit by lia. discriminate.
Qed.
End FindBin.

(** ** The block pool *)

Lemma slot_live_tag a i :
  slot_live a i ->
  i <> BLOCK_ALLOCATOR_UNUSED /\ Z.land i BLOCK_ALLOCATOR_HEAD_BITS = 0 /\
  forall k, 0 <= k < 256 -> i <> Z.lor BLOCK_ALLOCATOR_HEAD_BITS k.
Proof.
  intros [Hi _]. split; [consts; lia|]. split; [apply slot_no_head; exact Hi|].
  intros k Hk ->. destruct (head_tag_not_slot k Hk) as [H _]. apply H. exact Hi.
Qed.

Lemma pool_inv_perm a L L' : pool_inv a L -> L ≡ₚ L' -> pool_inv a L'.
Proof.
  intros [H1 H2 H3 H4 H5 H6 H7] HP. split; auto.
  - rewrite <- HP. exact H1.
  - rewrite <- HP. exact H3.
  - intros i Hi. apply H4. rewrite HP. exact Hi.
  - intros i Hi. rewrite <- HP. auto.
Qed.

Section PoolUpdates.
Variables a a' : block_allocator_t.
Variable L : list Z.
Hypothesis Hpool : pool_inv a L.

Lemma pool_frame :
  free_offset a' = free_offset a -> free_blocks a' = free_blocks a -> pool_inv a' L.
Proof.
  intros E1 E2. destruct Hpool as [H1 H2 H3 H4 H5 H6 H7].
  unfold slot_live, slot_pending in *.
  split; unfold slot_live, slot_pending; rewrite ?E1, ?E2; auto.
Qed.

(** [release_slot i]: slot [i] goes back on the stack. *)
Lemma pool_release l1 i l2 :
  L = l1 ++ i :: l2 ->
  free_offset a' = u32 (free_offset a - 1) ->
  free_blocks a' = <[u32 (free_offset a - 1) := i]> (free_blocks a) ->
  free_offset a' = free_offset a - 1 /\ pool_inv a' (l1 ++ l2).
Proof.
  intros -> E1 E2. destruct Hpool as [H1 H2 H3 H4 H5 H6 H7].
  rewrite length_app in H1. cbn [length] in H1.
  assert (Hfo : u32 (free_offset a - 1) = free_offset a - 1)
    by (apply u32_id; consts; lia).
  rewrite Hfo in *. split; [exact E1|].
  assert (Hi : slot_live a i) by (apply H4; set_solver).
  apply NoDup_app in H3 as (Hd1 & Hd12 & Hd2). apply NoDup_cons in Hd2 as [Hd2 Hd3].
  unfold slot_live, slot_pending in *.
  split; unfold slot_live, slot_pending; rewrite ?E1, ?E2.
  - rewrite length_app. lia.
  - lia.
  - apply NoDup_app. set_solver.
  - intros x Hx.
    assert (Hx' : x ∈ l1 ++ i :: l2) by set_solver.
    assert (x <> i) by set_solver.
    destruct (H4 x Hx') as [Hr Hnp]. split; [exact Hr|].
    intros (k & Hk & Ek). rewrite lookup_total_insert in Ek. case_decide.
    + congruence.
    + apply Hnp. exists k. split; [lia|exact Ek].
  - intros k Hk. rewrite lookup_total_insert. case_decide; [tauto|]. apply H5. lia.
  - intros k1 k2 Hk1 Hk2. rewrite !lookup_total_insert.
    destruct Hi as [_ Hnp]. repeat case_decide; try lia.
    + intros E. exfalso. apply Hnp. exists k2. split; [lia|congruence].
    + intros E. exfalso. apply Hnp. exists k1. split; [lia|congruence].
    + apply H6; lia.
  - intros x Hx. destruct (H7 x Hx) as [Hin|(k & Hk & Ek)].
    + destruct (Z.eq_dec x i) as [->|Hne].
      * right. exists (free_offset a - 1). split; [lia|].
        apply lookup_total_insert_eq.
      * left. set_solver.
    + right. exists k. split; [lia|]. rewrite lookup_total_insert_ne by lia. exact Ek.
Qed.

(** The slot on top of the stack is handed out. *)
Lemma pool_acquire :
  free_offset a <> BLOCK_ALLOCATOR_MAX_ALLOCS ->
  free_offset a' = u32 (free_offset a + 1) -> free_blocks a' = free_blocks a ->
  let j := free_block a (free_offset a) in
  0 <= j < BLOCK_ALLOCATOR_MAX_ALLOCS /\ (j ∉ L) /\ pool_inv a' (j :: L).
Proof.
  intros Hnf E1 E2 j. destruct Hpool as [H1 H2 H3 H4 H5 H6 H7].
  assert (0 <= free_offset a) by lia.
  assert (Hfo : u32 (free_offset a + 1) = free_offset a + 1)
    by (apply u32_id; consts; lia).
  rewrite Hfo in *.
  assert (Hj : 0 <= j < BLOCK_ALLOCATOR_MAX_ALLOCS) by (apply H5; lia).
  assert (Hnj : j ∉ L).
  { intros Hin. destruct (H4 j Hin) as [_ Hnp]. apply Hnp.
    exists (free_offset a). split; [lia|reflexivity]. }
  split; [exact Hj|]. split; [exact Hnj|].
  unfold slot_live, slot_pending in *.
  split; unfold slot_live, slot_pending; rewrite ?E1, ?E2.
  - cbn [length]. lia.
  - lia.
  - apply NoDup_cons. auto.
  - intros x Hx. apply elem_of_cons in Hx as [->|Hx].
    + split; [exact Hj|]. intros (k & Hk & Ek).
      assert (k = free_offset a) by (apply H6; [lia|lia|exact Ek]). lia.
    + destruct (H4 x Hx) as [Hr Hnp]. split; [exact Hr|].
      intros (k & Hk & Ek). apply Hnp. exists k. split; [lia|exact Ek].
  - intros k Hk. apply H5. lia.
  - intros k1 k2 Hk1 Hk2. apply H6; lia.
  - intros x Hx. destruct (H7 x Hx) as [Hin|(k & Hk & Ek)].
    + left. set_solver.
    + destruct (Z.eq_dec k (free_offset a)) as [->|Hne].
      * left. subst j. set_solver.
      * right. exists k. split; [lia|exact Ek].
Qed.
End PoolUpdates.

(** ** The bin lists *)

(** Settle the [decide]s of the goal whose outcome the context knows. *)
Ltac dec :=
  repeat first
    [ rewrite decide_True by (first [reflexivity | assumption | congruence])
    | rewrite decide_False by (first [assumption | congruence]) ].

Lemma is_used_true b :
  block_allocator_is_used b = true <->
  bin_next b = BLOCK_ALLOCATOR_UNUSED /\ bin_prev b = BLOCK_ALLOCATOR_UNUSED.
Proof.
  unfold block_allocator_is_used. rewrite andb_true_iff, !Z.eqb_eq. tauto.
Qed.

Lemma is_used_false b :
  block_allocator_is_used b = false <->
  bin_next b <> BLOCK_ALLOCATOR_UNUSED \/ bin_prev b <> BLOCK_ALLOCATOR_UNUSED.
Proof.
  unfold block_allocator_is_used. rewrite andb_false_iff, !Z.eqb_neq. tauto.
Qed.

Lemma is_used_ext b b' :
  bin_next b' = bin_next b -> bin_prev b' = bin_prev b ->
  block_allocator_is_used b' = block_allocator_is_used b.
Proof. unfold block_allocator_is_used. intros -> ->. reflexivity. Qed.

(** A block with a predecessor or a head tag in [bin_prev] is not used. *)
Lemma tagged_not_used b k :
  0 <= k < 256 -> bin_prev b = Z.lor BLOCK_ALLOCATOR_HEAD_BITS k ->
  block_allocator_is_used b = false.
Proof.
  intros Hk E. apply is_used_false. right. rewrite E. apply head_tag_not_slot, Hk.
Qed.

Lemma linked_not_used_prev b i :
  0 <= i < BLOCK_ALLOCATOR_MAX_ALLOCS -> bin_prev b = i ->
  block_allocator_is_used b = false.
Proof. intros Hi E. apply is_used_false. right. consts. lia. Qed.

Lemma linked_not_used_next b i :
  0 <= i < BLOCK_ALLOCATOR_MAX_ALLOCS -> bin_next b = i ->
  block_allocator_is_used b = false.
Proof. intros Hi E. apply is_used_false. left. consts. lia. Qed.

Lemma bins_inv_perm a L L' : bins_inv a L -> L ≡ₚ L' -> bins_inv a L'.
Proof.
  intros [H1 H2 H3] HP. split.
  - intros k Hk Hne. rewrite <- HP. auto.
  - intros i Hi Hu. rewrite <- HP in *. auto.
  - intros i Hi Hu Hn. rewrite <- HP in *. auto.
Qed.

(** Slots that hold used blocks can join or leave the list freely. *)
Lemma bins_inv_used a L L' :
  bins_inv a L ->
  (forall i, i ∈ L -> block_allocator_is_used (block_at a i) = false -> i ∈ L') ->
  (forall i, i ∈ L' -> block_allocator_is_used (block_at a i) = false -> i ∈ L) ->
  (forall i, i ∈ L -> 0 <= i < BLOCK_ALLOCATOR_MAX_ALLOCS) ->
  bins_inv a L'.
Proof.
  intros [H1 H2 H3] HLL' HL'L Hr. split.
  - intros k Hk Hne. destruct (H1 k Hk Hne) as (Hin & Hp & Hs).
    split; [|auto]. apply HLL'; [exact Hin|]. eapply tagged_not_used; eassumption.
  - intros i Hi Hu. destruct (H2 i (HL'L i Hi Hu) Hu) as [H|[Hin Hn]]; [left; exact H|].
    right. split; [|exact Hn]. apply HLL'; [exact Hin|].
    eapply linked_not_used_next; [|exact Hn]. apply Hr. auto.
  - intros i Hi Hu Hn. destruct (H3 i (HL'L i Hi Hu) Hu Hn) as (Hin & Hp & Hs).
    split; [|auto]. apply HLL'; [exact Hin|].
    eapply linked_not_used_prev; [|exact Hp]. apply Hr. auto.
Qed.

Section BinsFrame.
Variables a a' : block_allocator_t.
Variable L : list Z.
Hypothesis Hbins : bins_inv a L.
Hypothesis Ebin : bin_lists a' = bin_lists a.
Hypothesis Ebp : forall x, bin_prev (block_at a' x) = bin_prev (block_at a x).
Hypothesis Ebn : forall x, bin_next (block_at a' x) = bin_next (block_at a x).
Hypothesis Esz : forall x, x ∈ L -> block_allocator_is_used (block_at a x) = false ->
  size (block_at a' x) = size (block_at a x).
Hypothesis Hr : forall i, i ∈ L -> 0 <= i < BLOCK_ALLOCATOR_MAX_ALLOCS.

Lemma is_used_frame x :
  block_allocator_is_used (block_at a' x) = block_allocator_is_used (block_at a x).
Proof. apply is_used_ext; auto. Qed.

Lemma bins_frame : bins_inv a' L.
Proof.
  destruct Hbins as [H1 H2 H3]. split.
  - intros k Hk. rewrite Ebin, Ebp. intros Hne.
    destruct (H1 k Hk Hne) as (Hin & Hp & Hs). repeat split; auto.
    rewrite Esz; auto. eapply tagged_not_used; eassumption.
  - intros i Hi. rewrite is_used_frame, Ebin, Ebp. intros Hu.
    destruct (H2 i Hi Hu) as [H|[Hin Hn]]; [left; exact H|right].
    rewrite Ebn. auto.
  - intros i Hi. rewrite is_used_frame, Ebn. intros Hu Hn.
    destruct (H3 i Hi Hu Hn) as (Hin & Hp & Hs). rewrite Ebp.
    repeat split; auto. rewrite !Esz; auto.
    eapply linked_not_used_prev; [|exact Hp]. auto.
Qed.
End BinsFrame.

Section BinsInsert.
Variables a a' : block_allocator_t.
Variable L : list Z.
Variables j idx s : Z.
Hypothesis Hbins : bins_inv a L.
Hypothesis Hr : forall i, i ∈ L -> 0 <= i < BLOCK_ALLOCATOR_MAX_ALLOCS.
Hypothesis Hj : 0 <= j < BLOCK_ALLOCATOR_MAX_ALLOCS.
Hypothesis Hnj : j ∉ L.
Hypothesis Hidx : 0 <= idx < 256.
Hypothesis Hs : bin_of s = idx.
Let h := bin_list a idx.
Hypothesis Ebin : bin_lists a' = <[idx := j]> (bin_lists a).
Hypothesis Ebp : forall x, 0 <= x < BLOCK_ALLOCATOR_MAX_ALLOCS ->
  bin_prev (block_at a' x) =
  if decide (h = x) then j
  else if decide (j = x) then Z.lor BLOCK_ALLOCATOR_HEAD_BITS idx
  else bin_prev (block_at a x).
Hypothesis Ebn : forall x, bin_next (block_at a' x) =
  if decide (j = x) then h else bin_next (block_at a x).
Hypothesis Esz : forall x, size (block_at a' x) =
  if decide (j = x) then s else size (block_at a x).

Lemma insert_head_facts :
  h <> BLOCK_ALLOCATOR_UNUSED ->
  h ∈ L /\ h <> j /\ bin_prev (block_at a h) = Z.lor BLOCK_ALLOCATOR_HEAD_BITS idx /\
  bin_of (size (block_at a h)) = idx /\
  block_allocator_is_used (block_at a h) = false.
Proof.
  intros Hh. destruct (bins_head a L Hbins idx Hidx Hh) as (Hin & Hp & Hsz).
  fold h in Hin, Hp, Hsz. repeat split; auto.
  - intros ->. contradiction.
  - eapply tagged_not_used; eassumption.
Qed.

Lemma insert_old_head x :
  x ∈ L -> h = x -> h <> BLOCK_ALLOCATOR_UNUSED.
Proof. intros Hx ->. specialize (Hr x Hx). consts. lia. Qed.

Lemma insert_is_used_new : block_allocator_is_used (block_at a' j) = false.
Proof.
  apply is_used_false. right. rewrite Ebp by assumption. case_decide.
  - consts. lia.
  - rewrite decide_True by reflexivity. apply head_tag_not_slot, Hidx.
Qed.

Lemma insert_is_used_old x :
  x ∈ L ->
  block_allocator_is_used (block_at a' x) = block_allocator_is_used (block_at a x).
Proof.
  intros Hx. assert (j <> x) by (intros ->; contradiction).
  pose proof (Hr x Hx) as Hrx.
  destruct (decide (h = x)) as [E|Hd].
  - destruct (insert_head_facts (insert_old_head x Hx E)) as (_ & _ & _ & _ & Hu).
    rewrite <- E, Hu. apply is_used_false. right. rewrite Ebp by (rewrite E; exact Hrx).
    rewrite decide_True by reflexivity. consts. lia.
  - apply is_used_ext.
    + rewrite Ebn, decide_False by assumption. reflexivity.
    + rewrite Ebp, decide_False, decide_False by assumption. reflexivity.
Qed.

Lemma insert_new_not_head : h <> j.
Proof.
  intros E. destruct insert_head_facts as (? & ? & _); [|congruence].
  rewrite E. consts. lia.
Qed.

Lemma insert_other_head k :
  0 <= k < 256 -> k <> idx -> bin_list a k <> BLOCK_ALLOCATOR_UNUSED ->
  h <> bin_list a k.
Proof.
  intros Hk Hne Hl E. destruct (bins_head a L Hbins k Hk Hl) as (Hin & Hp & _).
  destruct (insert_head_facts (insert_old_head _ Hin E)) as (_ & _ & Hp' & _).
  rewrite E, Hp in Hp'. apply head_tag_inj in Hp'; auto.
Qed.

Lemma bins_insert : bins_inv a' (j :: L).
Proof.
  pose proof Hbins as [H1 H2 H3]. pose proof insert_new_not_head as Hhj. split.
  - (* heads *)
    intros k Hk. rewrite Ebin, lookup_total_insert. case_decide as Hd.
    + subst k. intros _. split; [set_solver|].
      rewrite Ebp, Esz by assumption. dec. auto.
    + intros Hne. destruct (H1 k Hk Hne) as (Hin & Hp & Hsz).
      assert (j <> bin_list a k) by (intros E; rewrite <- E in Hin; contradiction).
      assert (h <> bin_list a k) by (apply insert_other_head; auto).
      split; [set_solver|]. rewrite Ebp, Esz by auto. dec. auto.
  - (* predecessors *)
    intros i Hi Hu. apply elem_of_cons in Hi as [->|Hi].
    + left. exists idx. split; [exact Hidx|]. rewrite Ebp, Ebin by assumption.
      rewrite lookup_total_insert_eq. dec. auto.
    + assert (j <> i) by (intros ->; contradiction).
      rewrite insert_is_used_old in Hu by assumption.
      rewrite Ebp by auto. case_decide as Hd.
      * right. split; [set_solver|]. rewrite Ebn. dec. exact Hd.
      * dec.
        destruct (H2 i Hi Hu) as [(k & Hk & Hp & Hl)|[Hin Hn]].
        -- left. exists k. split; [exact Hk|]. split; [exact Hp|].
           rewrite Ebin, lookup_total_insert_ne; [exact Hl|].
           intros <-. apply Hd. exact Hl.
        -- right. split; [set_solver|].
           assert (j <> bin_prev (block_at a i))
             by (intros E; rewrite <- E in Hin; contradiction).
           rewrite Ebn. dec. exact Hn.
  - (* successors *)
    intros i Hi Hu. apply elem_of_cons in Hi as [->|Hi].
    + rewrite Ebn. dec. intros Hh.
      destruct (insert_head_facts Hh) as (Hin & Hne & Hp & Hsz & _).
      split; [set_solver|]. rewrite Ebp, !Esz by auto. dec.
      split; [reflexivity|congruence].
    + assert (j <> i) by (intros ->; contradiction).
      rewrite insert_is_used_old in Hu by assumption.
      rewrite Ebn. dec. intros Hn.
      destruct (H3 i Hi Hu Hn) as (Hin & Hp & Hsz).
      assert (j <> bin_next (block_at a i))
        by (intros E; rewrite <- E in Hin; contradiction).
      assert (h <> bin_next (block_at a i)).
      { intros E.
        destruct (insert_head_facts (insert_old_head _ Hin E)) as (_ & _ & Hp' & _).
        rewrite E, Hp in Hp'. specialize (Hr i Hi).
        destruct (head_tag_not_slot idx Hidx) as [Hc _]. apply Hc.
        rewrite <- Hp'. exact Hr. }
      split; [set_solver|]. rewrite Ebp, !Esz by auto. dec. auto.
Qed.
End BinsInsert.

(** A free block has a predecessor or a head tag in [bin_prev]. *)
Lemma free_bin_prev a L i :
  bins_inv a L -> (forall i, i ∈ L -> 0 <= i < BLOCK_ALLOCATOR_MAX_ALLOCS) ->
  i ∈ L -> block_allocator_is_used (block_at a i) = false ->
  bin_prev (block_at a i) <> BLOCK_ALLOCATOR_UNUSED.
Proof.
  intros Hb Hr Hi Hu. destruct (bins_prev a L Hb i Hi Hu) as [(k & Hk & -> & _)|[Hin _]].
  - apply head_tag_not_slot, Hk.
  - specialize (Hr _ Hin). consts. lia.
Qed.

(** Unlinking the free block [p] from its bin, as [block_allocator_remove]
    and the pop of [block_allocator_alloc] do. *)
Section BinsUnlink.
Variables a a' : block_allocator_t.
Variables L L' : list Z.
Variable p : Z.
Hypothesis Hbins : bins_inv a L.
Hypothesis Hr : forall i, i ∈ L -> 0 <= i < BLOCK_ALLOCATOR_MAX_ALLOCS.
Hypothesis Hp : p ∈ L.
Hypothesis Hfree : block_allocator_is_used (block_at a p) = false.
Hypothesis HL' : forall x, x ∈ L' <-> x ∈ L /\ x <> p.
Let P := bin_prev (block_at a p).
Let N := bin_next (block_at a p).
Let is_head := negb (Z.land P BLOCK_ALLOCATOR_HEAD_BITS =? 0).
Hypothesis Ebin : bin_lists a' =
  if is_head then <[Z.land P BLOCK_ALLOCATOR_HEAD_MASK := N]> (bin_lists a)
  else bin_lists a.
Hypothesis Ebp : forall x, 0 <= x < BLOCK_ALLOCATOR_MAX_ALLOCS -> x <> p ->
  bin_prev (block_at a' x) = if decide (N = x) then P else bin_prev (block_at a x).
Hypothesis Ebn : forall x, 0 <= x < BLOCK_ALLOCATOR_MAX_ALLOCS -> x <> p ->
  bin_next (block_at a' x) =
  if is_head then bin_next (block_at a x)
  else if decide (P = x) then N else bin_next (block_at a x).
Hypothesis Esz : forall x, x <> p -> size (block_at a' x) = size (block_at a x).

Let kP := Z.land P BLOCK_ALLOCATOR_HEAD_MASK.

Lemma unlink_cases :
  (is_head = true /\ 0 <= kP < 256 /\
     P = Z.lor BLOCK_ALLOCATOR_HEAD_BITS kP /\ bin_list a kP = p /\
     bin_of (size (block_at a p)) = kP) \/
  (is_head = false /\ P ∈ L /\ bin_next (block_at a P) = p).
Proof.
  destruct (bins_prev a L Hbins p Hp Hfree) as [(k & Hk & HP & Hl)|[Hin Hn]].
  - left. fold P in HP. destruct (head_tag_spec k Hk) as (_ & Hh & Hm & _).
    rewrite <- HP in Hh, Hm. fold kP in Hm. rewrite Hm. split.
    + unfold is_head. apply negb_true_iff, Z.eqb_neq. exact Hh.
    + repeat split; auto; try lia.
      assert (Hne : bin_list a k <> BLOCK_ALLOCATOR_UNUSED)
        by (rewrite Hl; specialize (Hr p Hp); consts; lia).
      destruct (bins_head a L Hbins k Hk Hne) as (_ & _ & Hs).
      rewrite Hl in Hs. exact Hs.
  - right. fold P in Hin, Hn. split; [|auto].
    unfold is_head. apply negb_false_iff, Z.eqb_eq, slot_no_head. auto.
Qed.

Lemma unlink_next :
  N <> BLOCK_ALLOCATOR_UNUSED ->
  N ∈ L /\ bin_prev (block_at a N) = p /\
  bin_of (size (block_at a N)) = bin_of (size (block_at a p)).
Proof. intros Hn. apply (bins_next a L Hbins p Hp Hfree Hn). Qed.

Lemma unlink_next_slot x : x ∈ L -> N = x -> N <> BLOCK_ALLOCATOR_UNUSED.
Proof. intros Hx ->. specialize (Hr x Hx). consts. lia. Qed.

Lemma unlink_prev_ne : P <> BLOCK_ALLOCATOR_UNUSED.
Proof. apply (free_bin_prev a L p Hbins Hr Hp Hfree). Qed.

Lemma unlink_is_used x :
  x ∈ L -> x <> p ->
  block_allocator_is_used (block_at a' x) = block_allocator_is_used (block_at a x).
Proof.
  intros Hx Hne. pose proof (Hr x Hx) as Hrx.
  destruct (decide (N = x)) as [EN|NN].
  - destruct (unlink_next (unlink_next_slot x Hx EN)) as (_ & Hbp & _).
    rewrite EN in Hbp.
    assert (Hu : block_allocator_is_used (block_at a x) = false)
      by (eapply linked_not_used_prev; [|exact Hbp]; auto).
    rewrite Hu. apply is_used_false. right. rewrite Ebp by assumption. dec.
    apply unlink_prev_ne.
  - destruct unlink_cases as [[Hh _]|(Hh & HPin & HPn)].
    + apply is_used_ext.
      * rewrite Ebn, Hh by assumption. reflexivity.
      * rewrite Ebp by assumption. dec. reflexivity.
    + destruct (decide (P = x)) as [EP|NP].
      * rewrite EP in HPn.
        assert (Hu : block_allocator_is_used (block_at a x) = false)
          by (eapply linked_not_used_next; [|exact HPn]; auto).
        rewrite Hu. apply is_used_false. right. rewrite Ebp by assumption. dec.
        apply (free_bin_prev a L x Hbins Hr Hx Hu).
      * apply is_used_ext.
        -- rewrite Ebn, Hh by assumption. dec. reflexivity.
        -- rewrite Ebp by assumption. dec. reflexivity.
Qed.

Lemma tag_not_slot k x :
  0 <= k < 256 -> 0 <= x < BLOCK_ALLOCATOR_MAX_ALLOCS ->
  x <> Z.lor BLOCK_ALLOCATOR_HEAD_BITS k.
Proof.
  intros Hk Hx E. destruct (head_tag_not_slot k Hk) as [Hc _]. apply Hc.
  rewrite <- E. exact Hx.
Qed.

Lemma bins_unlink : bins_inv a' L'.
Proof.
  pose proof Hbins as [H1 H2 H3]. pose proof (Hr p Hp) as Hrp. split.
  - (* heads *)
    intros k Hk Hne.
    assert (Hcase : (is_head = true /\ kP = k /\ bin_list a' k = N) \/
                    (bin_list a' k = bin_list a k /\ (is_head = true -> kP <> k))).
    { rewrite Ebin. fold kP. destruct is_head; [|right; split; [auto|discriminate]].
      rewrite lookup_total_insert. case_decide; auto. }
    destruct Hcase as [(Hh & Hm & El)|[El Hk2]]; rewrite El in Hne |- *.
    + destruct (unlink_next Hne) as (HNin & HNp & HNs).
      destruct unlink_cases as [(_ & Hk' & HP & Hl & Hs)|[Hh' _]];
        [|congruence].
      rewrite Hm in *.
      assert (N <> p).
      { intros E. rewrite E in HNp. fold P in HNp.
        apply (tag_not_slot k p Hk Hrp). congruence. }
      split; [apply HL'; auto|]. rewrite Ebp, Esz by auto. dec.
      split; [exact HP|congruence].
    + destruct (H1 k Hk Hne) as (Hin & Hbp & Hs).
      assert (bin_list a k <> p).
      { intros E. rewrite E in Hbp. fold P in Hbp.
        destruct unlink_cases as [(Hh & Hk' & HP & Hl & _)|[Hh HPin]].
        - rewrite HP in Hbp. apply head_tag_inj in Hbp; auto.
          exact (Hk2 Hh Hbp).
        - apply (tag_not_slot k P Hk); [apply Hr; tauto|exact Hbp]. }
      assert (N <> bin_list a k).
      { intros E. destruct (unlink_next (unlink_next_slot _ Hin E)) as (_ & HNp & _).
        rewrite E, Hbp in HNp. apply (tag_not_slot k p Hk Hrp). congruence. }
      split; [apply HL'; auto|]. rewrite Ebp, Esz by auto. dec. auto.
  - (* predecessors *)
    intros i Hi. apply HL' in Hi as [Hi Hne]. pose proof (Hr i Hi) as Hri.
    rewrite unlink_is_used by assumption. intros Hu.
    rewrite Ebp by assumption.
    destruct (decide (N = i)) as [EN|NN].
    + destruct unlink_cases as [(Hh & Hk & HP & Hl & _)|(Hh & HPin & HPn)].
      * left. exists kP. repeat split; auto; try lia.
        rewrite Ebin, Hh. fold kP. rewrite lookup_total_insert_eq. exact EN.
      * right. assert (P <> p).
        { intros E. rewrite E in HPn. fold N in HPn. congruence. }
        split; [apply HL'; auto|]. rewrite Ebn, Hh by auto. dec. exact EN.
    + destruct (H2 i Hi Hu) as [(k & Hk & Hbp & Hl)|[Hin Hn]].
      * left. exists k. repeat split; auto; try lia. rewrite Ebin.
        destruct is_head eqn:Hh; [|exact Hl].
        rewrite lookup_total_insert_ne; [exact Hl|]. fold kP.
        intros Hm. destruct unlink_cases as [(_ & Hk' & HP & Hl' & _)|[? _]];
          congruence.
      * right. set (Q := bin_prev (block_at a i)) in *.
        assert (Q <> p) by (intros E; rewrite E in Hn; fold N in Hn; congruence).
        split; [apply HL'; auto|]. rewrite Ebn by auto.
        destruct unlink_cases as [[-> _]|(-> & HPin & HPn)]; [exact Hn|].
        assert (P <> Q) by (intros E; rewrite E in HPn; congruence).
        dec. exact Hn.
  - (* successors *)
    intros i Hi. apply HL' in Hi as [Hi Hne]. pose proof (Hr i Hi) as Hri.
    rewrite unlink_is_used by assumption. intros Hu.
    assert (Hcase : (is_head = false /\ P = i /\ bin_next (block_at a' i) = N) \/
                    (bin_next (block_at a' i) = bin_next (block_at a i) /\
                     (is_head = false -> P <> i))).
    { rewrite Ebn by assumption. destruct is_head; [right; split; [auto|discriminate]|].
      case_decide; auto. }
    destruct Hcase as [(Hh & EP & El)|[El HPi]]; rewrite El; intros Hn.
    + destruct (unlink_next Hn) as (HNin & HNp & HNs).
      destruct unlink_cases as [[? _]|(_ & HPin & HPn)]; [congruence|].
      assert (N <> p).
      { intros E. rewrite E in HNp. fold P in HNp. congruence. }
      split; [apply HL'; auto|]. rewrite Ebp, !Esz by auto. dec.
      split; [exact EP|].
      rewrite HNs. rewrite EP in HPn.
      assert (Hui : block_allocator_is_used (block_at a i) = false)
        by (eapply linked_not_used_next; [|exact HPn]; auto).
      assert (Hni : bin_next (block_at a i) <> BLOCK_ALLOCATOR_UNUSED)
        by (rewrite HPn; consts; lia).
      destruct (H3 i Hi Hui Hni) as (_ & _ & Hs). rewrite HPn in Hs. exact Hs.
    + destruct (H3 i Hi Hu Hn) as (Hin & Hbp & Hs).
      set (M := bin_next (block_at a i)) in *.
      assert (M <> p).
      { intros E. rewrite E in Hbp. fold P in Hbp.
        destruct unlink_cases as [(_ & Hk & HP & _)|(Hh & HPin & HPn)].
        - apply (tag_not_slot kP i Hk Hri). congruence.
        - apply HPi; assumption. }
      assert (N <> M).
      { intros E. destruct (unlink_next (unlink_next_slot _ Hin E)) as (_ & HNp & _).
        rewrite E, Hbp in HNp. congruence. }
      split; [apply HL'; auto|]. rewrite Ebp, !Esz by auto. dec. auto.
Qed.
End BinsUnlink.

(** ** The helpers have the stated effects *)

Ltac settle :=
  repeat case_decide; try reflexivity; try congruence;
  try (exfalso; consts; lia).

Lemma insert_spec a o s mp mn :
  free_offset a <> BLOCK_ALLOCATOR_MAX_ALLOCS -> 0 <= s < 2 ^ 32 ->
  exists a', block_allocator_insert a o s mp mn = (BLOCK_ALLOCATOR_SUCCESS, a') /\
             insert_effect a a' o s mp mn.
Proof.
  intros Hfo Hs. unfold block_allocator_insert.
  apply Z.eqb_neq in Hfo. rewrite Hfo.
  destruct (size_to_bin_index_spec s Hs) as (t & b & E & Ht & Hb).
  assert (Ebin : bin_of s = 8 * t + b) by (unfold bin_of; rewrite E; reflexivity).
  rewrite E. cbv zeta. rwg. rewrite <- Ebin.
  set (j := free_block a (free_offset a)).
  set (h := bin_list a (bin_of s)).
  eexists. split; [reflexivity|].
  split.
  - destruct (h =? _), (mp =? _), (mn =? _), (o =? 0); rwg; reflexivity.
  - destruct (h =? _), (mp =? _), (mn =? _), (o =? 0); rwg; reflexivity.
  - exists t, b. split; [exact Ebin|]. split; [lia|]. split; [lia|].
    split; destruct (h =? _), (mp =? _), (mn =? _), (o =? 0); rwg; reflexivity.
  - destruct (h =? _), (mp =? _), (mn =? _), (o =? 0); rwg; reflexivity.
  - destruct (h =? _), (mp =? _), (mn =? _), (o =? 0) eqn:Eo; rwg; reflexivity.
  - intros x Hx.
    destruct (Z.eqb_spec h BLOCK_ALLOCATOR_UNUSED), (mp =? _), (mn =? _), (o =? 0);
      rwg; cbn [bin_prev]; settle.
  - intros x.
    destruct (h =? _), (mp =? _), (mn =? _), (o =? 0); rwg; cbn [bin_next]; settle.
  - intros x.
    destruct (h =? _), (mp =? _), (mn =? _), (o =? 0); rwg; cbn [size]; settle.
  - intros x.
    destruct (h =? _), (mp =? _), (mn =? _), (o =? 0); rwg; cbn [offset]; settle.
  - intros x Hx.
    destruct (h =? _), (Z.eqb_spec mp BLOCK_ALLOCATOR_UNUSED), (mn =? _), (o =? 0);
      rwg; cbn [mem_next]; settle.
  - intros x Hx.
    destruct (h =? _), (mp =? _), (Z.eqb_spec mn BLOCK_ALLOCATOR_UNUSED), (o =? 0);
      rwg; cbn [mem_prev]; settle.
Qed.

Lemma insert_full a o s mp mn :
  free_offset a = BLOCK_ALLOCATOR_MAX_ALLOCS ->
  block_allocator_insert a o s mp mn = (BLOCK_ALLOCATOR_OUT_OF_MEMORY, a).
Proof.
  intros E. unfold block_allocator_insert. rewrite E, Z.eqb_refl. reflexivity.
Qed.

Lemma clear_bin_bits_ext t b a1 a2 :
  top_bins a1 = top_bins a2 -> bottom_bins a1 = bottom_bins a2 ->
  top_bins (clear_bin_bits t b a1) = top_bins (clear_bin_bits t b a2) /\
  bottom_bins (clear_bin_bits t b a1) = bottom_bins (clear_bin_bits t b a2).
Proof.
  intros E1 E2. rewrite !clear_bin_bits_top, !clear_bin_bits_bottom, E1, E2. auto.
Qed.

Lemma clear_bin_bits_block t b a x : block_at (clear_bin_bits t b a) x = block_at a x.
Proof. destruct (clear_bin_bits_frame t b a) as (_ & -> & _). reflexivity. Qed.

Lemma remove_spec a p :
  unlink_effect a (block_allocator_remove a p) p /\
  free_offset (block_allocator_remove a p) = u32 (free_offset a - 1) /\
  free_blocks (block_allocator_remove a p) = <[u32 (free_offset a - 1) := p]> (free_blocks a).
Proof.
  unfold block_allocator_remove. cbv zeta.
  set (P := bin_prev (block_at a p)). set (N := bin_next (block_at a p)).
  destruct (Z.land P BLOCK_ALLOCATOR_HEAD_BITS =? 0) eqn:Eh; cbn [negb].
  - (* a predecessor in the bin list *)
    split; [split|]; fold P N; rewrite ?Eh; cbn [negb andb]; cbv zeta.
    + destruct (N =? _); rwg; reflexivity.
    + destruct (N =? _); rwg; auto.
    + intros x Hx Hne. destruct (Z.eqb_spec N BLOCK_ALLOCATOR_UNUSED); rwg; settle.
    + intros x Hx Hne. destruct (N =? _); rwg; settle.
    + intros x. destruct (N =? _); rwg; reflexivity.
    + intros x. destruct (N =? _); rwg; reflexivity.
    + intros x. destruct (N =? _); rwg; reflexivity.
    + intros x. destruct (N =? _); rwg; reflexivity.
    + destruct (N =? _); rwg; reflexivity.
    + destruct (N =? _); rwg; auto.
  - (* the head of its bin *)
    set (k := Z.land P BLOCK_ALLOCATOR_HEAD_MASK).
    destruct (Z.eqb_spec N BLOCK_ALLOCATOR_UNUSED) as [HN|HN]; cbn [negb andb].
    + destruct (clear_bin_bits_frame (Z.shiftr k 3) (Z.land k 7)
                  (set_bin_list k N (release_slot p a))) as (F1 & F2 & F3 & F4 & F5).
      apply Z.eqb_eq in HN as HN'.
      split; [split|]; fold P N k; rewrite ?Eh, ?HN'; cbn [negb andb]; cbv zeta.
      * rewrite F1. rwg. reflexivity.
      * apply clear_bin_bits_ext; rwg; reflexivity.
      * intros x Hx Hne. rewrite F2. rwg. settle.
      * intros x Hx Hne. rewrite F2. rwg. reflexivity.
      * intros x. rewrite F2. rwg. reflexivity.
      * intros x. rewrite F2. rwg. reflexivity.
      * intros x. rewrite F2. rwg. reflexivity.
      * intros x. rewrite F2. rwg. reflexivity.
      * rewrite F3. rwg. reflexivity.
      * rewrite F4, F5. rwg. auto.
    + apply Z.eqb_neq in HN as HN'.
      split; [split|]; fold P N k; rewrite ?Eh, ?HN'; cbn [negb andb]; cbv zeta;
        rwg; auto; intros x; intros; rwg; settle.
Qed.

Lemma pop_spec a t b :
  0 <= t < 32 -> 0 <= b < 8 ->
  let k := 8 * t + b in
  let h := bin_list a k in
  bin_prev (block_at a h) = Z.lor BLOCK_ALLOCATOR_HEAD_BITS k ->
  fst (alloc_pop a t b) = h /\
  unlink_effect a (snd (alloc_pop a t b)) h /\
  bin_prev (block_at (snd (alloc_pop a t b)) h) = BLOCK_ALLOCATOR_UNUSED /\
  bin_next (block_at (snd (alloc_pop a t b)) h) = BLOCK_ALLOCATOR_UNUSED /\
  free_offset (snd (alloc_pop a t b)) = free_offset a /\
  free_blocks (snd (alloc_pop a t b)) = free_blocks a.
Proof.
  intros Ht Hb k h HP.
  assert (Hk : 0 <= k < 256) by (unfold k; lia).
  destruct (head_tag_spec k Hk) as (_ & Hh & Hm & Ek & Htk & Hbk).
  assert (Etk : Z.shiftr k 3 = t) by (unfold k in *; lia).
  assert (Ebk : Z.land k 7 = b) by (unfold k in *; lia).
  unfold alloc_pop. rewrite lor_shiftl3 by assumption. fold k. fold h. cbv zeta.
  cbn [fst snd]. rwg. set (N := bin_next (block_at a h)).
  rewrite <- HP in Hh, Hm. apply Z.eqb_neq in Hh.
  split; [reflexivity|].
  destruct (Z.eqb_spec N BLOCK_ALLOCATOR_UNUSED) as [HN|HN]; cbn [negb].
  - destruct (clear_bin_bits_frame t b (set_bin_list k N a)) as (F1 & F2 & F3 & F4 & F5).
    apply Z.eqb_eq in HN as HN'.
    split; [split|]; cbv zeta; rewrite ?Hh, ?Hm, ?Etk, ?Ebk; fold N;
      rewrite ?HN'; cbn [negb andb].
    + rwg. rewrite F1. rwg. reflexivity.
    + rwg. apply clear_bin_bits_ext; rwg; reflexivity.
    + intros x Hx Hne. rwg. rewrite F2. rwg. settle.
    + intros x Hx Hne. rwg. rewrite F2. rwg. settle.
    + intros x. rwg. rewrite F2. rwg. reflexivity.
    + intros x. rwg. rewrite F2. rwg. reflexivity.
    + intros x. rwg. rewrite F2. rwg. reflexivity.
    + intros x. rwg. rewrite F2. rwg. reflexivity.
    + rwg. rewrite F3. rwg. reflexivity.
    + rwg. rewrite F4, F5. rwg. dec. auto.
  - apply Z.eqb_neq in HN as HN'.
    split; [split|]; cbv zeta; rewrite ?Hh, ?Hm, ?Etk, ?Ebk; fold N;
      rewrite ?HN'; cbn [negb andb].
    + rwg. reflexivity.
    + rwg. auto.
    + intros x Hx Hne. rwg. rewrite HP. settle.
    + intros x Hx Hne. rwg. settle.
    + intros x. rwg. reflexivity.
    + intros x. rwg. reflexivity.
    + intros x. rwg. reflexivity.
    + intros x. rwg. reflexivity.
    + rwg. reflexivity.
    + rwg. dec. auto.
Qed.

(** ** The pool, bitmaps and bin lists through the helpers *)

Lemma core_range a L : core_inv a L -> forall i, i ∈ L -> 0 <= i < BLOCK_ALLOCATOR_MAX_ALLOCS.
Proof. intros (Hp & _) i Hi. apply (pool_live a L Hp i Hi). Qed.

Lemma core_intro a L :
  pool_inv a L -> bitmaps_in_range a -> bitmaps_consistent a -> bins_inv a L ->
  core_inv a L.
Proof. unfold core_inv. auto. Qed.

Lemma core_perm a L L' : core_inv a L -> L ≡ₚ L' -> core_inv a L'.
Proof.
  intros (H1 & H2 & H3 & H4) HP. apply core_intro; auto.
  - eapply pool_inv_perm; eassumption.
  - eapply bins_inv_perm; eassumption.
Qed.

Lemma core_insert a a' L o s mp mn :
  core_inv a L -> free_offset a <> BLOCK_ALLOCATOR_MAX_ALLOCS -> 0 <= s < 2 ^ 32 ->
  insert_effect a a' o s mp mn ->
  let j := free_block a (free_offset a) in
  0 <= j < BLOCK_ALLOCATOR_MAX_ALLOCS /\ (j ∉ L) /\ core_inv a' (j :: L) /\
  block_allocator_is_used (block_at a' j) = false /\
  (forall x, x ∈ L ->
     block_allocator_is_used (block_at a' x) = block_allocator_is_used (block_at a x)).
Proof.
  intros Hcore Hfo Hs He j. pose proof (core_range a L Hcore) as Hr.
  destruct Hcore as (Hpool & Hbr & Hbc & Hbins).
  destruct He as [Efo Efb (t & b & Eb & Ht & Hb & Etop & Ebot) Ebin Ehd Ebp Ebn Esz Eoff Emn Emp].
  destruct (pool_acquire a a' L Hpool Hfo Efo Efb) as (Hj & Hnj & Hpool').
  fold j in Hj, Hnj, Hpool'.
  assert (Hidx : 0 <= bin_of s < 256) by (pose proof (bin_of_range s Hs); lia).
  assert (Hju : j <> BLOCK_ALLOCATOR_UNUSED) by (consts; lia).
  rewrite Eb in Ebin.
  destruct (bitmaps_set a a' Hbr Hbc t b Ht Hb j Hju Etop Ebot Ebin) as [Hbr' Hbc'].
  rewrite <- Eb in Ebin.
  split; [exact Hj|]. split; [exact Hnj|]. split; [|split].
  - apply core_intro; try assumption.
    eapply (bins_insert a a' L j (bin_of s) s); eauto.
  - eapply (insert_is_used_new a a' j (bin_of s)); eauto.
  - intros x Hx. eapply (insert_is_used_old a a' L j (bin_of s) s); eauto.
Qed.

Lemma core_release a l1 i l2 :
  core_inv a (l1 ++ i :: l2) ->
  block_allocator_is_used (block_at a i) = true ->
  free_offset (release_slot i a) = free_offset a - 1 /\
  core_inv (release_slot i a) (l1 ++ l2).
Proof.
  intros Hcore Hu. pose proof (core_range a _ Hcore) as Hr.
  destruct Hcore as (Hpool & Hbr & Hbc & Hbins).
  destruct (pool_release a (release_slot i a) _ Hpool l1 i l2 eq_refl) as [Efo Hpool'];
    [rwg; reflexivity|rwg; reflexivity|].
  split; [exact Efo|].
  destruct (bitmaps_frame a (release_slot i a) Hbr Hbc) as [Hbr' Hbc']; try (rwg; reflexivity).
  apply core_intro; try assumption.
  apply (bins_frame a); try (intros; rwg; reflexivity).
  - apply (bins_inv_used a (l1 ++ i :: l2)); auto.
    + intros x Hx Hxu. assert (x <> i) by congruence. set_solver.
    + intros x Hx _. set_solver.
  - intros x Hx. apply Hr. set_solver.
Qed.

Lemma unlink_bitmaps a a' L p :
  core_inv a L -> p ∈ L -> block_allocator_is_used (block_at a p) = false ->
  unlink_effect a a' p ->
  bitmaps_in_range a' /\ bitmaps_consistent a'.
Proof.
  intros Hcore Hp Hfree He. pose proof (core_range a L Hcore) as Hr.
  destruct Hcore as (Hpool & Hbr & Hbc & Hbins).
  destruct He as [Ebin Ebits _ _ _ _ _ _ _]. cbv zeta in Ebits.
  set (P := bin_prev (block_at a p)) in *. set (N := bin_next (block_at a p)) in *.
  set (k := Z.land P BLOCK_ALLOCATOR_HEAD_MASK) in *.
  destruct (unlink_cases a L p Hbins Hr Hp Hfree)
    as [(Hh & Hk & HP & Hl & _)|(Hh & _)];
    fold P in Hh; rewrite Hh in Ebin, Ebits; cbn [negb andb] in *.
  - fold P in Hk, HP, Hl. fold k in Hk, HP, Hl. destruct (head_tag_spec k Hk) as (_ & _ & _ & Ek & Htk & Hbk).
    destruct (Z.eqb_spec N BLOCK_ALLOCATOR_UNUSED) as [HN|HN].
    + destruct Ebits as [Etop Ebot]. rewrite HN, <- Ek in Ebin.
      apply (bitmaps_clear a a' Hbr Hbc _ _ Htk Hbk Etop Ebot Ebin).
    + destruct Ebits as [Etop Ebot].
      apply (bitmaps_relink a a' Hbr Hbc k N HN); auto.
      rewrite Hl. specialize (Hr p Hp). consts. lia.
  - destruct Ebits as [Etop Ebot]. apply (bitmaps_frame a a' Hbr Hbc); auto.
Qed.

Lemma core_remove a l1 p l2 :
  core_inv a (l1 ++ p :: l2) ->
  block_allocator_is_used (block_at a p) = false ->
  free_offset (block_allocator_remove a p) = free_offset a - 1 /\
  core_inv (block_allocator_remove a p) (l1 ++ l2) /\
  (forall x, x ∈ l1 ++ l2 ->
     block_allocator_is_used (block_at (block_allocator_remove a p) x) =
     block_allocator_is_used (block_at a x)).
Proof.
  intros Hcore Hfree. pose proof (core_range a _ Hcore) as Hr.
  destruct (remove_spec a p) as (He & Efo & Efb).
  assert (Hp : p ∈ l1 ++ p :: l2) by set_solver.
  destruct (unlink_bitmaps a _ _ p Hcore Hp Hfree He) as [Hbr' Hbc'].
  destruct Hcore as (Hpool & Hbr & Hbc & Hbins).
  destruct (pool_release a _ _ Hpool l1 p l2 eq_refl Efo Efb) as [Efo' Hpool'].
  assert (Hnd : NoDup (l1 ++ p :: l2)) by apply (pool_nodup a _ Hpool).
  assert (HL' : forall x, x ∈ l1 ++ l2 <-> x ∈ l1 ++ p :: l2 /\ x <> p).
  { apply NoDup_app in Hnd as (_ & Hd & Hd2). apply NoDup_cons in Hd2 as [Hd2 _].
    intros x. split; [|set_solver]. intros Hx. split; [set_solver|].
    intros ->. apply elem_of_app in Hx as [Hx|Hx]; [apply (Hd p Hx)|]; set_solver. }
  destruct He as [Ebin Ebits Ebp Ebn Esz Eoff Emp Emn Ehd].
  split; [exact Efo'|]. split.
  - apply core_intro; try assumption.
    apply (bins_unlink a _ (l1 ++ p :: l2) (l1 ++ l2) p); auto.
  - intros x Hx. apply HL' in Hx as [Hx Hne].
    apply (unlink_is_used a _ (l1 ++ p :: l2) p); auto.
Qed.

Lemma same_layout_refl a : same_layout a a.
Proof. split; auto. Qed.

Lemma same_layout_trans a1 a2 a3 :
  same_layout a1 a2 -> same_layout a2 a3 -> same_layout a1 a3.
Proof.
  intros [H1 H2] [H3 H4]. split; [congruence|].
  intros x. destruct (H2 x) as (? & ? & ? & ?), (H4 x) as (? & ? & ? & ?).
  repeat split; congruence.
Qed.

Lemma unlink_layout a a' p : unlink_effect a a' p -> same_layout a a'.
Proof. intros [_ _ _ _ Esz Eoff Emp Emn Ehd]. split; auto. Qed.

Lemma release_layout a i : same_layout a (release_slot i a).
Proof. split; [rwg; reflexivity|]. intros x. rwg. auto. Qed.

Lemma split_without l1 (p : Z) l2 :
  NoDup (l1 ++ p :: l2) -> forall x, x ∈ l1 ++ l2 <-> x ∈ l1 ++ p :: l2 /\ x <> p.
Proof.
  intros Hnd. apply NoDup_app in Hnd as (_ & Hd & Hd2). apply NoDup_cons in Hd2 as [Hd2 _].
  intros x. split; [|set_solver]. intros Hx. split; [set_solver|].
  intros ->. apply elem_of_app in Hx as [Hx|Hx]; [apply (Hd p Hx)|]; set_solver.
Qed.

(** Lines 186-197 of [block_allocator_alloc]. *)
Lemma core_pop a L t b :
  core_inv a L -> 0 <= t < 32 -> 0 <= b < 8 ->
  bin_list a (8 * t + b) <> BLOCK_ALLOCATOR_UNUSED ->
  let h := bin_list a (8 * t + b) in
  let a' := snd (alloc_pop a t b) in
  fst (alloc_pop a t b) = h /\ h ∈ L /\
  block_allocator_is_used (block_at a h) = false /\
  bin_of (size (block_at a h)) = 8 * t + b /\
  core_inv a' L /\
  block_allocator_is_used (block_at a' h) = true /\
  (forall x, x ∈ L -> x <> h ->
     block_allocator_is_used (block_at a' x) = block_allocator_is_used (block_at a x)) /\
  same_layout a a' /\ free_offset a' = free_offset a.
Proof.
  intros Hcore Ht Hb Hne h a'. pose proof (core_range a L Hcore) as Hr.
  assert (Hk : 0 <= 8 * t + b < 256) by lia.
  pose proof Hcore as (Hpool & Hbr & Hbc & Hbins).
  destruct (bins_head a L Hbins _ Hk Hne) as (Hin & HP & Hs). fold h in Hin, HP, Hs.
  destruct (pop_spec a t b Ht Hb HP) as (E1 & He & Ebp & Ebn & Efo & Efb).
  fold h a' in E1, He, Ebp, Ebn, Efo, Efb.
  assert (Hfree : block_allocator_is_used (block_at a h) = false)
    by (eapply tagged_not_used; eassumption).
  assert (Hused : block_allocator_is_used (block_at a' h) = true)
    by (apply is_used_true; auto).
  destruct (unlink_bitmaps a a' L h Hcore Hin Hfree He) as [Hbr' Hbc'].
  destruct (list_elem_of_split L h Hin) as (l1 & l2 & EL).
  assert (Hnd : NoDup (l1 ++ h :: l2)) by (rewrite <- EL; apply (pool_nodup a L Hpool)).
  pose proof (split_without l1 h l2 Hnd) as HL'. rewrite <- EL in HL'.
  pose proof (unlink_layout a a' h He) as Hlay.
  destruct He as [Ebin Ebits Ebp' Ebn' Esz Eoff Emp Emn Ehd].
  assert (Hbins' : bins_inv a' (l1 ++ l2))
    by (apply (bins_unlink a a' L (l1 ++ l2) h); auto).
  split; [exact E1|]. split; [exact Hin|]. split; [exact Hfree|]. split; [exact Hs|].
  split; [|split; [exact Hused|split; [|split; [exact Hlay|exact Efo]]]].
  - apply core_intro; try assumption.
    + apply (pool_frame a a' L Hpool Efo Efb).
    + apply (bins_inv_used a' (l1 ++ l2)); auto.
      * intros x Hx _. apply HL' in Hx. tauto.
      * intros x Hx Hxu. apply HL'. split; [exact Hx|]. congruence.
      * intros x Hx. apply Hr. apply HL' in Hx. tauto.
  - intros x Hx Hxne. apply (unlink_is_used a a' L h); auto.
Qed.

(** ** The spatial chain *)

Lemma head_app_default (n : Z) l1 l2 :
  default n (head (l1 ++ l2)) = default (default n (head l2)) (head l1).
Proof. destruct l1; reflexivity. Qed.

Lemma last_cons_default (p x : Z) l :
  default p (last (x :: l)) = default x (last l).
Proof. rewrite last_cons. destruct (last l); reflexivity. Qed.

Lemma chain_seg_app a prev l1 l2 nxt :
  chain_seg a prev (l1 ++ l2) nxt <->
  chain_seg a prev l1 (default nxt (head l2)) /\
  chain_seg a (default prev (last l1)) l2 nxt.
Proof.
  revert prev. induction l1 as [|x l1 IH]; intros prev.
  - cbn. tauto.
  - cbn [app chain_seg]. rewrite IH, head_app_default, last_cons_default. tauto.
Qed.

Lemma chain_seg_frame a a' prev l nxt :
  (forall x, x ∈ l -> mem_prev (block_at a' x) = mem_prev (block_at a x) /\
                      mem_next (block_at a' x) = mem_next (block_at a x)) ->
  chain_seg a prev l nxt -> chain_seg a' prev l nxt.
Proof.
  revert prev. induction l as [|x l IH]; intros prev H; cbn [chain_seg]; [auto|].
  intros (H1 & H2 & H3). destruct (H x ltac:(set_solver)) as [-> ->].
  split; [exact H1|]. split; [exact H2|]. apply IH; [|exact H3].
  intros y Hy. apply H. set_solver.
Qed.

(** The block after the run changes. *)
Lemma chain_seg_set_next a a' z nxt' : forall l prev nxt,
  chain_seg a prev l nxt -> NoDup l -> last l = Some z ->
  (forall x, x ∈ l -> mem_prev (block_at a' x) = mem_prev (block_at a x)) ->
  (forall x, x ∈ l -> x <> z -> mem_next (block_at a' x) = mem_next (block_at a x)) ->
  mem_next (block_at a' z) = nxt' ->
  chain_seg a' prev l nxt'.
Proof.
  induction l as [|x l IH]; intros prev nxt Hseg Hnd Hlast Hp Hn Hz; [discriminate|].
  cbn [chain_seg] in *. destruct Hseg as (H1 & H2 & H3).
  apply NoDup_cons in Hnd as [Hx Hnd].
  split; [rewrite Hp by set_solver; exact H1|].
  destruct l as [|y l].
  - cbn in Hlast. injection Hlast as <-. split; [exact Hz|exact I].
  - rewrite last_cons_cons in Hlast.
    assert (z ∈ y :: l) by (apply last_Some_elem_of; exact Hlast).
    assert (x <> z) by (intros ->; contradiction).
    split; [rewrite Hn by (set_solver || assumption); exact H2|].
    apply (IH _ nxt); auto.
    + intros w Hw. apply Hp. set_solver.
    + intros w Hw. apply Hn. set_solver.
Qed.

(** The block before the run changes. *)
Lemma chain_seg_set_prev a a' prev prev' x l nxt :
  chain_seg a prev (x :: l) nxt -> NoDup (x :: l) ->
  (forall y, y ∈ x :: l -> mem_next (block_at a' y) = mem_next (block_at a y)) ->
  (forall y, y ∈ l -> mem_prev (block_at a' y) = mem_prev (block_at a y)) ->
  mem_prev (block_at a' x) = prev' ->
  chain_seg a' prev' (x :: l) nxt.
Proof.
  cbn [chain_seg]. intros (H1 & H2 & H3) Hnd Hn Hp Hx.
  split; [exact Hx|]. split; [rewrite Hn by set_solver; exact H2|].
  apply (chain_seg_frame a); [|exact H3].
  intros y Hy. split; [apply Hp; exact Hy|apply Hn; set_solver].
Qed.

Lemma no_adjacent_app a pu l1 l2 :
  no_adjacent_free a pu (l1 ++ l2) <->
  no_adjacent_free a pu l1 /\ no_adjacent_free a (last_used a pu l1) l2.
Proof.
  revert pu. induction l1 as [|x l1 IH]; intros pu.
  - unfold last_used. cbn. tauto.
  - cbn [app no_adjacent_free]. rewrite IH. unfold last_used. rewrite last_cons.
    destruct (last l1); tauto.
Qed.

Lemma no_adjacent_mono a a' pu pu' l :
  (forall x, x ∈ l -> block_allocator_is_used (block_at a x) = true ->
             block_allocator_is_used (block_at a' x) = true) ->
  (pu = true -> pu' = true) ->
  no_adjacent_free a pu l -> no_adjacent_free a' pu' l.
Proof.
  revert pu pu'. induction l as [|x l IH]; intros pu pu' H Hpu; cbn [no_adjacent_free];
    [auto|].
  intros [H1 H2]. pose proof (H x ltac:(set_solver)) as Hx. split.
  - apply orb_true_iff in H1 as [H1|H1]; apply orb_true_iff; auto.
  - apply (IH (block_allocator_is_used (block_at a x))); auto.
    intros y Hy. apply H. set_solver.
Qed.

Lemma no_adjacent_frame a a' pu l :
  (forall x, x ∈ l -> block_allocator_is_used (block_at a' x) =
                      block_allocator_is_used (block_at a x)) ->
  no_adjacent_free a pu l -> no_adjacent_free a' pu l.
Proof.
  intros H. apply no_adjacent_mono; [|auto]. intros x Hx. rewrite H by exact Hx. auto.
Qed.

Lemma no_adjacent_false a l :
  no_adjacent_free a false l <->
  no_adjacent_free a true l /\
  (forall x, head l = Some x -> block_allocator_is_used (block_at a x) = true).
Proof.
  destruct l as [|x l]; cbn [no_adjacent_free head]; [split; [intros _; split; [exact I|discriminate]|auto]|].
  cbn [orb]. split.
  - intros [H1 H2]. repeat split; auto. intros y [= <-]. exact H1.
  - intros [[_ H2] H]. split; auto.
Qed.

Lemma last_used_frame a a' pu l :
  (forall x, x ∈ l -> block_allocator_is_used (block_at a' x) =
                      block_allocator_is_used (block_at a x)) ->
  last_used a' pu l = last_used a pu l.
Proof.
  intros H. unfold last_used. destruct (last l) as [x|] eqn:E; [|reflexivity].
  apply H. apply last_Some_elem_of. exact E.
Qed.

(** A free block [j] takes the place of the run [mid] between [A] and [C]. *)
Section Splice.
Variables a a' : block_allocator_t.
Variables A mid C : list Z.
Variables o s : Z.
Let j := free_block a (free_offset a).
Let U := BLOCK_ALLOCATOR_UNUSED.
Hypothesis Hr : forall x, x ∈ A ++ C -> 0 <= x < BLOCK_ALLOCATOR_MAX_ALLOCS.
Hypothesis Hnj : j ∉ A ++ C.

Lemma splice_last_A x : last A = Some x -> x ∈ A /\ x <> j /\ x <> U.
Proof.
  intros E. apply last_Some_elem_of in E. split; [exact E|].
  assert (x ∈ A ++ C) by set_solver. split; [intros ->; contradiction|].
  specialize (Hr x H). unfold U. consts. lia.
Qed.

Lemma splice_head_C x : head C = Some x -> x ∈ C /\ x <> j /\ x <> U.
Proof.
  intros E. destruct C as [|y C']; [discriminate|]. injection E as ->.
  assert (x ∈ x :: C') by set_solver. split; [exact H|].
  assert (x ∈ A ++ x :: C') by set_solver. split; [intros ->; contradiction|].
  specialize (Hr x H0). unfold U. consts. lia.
Qed.

Hypothesis Hseg : chain_seg a U (A ++ mid ++ C) U.
Hypothesis Hnd : NoDup (A ++ C).
Hypothesis Hj : 0 <= j < BLOCK_ALLOCATOR_MAX_ALLOCS.
Hypothesis Heff : insert_effect a a' o s (default U (last A)) (default U (head C)).
Hypothesis HadjA : no_adjacent_free a true A.
Hypothesis HlastA : last_used a true A = true.
Hypothesis HadjC : no_adjacent_free a false C.
Hypothesis Hused : forall x, x ∈ A ++ C ->
  block_allocator_is_used (block_at a' x) = block_allocator_is_used (block_at a x).
Hypothesis Hfree : block_allocator_is_used (block_at a' j) = false.
Hypothesis Hsizes : forall x, x ∈ A ++ C -> 0 <= size (block_at a x) < 2 ^ 32.
Hypothesis Hs : 0 <= s < 2 ^ 32.

Lemma splice_seg : chain_seg a' U (A ++ j :: C) U.
Proof.
  pose proof Heff as [_ _ _ _ _ _ _ _ _ Emn Emp]. fold j in Emn, Emp.
  pose proof (proj1 (chain_seg_app _ _ _ _ _) Hseg) as [HA Hrest].
  apply chain_seg_app in Hrest as [_ HC].
  pose proof (proj1 (NoDup_app _ _) Hnd) as (HndA & HAC & HndC).
  assert (HjU : j <> U) by (unfold U; consts; lia).
  apply chain_seg_app. cbn [head default from_option id chain_seg]. split; [|split; [|split]].
  - (* the blocks before *)
    destruct (last A) as [z|] eqn:Elast.
    + destruct (splice_last_A z Elast) as (Hz & Hzj & HzU).
      apply (chain_seg_set_next a a' z j A U _ HA HndA Elast).
      * intros x Hx. assert (Hx' : x ∈ A ++ C) by set_solver.
        rewrite Emp by auto. assert (j <> x) by (intros <-; contradiction).
        destruct (head C) as [c|] eqn:Ec; cbn [default from_option id].
        -- destruct (splice_head_C c Ec) as (Hc & _).
           assert (c <> x) by (intros ->; apply (HAC x Hx Hc)). dec. reflexivity.
        -- specialize (Hr x Hx'). assert (U <> x) by (unfold U; consts; lia).
           dec. reflexivity.
      * intros x Hx Hxz. assert (Hx' : x ∈ A ++ C) by set_solver.
        rewrite Emn by auto. assert (j <> x) by (intros <-; contradiction).
        cbn [default from_option id]. dec. reflexivity.
      * rewrite Emn by (apply Hr; set_solver). cbn [default from_option id]. dec. reflexivity.
    + apply last_None in Elast. rewrite Elast. exact I.
  - (* the new block *)
    rewrite Emp by exact Hj.
    destruct (head C) as [c|] eqn:Ec; cbn [default from_option id].
    + destruct (splice_head_C c Ec) as (_ & Hcj & _). dec. reflexivity.
    + dec. reflexivity.
  - rewrite Emn by exact Hj.
    destruct (last A) as [z|] eqn:Elast; cbn [default from_option id].
    + destruct (splice_last_A z Elast) as (_ & Hzj & _). dec. reflexivity.
    + dec. reflexivity.
  - (* the blocks after *)
    assert (HC' : forall x, x ∈ C ->
              mem_next (block_at a' x) = mem_next (block_at a x)).
    { intros x Hx. assert (Hx' : x ∈ A ++ C) by set_solver.
      rewrite Emn by auto. assert (j <> x) by (intros <-; contradiction).
      destruct (last A) as [z|] eqn:Elast; cbn [default from_option id].
      - destruct (splice_last_A z Elast) as (Hz & _).
        assert (z <> x) by (intros ->; apply (HAC x Hz Hx)). dec. reflexivity.
      - specialize (Hr x Hx'). assert (U <> x) by (unfold U; consts; lia).
        dec. reflexivity. }
    destruct C as [|c C'] eqn:EC; [exact I|]. rewrite <- EC in *.
    assert (Ehead : head C = Some c) by (rewrite EC; reflexivity).
    rewrite EC in HC, HndC, HC' |- *.
    apply (chain_seg_set_prev a a' _ j c C' U HC HndC HC').
    + intros y Hy. assert (Hy' : y ∈ A ++ C) by (rewrite EC; set_solver).
      rewrite Emp by auto. assert (j <> y) by (intros <-; contradiction).
      rewrite Ehead. cbn [default from_option id].
      apply NoDup_cons in HndC as [Hc _].
      assert (c <> y) by (intros ->; contradiction). dec. reflexivity.
    + rewrite Emp by (apply Hr; rewrite EC; set_solver).
      rewrite Ehead. cbn [default from_option id]. dec. reflexivity.
Qed.

Lemma splice_adjacent : no_adjacent_free a' true (A ++ j :: C).
Proof.
  apply no_adjacent_app. split.
  - apply (no_adjacent_frame a); [|exact HadjA]. intros x Hx. apply Hused. set_solver.
  - cbn [no_adjacent_free]. split.
    + rewrite (last_used_frame a a'); [rewrite HlastA; reflexivity|].
      intros x Hx. apply Hused. set_solver.
    + rewrite Hfree. apply (no_adjacent_frame a); [|exact HadjC].
      intros x Hx. apply Hused. set_solver.
Qed.

Lemma splice_chain : chain_inv a' (A ++ j :: C).
Proof.
  split.
  - exact splice_seg.
  - exact splice_adjacent.
  - intros x Hx. pose proof Heff as [_ _ _ _ _ _ _ Esz _ _ _]. fold j in Esz.
    rewrite Esz. case_decide; [exact Hs|]. apply Hsizes. set_solver.
Qed.
End Splice.

(** ** Frames *)

Lemma core_frame a a' L :
  core_inv a L ->
  free_offset a' = free_offset a -> free_blocks a' = free_blocks a ->
  top_bins a' = top_bins a -> bottom_bins a' = bottom_bins a ->
  bin_lists a' = bin_lists a ->
  (forall x, bin_prev (block_at a' x) = bin_prev (block_at a x)) ->
  (forall x, bin_next (block_at a' x) = bin_next (block_at a x)) ->
  (forall x, x ∈ L -> block_allocator_is_used (block_at a x) = false ->
             size (block_at a' x) = size (block_at a x)) ->
  core_inv a' L.
Proof.
  intros Hcore E1 E2 E3 E4 E5 E6 E7 E8. pose proof (core_range a L Hcore) as Hr.
  destruct Hcore as (Hpool & Hbr & Hbc & Hbins).
  destruct (bitmaps_frame a a' Hbr Hbc E3 E4 E5). apply core_intro; auto.
  - apply (pool_frame a a' L Hpool E1 E2).
  - apply (bins_frame a a' L); auto.
Qed.

Lemma chain_frame a a' ch :
  chain_inv a ch ->
  (forall x, x ∈ ch -> mem_prev (block_at a' x) = mem_prev (block_at a x) /\
                       mem_next (block_at a' x) = mem_next (block_at a x)) ->
  (forall x, x ∈ ch -> block_allocator_is_used (block_at a x) = true ->
                       block_allocator_is_used (block_at a' x) = true) ->
  (forall x, x ∈ ch -> 0 <= size (block_at a' x) < 2 ^ 32) ->
  chain_inv a' ch.
Proof.
  intros [H1 H2 H3] Hm Hu Hs. split; [| |exact Hs].
  - apply (chain_seg_frame a); assumption.
  - apply (no_adjacent_mono a a' true true); auto.
Qed.

Lemma handles_frame a a' ch ch' hs :
  handles_inv a ch hs ->
  (forall h, In h hs -> alloc_metadata h ∈ ch' /\
     block_allocator_is_used (block_at a' (alloc_metadata h)) = true) ->
  handles_inv a' ch' hs.
Proof.
  intros [H1 H2] H. split; [exact H1|].
  intros h Hh. destruct (H h Hh) as [? ?], (H2 h Hh) as (_ & _ & ?). auto.
Qed.

(** ** block_allocator_init establishes the invariant *)

Lemma store_loop_lookup n : forall i f (m : gmap Z Z) k,
  store_loop n i f m !!! k =
  if decide (i <= k < i + Z.of_nat n) then f k else m !!! k.
Proof.
  induction n as [|n IH]; intros i f m k.
  - cbn [store_loop]. rewrite decide_False by lia. reflexivity.
  - cbn [store_loop]. rewrite IH, lookup_total_insert.
    repeat case_decide; try lia; congruence.
Qed.

Lemma init_unfold total_size :
  block_allocator_init total_size =
  (BLOCK_ALLOCATOR_SUCCESS,
   snd (block_allocator_insert init_cleared 0 total_size
          BLOCK_ALLOCATOR_UNUSED BLOCK_ALLOCATOR_UNUSED)).
Proof.
  unfold block_allocator_init.
  destruct (block_allocator_insert _ _ _ _ _) as [r a1]. reflexivity.
Qed.

Lemma init_cleared_spec :
  top_bins init_cleared = 0 /\ free_offset init_cleared = 0 /\
  head_block init_cleared = 0 /\
  (forall t, 0 <= t < 32 -> bottom_bin init_cleared t = 0) /\
  (forall k, 0 <= k < 256 -> bin_list init_cleared k = BLOCK_ALLOCATOR_UNUSED) /\
  (forall k, 0 <= k < BLOCK_ALLOCATOR_MAX_ALLOCS -> free_block init_cleared k = k).
Proof.
  split; [reflexivity|]. split; [reflexivity|]. split; [reflexivity|].
  split; [|split]; intros k Hk.
  - change (bottom_bins init_cleared) with (store_loop 32 0 (fun _ => 0) ∅).
    rewrite store_loop_lookup. rewrite decide_True by lia. reflexivity.
  - change (bin_lists init_cleared)
      with (store_loop 256 0 (fun _ => BLOCK_ALLOCATOR_UNUSED) ∅).
    rewrite store_loop_lookup. rewrite decide_True by lia. reflexivity.
  - change (free_blocks init_cleared)
      with (store_loop (Z.to_nat BLOCK_ALLOCATOR_MAX_ALLOCS) 0 (fun i => i) ∅).
    rewrite store_loop_lookup.
    rewrite Z2Nat.id by (unfold BLOCK_ALLOCATOR_MAX_ALLOCS; lia).
    rewrite decide_True by lia. reflexivity.
Qed.

Lemma init_core a0 :
  top_bins a0 = 0 -> free_offset a0 = 0 ->
  (forall t, 0 <= t < 32 -> bottom_bin a0 t = 0) ->
  (forall k, 0 <= k < 256 -> bin_list a0 k = BLOCK_ALLOCATOR_UNUSED) ->
  (forall k, 0 <= k < BLOCK_ALLOCATOR_MAX_ALLOCS -> free_block a0 k = k) ->
  core_inv a0 [].
Proof.
  intros Etop Efo Ebot Ebin Efb. apply core_intro.
  - split; rewrite ?Efo.
    + reflexivity.
    + consts. lia.
    + apply NoDup_nil. exact I.
    + intros i Hi. set_solver.
    + intros k Hk. rewrite Efb by lia. lia.
    + intros k1 k2 Hk1 Hk2. rewrite !Efb by lia. auto.
    + intros i Hi. right. exists i. rewrite Efo. split; [lia|]. apply Efb. exact Hi.
  - split; [rewrite Etop; lia|]. intros t Ht. rewrite Ebot by exact Ht. lia.
  - split.
    + intros t Ht. rewrite Etop, Ebot, Z.bits_0 by exact Ht. split; [discriminate|congruence].
    + intros t b Ht Hb. rewrite Ebot, Ebin, Z.bits_0 by lia.
      split; [discriminate|congruence].
  - split.
    + intros k Hk Hne. rewrite Ebin in Hne by exact Hk. congruence.
    + intros i Hi. set_solver.
    + intros i Hi. set_solver.
Qed.

Lemma init_inv_any total_size :
  0 <= total_size <= 0xffffffff ->
  state_inv (snd (block_allocator_init total_size)) [0] [].
Proof.
  intros Hsz.
  rewrite init_unfold. cbn [snd].
  generalize init_cleared_spec. generalize init_cleared.
  intros a0 (Etop & Efo & Ehd & Ebot & Ebin & Efb).
  pose proof (init_core a0 Etop Efo Ebot Ebin Efb) as Hcore.
  assert (Hs : 0 <= total_size < 2 ^ 32) by lia.
  assert (Hfo : free_offset a0 <> BLOCK_ALLOCATOR_MAX_ALLOCS) by (rewrite Efo; consts; lia).
  destruct (insert_spec a0 0 total_size BLOCK_ALLOCATOR_UNUSED BLOCK_ALLOCATOR_UNUSED
              Hfo Hs) as (a1 & -> & Heff).
  cbn [snd].
  destruct (core_insert a0 a1 [] _ _ _ _ Hcore Hfo Hs Heff) as (Hj & Hnj & Hcore' & Hfree & _).
  assert (Ej : free_block a0 (free_offset a0) = 0) by (rewrite Efo; apply Efb; consts; lia).
  rewrite Ej in *.
  destruct Hcore' as (Hp & Hbr & Hbc & Hb).
  split; [exact Hp|]. split; [exact Hbr|]. split; [exact Hbc|]. split; [exact Hb|].
  split.
  - rewrite <- Ej.
    apply (splice_chain a0 a1 [] [] [] 0 total_size); cbn [app last head default];
      rewrite ?Ej; auto.
    + intros x Hx. set_solver.
    + exact I.
    + apply NoDup_nil. exact I.
    + exact I.
    + exact I.
    + intros x Hx. set_solver.
    + intros x Hx. set_solver.
  - split; intros; contradiction.
Qed.

Lemma init_inv total_size :
  1 <= total_size <= 0xffffffff ->
  state_inv (snd (block_allocator_init total_size)) [0] [].
Proof. intros Hsz. apply init_inv_any. lia. Qed.

(** ** block_allocator_alloc preserves the invariant *)

Lemma u32_sub_pos x y :
  0 <= x < 2 ^ 32 -> 0 <= y < 2 ^ 32 -> x <> y -> 0 < u32 (x - y).
Proof.
  intros Hx Hy Hne. unfold u32. change (2 ^ 32) with 4294967296 in *.
  pose proof (Z.mod_pos_bound (x - y) 4294967296 ltac:(lia)).
  destruct (Z.eq_dec ((x - y) mod 4294967296) 0) as [E|]; [|lia].
  apply Z.mod_divide in E; [|lia]. destruct E as [q E]. lia.
Qed.

Lemma state_inv_core a ch hs : state_inv a ch hs -> core_inv a ch.
Proof. intros (H1 & H2 & H3 & H4 & _). apply core_intro; assumption. Qed.

Lemma state_inv_intro a ch hs :
  core_inv a ch -> chain_inv a ch -> handles_inv a ch hs -> state_inv a ch hs.
Proof. intros (H1 & H2 & H3 & H4) H5 H6. unfold state_inv. auto 10. Qed.

Lemma state_inv_chain a ch hs : state_inv a ch hs -> chain_inv a ch.
Proof. intros (_ & _ & _ & _ & H & _). exact H. Qed.

Lemma state_inv_handles a ch hs : state_inv a ch hs -> handles_inv a ch hs.
Proof. intros (_ & _ & _ & _ & _ & H). exact H. Qed.

Section AllocStep.
Variables (a : block_allocator_t) (ch : list Z) (hs : list block_allocator_allocation_t).
Variables t' b' sz : Z.
Hypothesis Hinv : state_inv a ch hs.
Hypothesis Ht' : 0 <= t' < 32.
Hypothesis Hb' : 0 <= b' < 8.
Hypothesis Hne : bin_list a (8 * t' + b') <> BLOCK_ALLOCATOR_UNUSED.
Hypothesis Hsz : 0 < sz < 2 ^ 32.
Hypothesis Hbin : bin_of sz <> 8 * t' + b'.
Let h := bin_list a (8 * t' + b').
Let a1 := snd (alloc_pop a t' b').

Lemma alloc_pop_facts :
  fst (alloc_pop a t' b') = h /\ h ∈ ch /\
  block_allocator_is_used (block_at a h) = false /\
  bin_of (size (block_at a h)) = 8 * t' + b' /\
  core_inv a1 ch /\
  block_allocator_is_used (block_at a1 h) = true /\
  (forall x, x ∈ ch -> x <> h ->
     block_allocator_is_used (block_at a1 x) = block_allocator_is_used (block_at a x)) /\
  same_layout a a1 /\ free_offset a1 = free_offset a.
Proof. apply (core_pop a ch t' b' (state_inv_core a ch hs Hinv) Ht' Hb' Hne). Qed.

Lemma alloc_pop_used x :
  x ∈ ch -> block_allocator_is_used (block_at a x) = true ->
  block_allocator_is_used (block_at a1 x) = true.
Proof.
  destruct alloc_pop_facts as (_ & _ & Hf & _ & _ & Hu & Ho & _).
  intros Hx Hxu. destruct (Z.eq_dec x h) as [->|Hxh]; [exact Hu|].
  rewrite Ho by assumption. exact Hxu.
Qed.

Lemma alloc_pop_chain : chain_inv a1 ch.
Proof.
  destruct alloc_pop_facts as (_ & _ & _ & _ & _ & _ & _ & [_ Hlay] & _).
  pose proof (state_inv_chain a ch hs Hinv) as Hch.
  apply (chain_frame a a1 ch Hch).
  - intros x _. destruct (Hlay x) as (_ & _ & ? & ?). auto.
  - apply alloc_pop_used.
  - intros x Hx. destruct (Hlay x) as (_ & -> & _). apply (chain_sizes a ch Hch x Hx).
Qed.

Lemma alloc_pop_handles : handles_inv a1 ch hs.
Proof.
  pose proof (state_inv_handles a ch hs Hinv) as Hh.
  apply (handles_frame a a1 ch ch hs Hh). intros x Hx.
  destruct (handles_live a ch hs Hh x Hx) as (Hin & Hu & _).
  split; [exact Hin|]. apply alloc_pop_used; assumption.
Qed.

(** The state in which the allocation fails when the pool is exhausted. *)
Lemma alloc_pop_inv : state_inv a1 ch hs.
Proof.
  destruct alloc_pop_facts as (_ & _ & _ & _ & Hcore & _).
  apply state_inv_intro; [exact Hcore|exact alloc_pop_chain|exact alloc_pop_handles].
Qed.

Lemma alloc_block_size :
  0 <= size (block_at a1 h) < 2 ^ 32 /\ size (block_at a1 h) <> sz.
Proof.
  destruct alloc_pop_facts as (_ & Hin & _ & Hb & _ & _ & _ & [_ Hlay] & _).
  destruct (Hlay h) as (_ & -> & _). split.
  - apply (chain_sizes a ch (state_inv_chain a ch hs Hinv) h Hin).
  - intros E. rewrite E in Hb. contradiction.
Qed.

Lemma alloc_remaining : (0 <? u32 (size (block_at a1 h) - sz)) = true.
Proof.
  destruct alloc_block_size as [Hr Hd]. apply Z.ltb_lt.
  apply u32_sub_pos; [exact Hr|lia|exact Hd].
Qed.

Lemma alloc_handle_fresh x :
  In x hs -> alloc_metadata x <> h.
Proof.
  intros Hx E. destruct alloc_pop_facts as (_ & _ & Hf & _).
  destruct (handles_live a ch hs (state_inv_handles a ch hs Hinv) x Hx) as (_ & Hu & _).
  rewrite E in Hu. congruence.
Qed.

(** The state after a successful split. *)
Lemma alloc_split_inv a2 o :
  free_offset a <> BLOCK_ALLOCATOR_MAX_ALLOCS ->
  insert_effect a1 a2 o (u32 (size (block_at a1 h) - sz)) h (mem_next (block_at a1 h)) ->
  let a3 := store_size h sz a2 in
  exists ch',
    state_inv a3 ch'
      (Allocation (offset (block_at a3 h)) (size (block_at a3 h)) h :: hs).
Proof.
  intros Hfo Heff a3.
  destruct alloc_pop_facts as (_ & Hin & Hf & Hb & Hcore1 & Hu1 & Ho1 & [_ Hlay] & Efo).
  pose proof alloc_pop_chain as Hch1. pose proof alloc_pop_handles as Hh1.
  pose proof (core_range a1 ch Hcore1) as Hr.
  rewrite <- Efo in Hfo.
  destruct (core_insert a1 a2 ch _ _ _ _ Hcore1 Hfo (u32_range _) Heff)
    as (Hj & Hnj & Hcore2 & Hfree2 & Hused2).
  set (j := free_block a1 (free_offset a1)) in *.
  destruct (list_elem_of_split ch h Hin) as (l1 & l2 & Ech).
  assert (Ech' : ch = (l1 ++ [h]) ++ [] ++ l2)
    by (rewrite Ech, <- app_assoc; reflexivity).
  assert (Hnd : NoDup ch) by apply (pool_nodup a1 ch (proj1 Hcore1)).
  destruct Hch1 as [Hseg1 Hadj1 Hsz1].
  assert (Hmn : mem_next (block_at a1 h) = default BLOCK_ALLOCATOR_UNUSED (head l2)).
  { rewrite Ech in Hseg1. apply chain_seg_app in Hseg1 as [_ Hs].
    cbn [chain_seg] in Hs. tauto. }
  assert (HadjC : no_adjacent_free a1 false l2).
  { pose proof (chain_adjacent a ch (state_inv_chain a ch hs Hinv)) as Hadj.
    rewrite Ech in Hadj. apply no_adjacent_app in Hadj as [_ Hadj].
    cbn [no_adjacent_free] in Hadj. destruct Hadj as [_ Hadj]. rewrite Hf in Hadj.
    apply (no_adjacent_frame a); [|exact Hadj].
    intros x Hx. apply Ho1; [rewrite Ech; set_solver|].
    intros ->. rewrite Ech in Hnd. apply NoDup_app in Hnd as (_ & _ & Hnd).
    apply NoDup_cons in Hnd as [Hnd _]. contradiction. }
  assert (HadjA : no_adjacent_free a1 true (l1 ++ [h])).
  { rewrite Ech' in Hadj1. apply no_adjacent_app in Hadj1 as [Hadj1 _]. exact Hadj1. }
  assert (HlastA : last_used a1 true (l1 ++ [h]) = true).
  { unfold last_used. rewrite last_snoc. exact Hu1. }
  assert (Hsub : forall x, x ∈ (l1 ++ [h]) ++ l2 <-> x ∈ ch)
    by (intros x; rewrite Ech; set_solver).
  assert (Hch2 : chain_inv a2 ((l1 ++ [h]) ++ j :: l2)).
  { apply (splice_chain a1 a2 (l1 ++ [h]) [] l2 o (u32 (size (block_at a1 h) - sz)));
      fold j; auto.
    - intros x Hx. apply Hr, Hsub, Hx.
    - intros Hx. apply Hnj, Hsub, Hx.
    - rewrite <- Ech'. exact Hseg1.
    - rewrite <- app_assoc. cbn [app]. rewrite <- Ech. exact Hnd.
    - rewrite last_snoc, <- Hmn. cbn [default from_option id]. exact Heff.
    - intros x Hx. apply Hused2, Hsub, Hx.
    - intros x Hx. apply Hsz1, Hsub, Hx.
    - apply u32_range. }
  assert (Hperm : j :: ch ≡ₚ (l1 ++ [h]) ++ j :: l2).
  { rewrite Ech, <- app_assoc. cbn [app].
    etransitivity; [apply Permutation_middle|].
    apply Permutation_app_head, perm_swap. }
  pose proof (core_perm a2 _ _ Hcore2 Hperm) as Hcore2'.
  assert (Hin' : forall x, x ∈ ch -> x ∈ (l1 ++ [h]) ++ j :: l2)
    by (intros x Hx; rewrite Ech in Hx; set_solver).
  assert (Hu2 : block_allocator_is_used (block_at a2 h) = true)
    by (rewrite Hused2 by exact Hin; exact Hu1).
  exists ((l1 ++ [h]) ++ j :: l2). apply state_inv_intro.
  - apply (core_frame a2 a3); unfold a3; try (rwg; reflexivity); auto.
    + intros x. rwg. reflexivity.
    + intros x. rwg. reflexivity.
    + intros x Hx Hxu. rwg. rewrite decide_False; [reflexivity|]. congruence.
  - apply (chain_frame a2 a3 _ Hch2); unfold a3.
    + intros x _. rwg. auto.
    + intros x _. unfold block_allocator_is_used. rwg. auto.
    + intros x Hx. rwg. case_decide; [lia|]. apply (chain_sizes a2 _ Hch2 x Hx).
  - assert (Hu3 : forall x, block_allocator_is_used (block_at a3 x) =
                            block_allocator_is_used (block_at a2 x))
      by (intros x; unfold a3, block_allocator_is_used; rwg; reflexivity).
    split.
    + intros h1 h2 [<-|H1] [<-|H2]; cbn [alloc_metadata]; auto.
      * intros E. symmetry in E. destruct (alloc_handle_fresh h2 H2 E).
      * intros E. destruct (alloc_handle_fresh h1 H1 E).
      * apply (handles_inj a1 ch hs Hh1); assumption.
    + intros x [<-|Hx]; cbn [alloc_metadata alloc_size].
      * split; [apply Hin', Hin|]. split; [rewrite Hu3; exact Hu2|].
        unfold a3. rwg. rewrite decide_True by reflexivity. lia.
      * destruct (handles_live a1 ch hs Hh1 x Hx) as (Hxin & Hxu & Hxs).
        split; [apply Hin', Hxin|]. split; [|exact Hxs].
        rewrite Hu3, Hused2 by exact Hxin. exact Hxu.
Qed.
End AllocStep.

(** The four ways a call of [block_allocator_alloc] can go. *)
Lemma alloc_cases a ch hs sz :
  state_inv a ch hs -> 0 <= sz < 2 ^ 32 ->
  (sz = 0 /\ block_allocator_alloc a sz = (BLOCK_ALLOCATOR_OUT_OF_MEMORY, a, None)) \/
  (sz <> 0 /\
   (forall k, bin_of sz < k < 256 -> bin_list a k = BLOCK_ALLOCATOR_UNUSED) /\
   block_allocator_alloc a sz = (BLOCK_ALLOCATOR_OUT_OF_MEMORY, a, None)) \/
  (sz <> 0 /\
   (exists k, bin_of sz < k < 256 /\ bin_list a k <> BLOCK_ALLOCATOR_UNUSED) /\
   free_offset a = BLOCK_ALLOCATOR_MAX_ALLOCS /\
   exists a', block_allocator_alloc a sz = (BLOCK_ALLOCATOR_OUT_OF_MEMORY, a', None) /\
              a' <> a /\ state_inv a' ch hs) \/
  (sz <> 0 /\
   (exists k, bin_of sz < k < 256 /\ bin_list a k <> BLOCK_ALLOCATOR_UNUSED) /\
   free_offset a <> BLOCK_ALLOCATOR_MAX_ALLOCS /\
   exists a' h ch',
     block_allocator_alloc a sz = (BLOCK_ALLOCATOR_SUCCESS, a', Some h) /\
     state_inv a' ch' (h :: hs)).
Proof.
  intros Hinv Hsz.
  destruct (Z.eqb_spec sz 0) as [Hz|Hz].
  { left. split; [exact Hz|]. unfold block_allocator_alloc.
    rewrite (proj2 (Z.eqb_eq sz 0) Hz). reflexivity. }
  right.
  destruct (size_to_bin_index_spec sz Hsz) as (t & b & E & Ht & Hb).
  assert (Ebin : bin_of sz = 8 * t + b) by (unfold bin_of; rewrite E; reflexivity).
  pose proof (state_inv_core a ch hs Hinv) as (_ & Hbr & Hbc & _).
  pose proof (eq_refl (block_allocator_alloc a sz)) as Hval.
  unfold block_allocator_alloc at 2 in Hval.
  rewrite (proj2 (Z.eqb_neq sz 0) Hz), E in Hval.
  destruct (alloc_find_bin a t b) as [[t' b']|] eqn:Ef.
  - right.
    destruct (alloc_find_bin_Some a Hbr Hbc t b ltac:(lia) Hb t' b' Ef)
      as (Ht' & Hb' & Hne & Hlt).
    assert (Hsz' : 0 < sz < 2 ^ 32) by lia.
    assert (Hbin : bin_of sz <> 8 * t' + b') by lia.
    assert (Hex : exists k, bin_of sz < k < 256 /\ bin_list a k <> BLOCK_ALLOCATOR_UNUSED)
      by (exists (8 * t' + b'); split; [lia|exact Hne]).
    rewrite (surjective_pairing (alloc_pop a t' b')) in Hval.
    destruct (alloc_pop_facts a ch hs t' b' Hinv Ht' Hb' Hne)
      as (Efst & Hin & Hf & _ & _ & Hu & _ & _ & Efo).
    rewrite Efst in Hval.
    set (h := bin_list a (8 * t' + b')) in *.
    set (a1 := snd (alloc_pop a t' b')) in *.
    cbv beta iota zeta in Hval.
    pose proof (alloc_remaining a ch hs t' b' sz Hinv Ht' Hb' Hne Hsz' Hbin) as Hrem.
    fold a1 in Hrem. fold h in Hrem. rewrite Hrem in Hval.
    destruct (Z.eq_dec (free_offset a) BLOCK_ALLOCATOR_MAX_ALLOCS) as [Hfull|Hfree].
    + left. split; [exact Hz|]. split; [exact Hex|]. split; [exact Hfull|].
      rewrite insert_full in Hval by congruence.
      exists a1. split; [exact Hval|]. split.
      * intros Ea. rewrite Ea in Hu. congruence.
      * apply (alloc_pop_inv a ch hs t' b' Hinv Ht' Hb' Hne).
    + right. split; [exact Hz|]. split; [exact Hex|]. split; [exact Hfree|].
      destruct (insert_spec a1 (u32 (offset (block_at a1 h) + sz))
                  (u32 (size (block_at a1 h) - sz)) h (mem_next (block_at a1 h)))
        as (a2 & Eins & Heff); [congruence|apply u32_range|].
      rewrite Eins in Hval.
      change (BLOCK_ALLOCATOR_SUCCESS =? BLOCK_ALLOCATOR_OUT_OF_MEMORY) with false in Hval.
      cbv iota in Hval.
      destruct (alloc_split_inv a ch hs t' b' sz Hinv Ht' Hb' Hne Hsz' Hbin a2 _ Hfree Heff)
        as (ch' & Hinv').
      eexists _, _, ch'. split; [exact Hval|exact Hinv'].
  - left. split; [exact Hz|]. split; [|exact Hval].
    rewrite Ebin. apply (alloc_find_bin_None a Hbr Hbc t b ltac:(lia) Hb Ef).
Qed.

(** ** block_allocator_free preserves the invariant *)

Lemma last_snoc_cases (l : list Z) : l = [] \/ exists l' x, l = l' ++ [x].
Proof.
  destruct (last l) as [x|] eqn:E.
  - right. apply last_Some in E as [l' ->]. eauto.
  - left. apply last_None. exact E.
Qed.

Section FreeStep.
Variables (a : block_allocator_t) (ch : list Z) (hs : list block_allocator_allocation_t).
Variable h : block_allocator_allocation_t.
Hypothesis Hinv : state_inv a ch hs.
Hypothesis Hh : In h hs.
Let b := alloc_metadata h.
Let U := BLOCK_ALLOCATOR_UNUSED.
Let blk := block_at a b.
Let a1 := release_slot b a.

Lemma free_handle :
  b ∈ ch /\ block_allocator_is_used (block_at a b) = true /\ alloc_size h <> 0.
Proof. apply (handles_live a ch hs (state_inv_handles a ch hs Hinv) h Hh). Qed.

Variables L1 L2 : list Z.
Hypothesis Ech : ch = L1 ++ b :: L2.

Lemma free_nodup : NoDup (L1 ++ b :: L2).
Proof. rewrite <- Ech. apply (pool_nodup a ch (proj1 Hinv)). Qed.

Lemma free_links :
  mem_prev blk = default U (last L1) /\ mem_next blk = default U (head L2).
Proof.
  pose proof (chain_links a ch (state_inv_chain a ch hs Hinv)) as Hseg.
  rewrite Ech in Hseg. apply chain_seg_app in Hseg as [_ Hs].
  cbn [chain_seg] in Hs. unfold blk, U. tauto.
Qed.

Lemma free_released :
  free_offset a1 = free_offset a - 1 /\ core_inv a1 (L1 ++ L2) /\ same_layout a a1 /\
  forall x, block_allocator_is_used (block_at a1 x) =
            block_allocator_is_used (block_at a x).
Proof.
  destruct free_handle as (_ & Hu & _).
  pose proof (state_inv_core a ch hs Hinv) as Hcore. rewrite Ech in Hcore.
  destruct (core_release a L1 b L2 Hcore Hu) as [Efo Hcore1].
  split; [exact Efo|]. split; [exact Hcore1|]. split; [apply release_layout|].
  intros x. unfold a1, block_allocator_is_used. rwg. reflexivity.
Qed.
End FreeStep.

(** Lines 214-220 and 221-226 on a state [a1] that has the blocks of [a] at
    the same places and whose handed-out slots are [A0 ++ C0]. *)
Section FreeMerge.
Variables a a1 : block_allocator_t.
Variables A0 C0 : list Z.
Variable blk : block_allocator_block_t.
Let U := BLOCK_ALLOCATOR_UNUSED.
Hypothesis Hcore : core_inv a1 (A0 ++ C0).
Hypothesis Hlay : same_layout a a1.
Hypothesis Hused : forall x, x ∈ A0 ++ C0 ->
  block_allocator_is_used (block_at a1 x) = block_allocator_is_used (block_at a x).
Hypothesis Hsizes : forall x, x ∈ A0 ++ C0 -> 0 <= size (block_at a x) < 2 ^ 32.

Lemma free_merge_prev_spec mid :
  chain_seg a U (A0 ++ mid) (default U (head C0)) ->
  no_adjacent_free a true A0 ->
  mem_prev blk = default U (last A0) ->
  exists A midp blk2 a2,
    free_merge_prev blk a1 = (blk2, a2) /\
    A0 = A ++ midp /\
    (forall x, x ∈ midp -> block_allocator_is_used (block_at a x) = false) /\
    core_inv a2 (A ++ C0) /\ same_layout a a2 /\
    (forall x, x ∈ A ++ C0 ->
       block_allocator_is_used (block_at a2 x) = block_allocator_is_used (block_at a x)) /\
    mem_prev blk2 = default U (last A) /\ mem_next blk2 = mem_next blk /\
    (0 <= size blk < 2 ^ 32 -> 0 <= size blk2 < 2 ^ 32) /\
    no_adjacent_free a true A /\ last_used a true A = true /\
    free_offset a1 - 1 <= free_offset a2 <= free_offset a1.
Proof.
  intros Hseg Hadj Hmp. unfold free_merge_prev.
  assert (merge_slot : forall x, x ∈ A0 ++ C0 -> x <> U).
  { intros x Hx. pose proof (core_range a1 _ Hcore x Hx). unfold U. consts. lia. }
  destruct (last_snoc_cases A0) as [->|(l1 & p & ->)].
  - (* no block before *)
    cbn [last default from_option] in Hmp. rewrite Hmp.
    change (U =? BLOCK_ALLOCATOR_UNUSED) with true. cbn [negb andb].
    exists [], [], blk, a1. cbn [app]. split_and!; auto; try lia.
    intros x Hx. set_solver.
  - rewrite last_snoc in Hmp. cbn [default from_option id] in Hmp.
    assert (Hp : p ∈ (l1 ++ [p]) ++ C0) by set_solver.
    pose proof (merge_slot p Hp) as HpU.
    rewrite Hmp, (proj2 (Z.eqb_neq p BLOCK_ALLOCATOR_UNUSED) HpU). cbn [negb andb].
    rewrite (Hused p Hp).
    destruct (block_allocator_is_used (block_at a p)) eqn:Hpu; cbn [negb].
    + (* a used block before *)
      exists (l1 ++ [p]), [], blk, a1. rewrite app_nil_r.
      split_and!; auto; try lia.
      * intros x Hx. set_solver.
      * rewrite last_snoc. exact Hmp.
      * unfold last_used. rewrite last_snoc. exact Hpu.
    + (* a free block before: it is claimed *)
      cbv zeta. cbn [mem_prev with_offset with_size with_mem_prev mem_next size].
      rewrite ?Hmp.
      rewrite <- app_assoc in Hcore. cbn [app] in Hcore.
      assert (Hpf : block_allocator_is_used (block_at a1 p) = false)
        by (rewrite (Hused p Hp); exact Hpu).
      destruct (core_remove a1 l1 p C0 Hcore Hpf) as (Efo & Hcore2 & Hused2).
      destruct (remove_spec a1 p) as (Heff & _).
      pose proof (unlink_layout a1 _ p Heff) as Hlay2.
      eexists l1, [p], _, _. split; [reflexivity|].
      cbn [mem_prev mem_next size].
      split; [reflexivity|]. split; [intros x Hx; set_solver|].
      split; [exact Hcore2|]. split; [eapply same_layout_trans; eassumption|].
      split; [|split; [|split; [reflexivity|split; [|split; [|split]]]]].
      * intros x Hx. rewrite Hused2 by exact Hx. apply Hused. set_solver.
      * destruct Hlay as [_ Hl]. destruct (Hl p) as (_ & _ & -> & _).
        rewrite <- app_assoc in Hseg. apply chain_seg_app in Hseg as [_ Hseg].
        cbn [chain_seg app] in Hseg. tauto.
      * intros _. apply u32_range.
      * apply no_adjacent_app in Hadj. tauto.
      * apply no_adjacent_app in Hadj as [_ Hadj]. cbn [no_adjacent_free] in Hadj.
        destruct Hadj as [Hadj _]. rewrite Hpu, orb_false_r in Hadj. exact Hadj.
      * lia.
Qed.

Lemma free_merge_next_spec :
  chain_seg a (mem_prev (block_at a (default U (head C0)))) C0 U ->
  no_adjacent_free a true C0 ->
  mem_next blk = default U (head C0) ->
  exists C midn blk2 a2,
    free_merge_next blk a1 = (blk2, a2) /\
    C0 = midn ++ C /\
    (forall x, x ∈ midn -> block_allocator_is_used (block_at a x) = false) /\
    core_inv a2 (A0 ++ C) /\ same_layout a a2 /\
    (forall x, x ∈ A0 ++ C ->
       block_allocator_is_used (block_at a2 x) = block_allocator_is_used (block_at a x)) /\
    mem_next blk2 = default U (head C) /\ mem_prev blk2 = mem_prev blk /\
    (0 <= size blk < 2 ^ 32 -> 0 <= size blk2 < 2 ^ 32) /\
    no_adjacent_free a false C /\
    free_offset a1 - 1 <= free_offset a2 <= free_offset a1.
Proof.
  intros Hseg Hadj Hmn. unfold free_merge_next.
  assert (merge_slot : forall x, x ∈ A0 ++ C0 -> x <> U).
  { intros x Hx. pose proof (core_range a1 _ Hcore x Hx). unfold U. consts. lia. }
  destruct C0 as [|n l2].
  - cbn [head default from_option] in Hmn. rewrite Hmn.
    change (U =? BLOCK_ALLOCATOR_UNUSED) with true. cbn [negb andb].
    exists [], [], blk, a1. cbn [app]. split_and!; auto; try lia.
    intros x Hx. set_solver.
  - cbn [head default from_option id] in Hmn.
    assert (Hn : n ∈ A0 ++ n :: l2) by set_solver.
    pose proof (merge_slot n Hn) as HnU.
    rewrite Hmn, (proj2 (Z.eqb_neq n BLOCK_ALLOCATOR_UNUSED) HnU). cbn [negb andb].
    rewrite (Hused n Hn).
    destruct (block_allocator_is_used (block_at a n)) eqn:Hnu; cbn [negb].
    + exists (n :: l2), [], blk, a1. cbn [app].
      split_and!; auto; try lia.
      * intros x Hx. set_solver.
      * apply no_adjacent_false. split; [exact Hadj|].
        intros x [= <-]. exact Hnu.
    + cbv zeta. cbn [mem_prev with_offset with_size with_mem_next mem_next size].
      rewrite ?Hmn.
      assert (Hnf : block_allocator_is_used (block_at a1 n) = false)
        by (rewrite (Hused n Hn); exact Hnu).
      destruct (core_remove a1 A0 n l2 Hcore Hnf) as (Efo & Hcore2 & Hused2).
      destruct (remove_spec a1 n) as (Heff & _).
      pose proof (unlink_layout a1 _ n Heff) as Hlay2.
      eexists l2, [n], _, _. split; [reflexivity|].
      cbn [mem_prev mem_next size].
      split; [reflexivity|]. split; [intros x Hx; set_solver|].
      split; [exact Hcore2|]. split; [eapply same_layout_trans; eassumption|].
      split; [|split; [|split; [reflexivity|split; [|split]]]].
      * intros x Hx. rewrite Hused2 by exact Hx. apply Hused. set_solver.
      * destruct Hlay as [_ Hl]. destruct (Hl n) as (_ & _ & _ & ->).
        cbn [chain_seg] in Hseg. tauto.
      * intros _. apply u32_range.
      * cbn [no_adjacent_free] in Hadj. destruct Hadj as [_ Hadj].
        rewrite Hnu in Hadj. exact Hadj.
      * lia.
Qed.
End FreeMerge.

Lemma chain_seg_own_prev a p l n :
  chain_seg a p l n ->
  chain_seg a (mem_prev (block_at a (default BLOCK_ALLOCATOR_UNUSED (head l)))) l n.
Proof.
  destruct l as [|x l]; [auto|]. cbn [chain_seg head default from_option id].
  intros (H1 & H2 & H3). auto.
Qed.

Lemma free_unfold a h :
  alloc_size h <> 0 ->
  block_allocator_free a h =
  let r1 := free_merge_prev (block_at a (alloc_metadata h))
              (release_slot (alloc_metadata h) a) in
  let r2 := free_merge_next (fst r1) (snd r1) in
  snd (block_allocator_insert (snd r2) (offset (fst r2)) (size (fst r2))
         (mem_prev (fst r2)) (mem_next (fst r2))).
Proof.
  intros Hs. unfold block_allocator_free.
  rewrite (proj2 (Z.eqb_neq _ _) Hs). cbv zeta.
  destruct (free_merge_prev _ _) as [blk2 a2]. cbn [fst snd].
  destruct (free_merge_next _ _) as [blk3 a3]. reflexivity.
Qed.

(** [block_allocator_free] on an allocation that is handed out: the
    invariant is kept, no slot of the pool is taken, and the block of the
    allocation is free again if it is still in the chain. *)
Lemma free_detail a ch hs h :
  state_inv a ch hs -> In h hs ->
  exists ch',
    state_inv (block_allocator_free a h) ch' (remove allocation_eq_dec h hs) /\
    (free_offset a - 2 <= free_offset (block_allocator_free a h) <= free_offset a /\
     1 <= free_offset (block_allocator_free a h)) /\
    (alloc_metadata h ∈ ch' ->
     block_allocator_is_used (block_at (block_allocator_free a h) (alloc_metadata h)) = false) /\
    free_offset (snd (free_merged a h)) < free_offset a /\
    0 <= size (fst (free_merged a h)) < 2 ^ 32 /\
    free_insert_result a h = BLOCK_ALLOCATOR_SUCCESS.
Proof.
  intros Hinv Hh.
  destruct (free_handle a ch hs h Hinv Hh) as (Hb & Hbu & Hsz).
  unfold free_insert_result, free_merged.
  rewrite (free_unfold a h Hsz). cbv zeta.
  set (b := alloc_metadata h) in *. set (U := BLOCK_ALLOCATOR_UNUSED).
  destruct (list_elem_of_split ch b Hb) as (L1 & L2 & Ech).
  destruct (free_released a ch hs h Hinv Hh L1 L2 Ech) as (Efo1 & Hcore1 & Hlay1 & Hused1).
  fold b in Efo1, Hcore1, Hlay1, Hused1.
  destruct (free_links a ch hs h Hinv L1 L2 Ech) as [Hmp Hmn]. fold b U in Hmp, Hmn.
  pose proof (state_inv_chain a ch hs Hinv) as [Hseg Hadj Hsizes].
  pose proof (state_inv_handles a ch hs Hinv) as Hhs.
  pose proof (pool_le a ch (proj1 Hinv)) as Hle.
  set (a1 := release_slot b a) in *. set (blk := block_at a b) in *.
  (* the neighbour before *)
  assert (HsegP : chain_seg a U (L1 ++ [b]) (default U (head L2))).
  { rewrite Ech in Hseg. change (b :: L2) with ([b] ++ L2) in Hseg.
    rewrite app_assoc in Hseg. apply chain_seg_app in Hseg. tauto. }
  assert (HadjP : no_adjacent_free a true L1).
  { rewrite Ech in Hadj. apply no_adjacent_app in Hadj. tauto. }
  assert (Hsizes1 : forall x, x ∈ L1 ++ L2 -> 0 <= size (block_at a x) < 2 ^ 32).
  { intros x Hx. apply Hsizes. rewrite Ech. set_solver. }
  destruct (free_merge_prev_spec a a1 L1 L2 blk Hcore1 Hlay1
              (fun x _ => Hused1 x) Hsizes1 [b] HsegP HadjP Hmp)
    as (A & midp & blk2 & a2 & E2 & EL1 & Hmidp & Hcore2 & Hlay2 & Hused2 &
        Hmp2 & Hmn2 & Hsz2 & HadjA & HlastA & Hfo2).
  rewrite E2. cbn [fst snd].
  (* the neighbour after *)
  assert (HsegN : chain_seg a (mem_prev (block_at a (default U (head L2)))) L2 U).
  { apply chain_seg_own_prev with (p := b).
    rewrite Ech in Hseg. apply chain_seg_app in Hseg as [_ Hseg].
    cbn [chain_seg] in Hseg. tauto. }
  assert (HadjN : no_adjacent_free a true L2).
  { rewrite Ech in Hadj. apply no_adjacent_app in Hadj as [_ Hadj].
    cbn [no_adjacent_free] in Hadj. destruct Hadj as [_ Hadj].
    revert Hadj. apply no_adjacent_mono; auto. }
  assert (Hsizes2 : forall x, x ∈ A ++ L2 -> 0 <= size (block_at a x) < 2 ^ 32).
  { intros x Hx. apply Hsizes. rewrite Ech, EL1. set_solver. }
  assert (Hmn2' : mem_next blk2 = default U (head L2)) by congruence.
  destruct (free_merge_next_spec a a2 A L2 blk2 Hcore2 Hlay2 Hused2 Hsizes2
              HsegN HadjN Hmn2')
    as (C & midn & blk3 & a3 & E3 & EL2 & Hmidn & Hcore3 & Hlay3 & Hused3 &
        Hmn3 & Hmp3 & Hsz3 & HadjC & Hfo3).
  rewrite E3. cbn [fst snd].
  (* the merged block is inserted *)
  assert (Hblk : 0 <= size blk3 < 2 ^ 32).
  { apply Hsz3, Hsz2. apply Hsizes. exact Hb. }
  assert (Hfo : free_offset a3 <> BLOCK_ALLOCATOR_MAX_ALLOCS) by lia.
  destruct (insert_spec a3 (offset blk3) (size blk3) (mem_prev blk3) (mem_next blk3)
              Hfo Hblk) as (a4 & -> & Heff).
  cbn [snd].
  destruct (core_insert a3 a4 (A ++ C) _ _ _ _ Hcore3 Hfo Hblk Heff)
    as (Hj & Hnj & Hcore4 & Hfree4 & Hused4).
  set (j := free_block a3 (free_offset a3)) in *.
  pose proof (core_range a3 _ Hcore3) as Hr3.
  assert (Ech' : ch = A ++ (midp ++ b :: midn) ++ C).
  { rewrite Ech, EL1, EL2, <- !app_assoc. reflexivity. }
  assert (Hch4 : chain_inv a4 (A ++ j :: C)).
  { rewrite Hmp3, Hmp2, Hmn3 in Heff.
    apply (splice_chain a3 a4 A (midp ++ b :: midn) C (offset blk3) (size blk3));
      fold j; auto.
    - rewrite <- Ech'. apply (chain_seg_frame a); [|exact Hseg].
      intros x _. destruct Hlay3 as [_ Hl]. destruct (Hl x) as (_ & _ & ? & ?). auto.
    - apply (pool_nodup a3 _ (proj1 Hcore3)).
    - apply (no_adjacent_frame a); [|exact HadjA].
      intros x Hx. apply Hused3. set_solver.
    - rewrite (last_used_frame a a3); [exact HlastA|].
      intros x Hx. apply Hused3. set_solver.
    - apply (no_adjacent_frame a); [|exact HadjC].
      intros x Hx. apply Hused3. set_solver.
    - intros x Hx. destruct Hlay3 as [_ Hl]. destruct (Hl x) as (_ & -> & _).
      apply Hsizes. rewrite Ech'. set_solver. }
  exists (A ++ j :: C). split; [|split; [|split; [|split; [|split; [|reflexivity]]]]].
  4: { lia. }
  4: { exact Hblk. }
  2: { pose proof (ins_fo _ _ _ _ _ _ Heff) as Efo4.
       pose proof (pool_len a3 _ (proj1 Hcore3)) as Hlen3.
       rewrite u32_id in Efo4 by (revert Hle; consts; lia). lia. }
  2: { intros Hbin. fold b in Hbin.
       pose proof (pool_nodup a ch (proj1 Hinv)) as Hnd. rewrite Ech' in Hnd.
       apply NoDup_app in Hnd as (_ & HdA & Hnd).
       apply NoDup_app in Hnd as (_ & HdC & _).
       apply elem_of_app in Hbin as [Hbin|Hbin]; [exfalso; apply (HdA b Hbin); set_solver|].
       apply elem_of_cons in Hbin as [Hbin|Hbin];
         [rewrite Hbin; exact Hfree4|exfalso; apply (HdC b); [set_solver|exact Hbin]]. }
  apply state_inv_intro.
  - apply (core_perm a4 (j :: A ++ C)); [exact Hcore4|]. apply Permutation_middle.
  - exact Hch4.
  - split.
    + intros h1 h2 H1 H2. apply in_remove in H1 as [H1 _]. apply in_remove in H2 as [H2 _].
      apply (handles_inj a ch hs Hhs); assumption.
    + intros x Hx. apply in_remove in Hx as [Hx Hne].
      destruct (handles_live a ch hs Hhs x Hx) as (Hxin & Hxu & Hxs).
      assert (Hxb : alloc_metadata x <> b).
      { intros E. apply Hne. apply (handles_inj a ch hs Hhs x h Hx Hh). exact E. }
      assert (Hx' : alloc_metadata x ∈ A ++ C).
      { rewrite Ech' in Hxin.
        apply elem_of_app in Hxin as [Hxin|Hxin]; [set_solver|].
        apply elem_of_app in Hxin as [Hxin|Hxin]; [|set_solver].
        apply elem_of_app in Hxin as [Hxin|Hxin].
        - rewrite (Hmidp _ Hxin) in Hxu. discriminate.
        - apply elem_of_cons in Hxin as [Hxin|Hxin]; [contradiction|].
          rewrite (Hmidn _ Hxin) in Hxu. discriminate. }
      split; [set_solver|]. split; [|exact Hxs].
      rewrite Hused4, Hused3 by exact Hx'. exact Hxu.
Qed.

Lemma free_inv a ch hs h :
  state_inv a ch hs -> In h hs ->
  exists ch', state_inv (block_allocator_free a h) ch' (remove allocation_eq_dec h hs).
Proof.
  intros Hinv Hh. destruct (free_detail a ch hs h Hinv Hh) as (ch' & H & _).
  exists ch'. exact H.
Qed.

(** ** Every reachable state satisfies the invariant *)

Lemma reachable_inv a hs : reachable a hs -> exists ch, state_inv a ch hs.
Proof.
  induction 1 as [total Ht|a hs sz a' h _ [ch IH] Hsz E|a hs sz a' _ [ch IH] Hsz E
                 |a hs h _ [ch IH] Hh].
  - exists [0]. apply init_inv. exact Ht.
  - destruct (alloc_cases a ch hs sz IH Hsz)
      as [[_ E']|[(_ & _ & E')|[(_ & _ & _ & a2 & E' & _)|(_ & _ & _ & a2 & h2 & ch' & E' & Hinv)]]];
      rewrite E' in E; try discriminate.
    injection E as <- <-. exists ch'. exact Hinv.
  - destruct (alloc_cases a ch hs sz IH Hsz)
      as [[_ E']|[(_ & _ & E')|[(_ & _ & _ & a2 & E' & _ & Hinv)|(_ & _ & _ & a2 & h2 & ch' & E' & _)]]];
      rewrite E' in E; try discriminate.
    + injection E as <-. exists ch. exact IH.
    + injection E as <-. exists ch. exact IH.
    + injection E as <-. exists ch. exact Hinv.
  - apply (free_inv a ch hs h IH Hh).
Qed.

(** * Consequences of the invariant *)

Lemma slot_live_chain a ch hs i : state_inv a ch hs -> slot_live a i -> i ∈ ch.
Proof.
  intros Hinv [Hr Hnp].
  destruct (pool_total a ch (proj1 Hinv) i Hr) as [H|H]; [exact H|contradiction].
Qed.

Lemma chain_slot_live a ch hs i : state_inv a ch hs -> i ∈ ch -> slot_live a i.
Proof. intros Hinv Hi. apply (pool_live a ch (proj1 Hinv) i Hi). Qed.

(** A free block of the chain sits between used blocks. *)
Lemma chain_free_neighbours a ch hs L1 i L2 :
  state_inv a ch hs -> ch = L1 ++ i :: L2 ->
  block_allocator_is_used (block_at a i) = false ->
  mem_prev (block_at a i) = default BLOCK_ALLOCATOR_UNUSED (last L1) /\
  mem_next (block_at a i) = default BLOCK_ALLOCATOR_UNUSED (head L2) /\
  (forall p, last L1 = Some p ->
     block_allocator_is_used (block_at a p) = true /\ mem_next (block_at a p) = i) /\
  (forall n, head L2 = Some n ->
     block_allocator_is_used (block_at a n) = true /\ mem_prev (block_at a n) = i).
Proof.
  intros Hinv Ech Hfree.
  destruct (state_inv_chain a ch hs Hinv) as [Hseg Hadj _].
  rewrite Ech in Hseg, Hadj.
  apply chain_seg_app in Hseg as [Hs1 Hs2]. cbn [chain_seg head default from_option id] in Hs1, Hs2.
  destruct Hs2 as (Hmp & Hmn & Hs2).
  apply no_adjacent_app in Hadj as [_ Hadj]. cbn [no_adjacent_free] in Hadj.
  destruct Hadj as [Hlu Hadj]. rewrite Hfree in Hlu, Hadj. rewrite orb_false_r in Hlu.
  split; [exact Hmp|]. split; [exact Hmn|]. split.
  - intros p Hp. unfold last_used in Hlu. rewrite Hp in Hlu. split; [exact Hlu|].
    apply last_Some in Hp as [L1' ->].
    apply chain_seg_app in Hs1 as [_ Hs1]. cbn [chain_seg head default from_option id] in Hs1.
    tauto.
  - intros n Hn. destruct L2 as [|n' L2]; [discriminate|]. injection Hn as ->.
    cbn [no_adjacent_free chain_seg orb] in Hadj, Hs2. tauto.
Qed.

Lemma reachable_no_free_neighbours a hs : reachable a hs -> no_free_neighbours a.
Proof.
  intros Hr. destruct (reachable_inv a hs Hr) as [ch Hinv].
  intros i Hlive Hfree.
  pose proof (slot_live_chain a ch hs i Hinv Hlive) as Hi.
  destruct (list_elem_of_split ch i Hi) as (L1 & L2 & Ech).
  destruct (chain_free_neighbours a ch hs L1 i L2 Hinv Ech Hfree)
    as (Hmp & Hmn & Hp & Hn).
  pose proof (pool_nodup a ch (proj1 Hinv)) as Hnd. rewrite Ech in Hnd.
  apply NoDup_app in Hnd as (_ & Hd1 & Hd2). apply NoDup_cons in Hd2 as [Hd2 _].
  rewrite Hmp, Hmn. split; split.
  - destruct (last L1) as [p|] eqn:El; cbn [default from_option id]; [right|left; reflexivity].
    destruct (Hp p eq_refl) as [Hu _].
    assert (Hin : p ∈ L1) by (apply last_Some_elem_of; exact El).
    split; [apply (chain_slot_live a ch hs); [exact Hinv|rewrite Ech; set_solver]|].
    split; [|exact Hu]. intros ->. apply (Hd1 i Hin). set_solver.
  - destruct (last L1) as [p|] eqn:El; cbn [default from_option id]; [|congruence].
    intros _. apply (Hp p eq_refl).
  - destruct (head L2) as [n|] eqn:El; cbn [default from_option id]; [right|left; reflexivity].
    destruct (Hn n eq_refl) as [Hu _].
    assert (Hin : n ∈ L2) by (destruct L2; [discriminate|injection El as ->; set_solver]).
    split; [apply (chain_slot_live a ch hs); [exact Hinv|rewrite Ech; set_solver]|].
    split; [|exact Hu]. intros ->. contradiction.
  - destruct (head L2) as [n|] eqn:El; cbn [default from_option id]; [|congruence].
    intros _. apply (Hn n eq_refl).
Qed.

Lemma reachable_bitmaps_consistent a hs : reachable a hs -> bitmaps_consistent a.
Proof.
  intros Hr. destruct (reachable_inv a hs Hr) as [ch Hinv].
  destruct Hinv as (_ & _ & H & _). exact H.
Qed.

(** ** The outcome of [block_allocator_alloc] in a reachable state *)

Lemma alloc_outcome a hs sz :
  reachable a hs -> 0 <= sz < 2 ^ 32 ->
  (alloc_result a sz = BLOCK_ALLOCATOR_OUT_OF_MEMORY /\ alloc_out a sz = None /\
   (sz = 0 \/ no_bin_above a sz \/ free_offset a = BLOCK_ALLOCATOR_MAX_ALLOCS)) \/
  (alloc_result a sz = BLOCK_ALLOCATOR_SUCCESS /\
   (exists h, alloc_out a sz = Some h) /\
   sz <> 0 /\ ~ no_bin_above a sz /\ free_offset a <> BLOCK_ALLOCATOR_MAX_ALLOCS).
Proof.
  intros Hr Hsz. destruct (reachable_inv a hs Hr) as [ch Hinv].
  unfold alloc_result, alloc_out, no_bin_above.
  destruct (alloc_cases a ch hs sz Hinv Hsz)
    as [[Hz E]|[(Hz & Hk & E)|[(Hz & Hk & Hfo & a2 & E & _)|(Hz & Hk & Hfo & a2 & h & ch' & E & _)]]];
    rewrite E; cbn [fst snd].
  - left. auto.
  - left. auto.
  - left. auto.
  - right. split; [reflexivity|]. split; [eauto|]. split; [exact Hz|]. split; [|exact Hfo].
    intros Hnone. destruct Hk as (k & Hk & Hne). apply Hne, Hnone, Hk.
Qed.

(** ** The state left by [block_allocator_init] *)

Lemma shiftl_pow2_u32 t : 0 <= t < 32 -> u32 (Z.shiftl 1 t) = 2 ^ t.
Proof.
  intros Ht. rewrite Z.shiftl_1_l. apply u32_id. split; [apply Z.pow_nonneg; lia|].
  apply Z.pow_lt_mono_r; lia.
Qed.

Lemma shiftl_pow2_u8 b : 0 <= b < 8 -> u8 (Z.shiftl 1 b) = 2 ^ b.
Proof.
  intros Hb. rewrite Z.shiftl_1_l. unfold u8. apply Z.mod_small.
  split; [apply Z.pow_nonneg; lia|]. apply Z.pow_lt_mono_r; lia.
Qed.

Lemma init_state_any total_size :
  0 <= total_size <= 0xffffffff ->
  let a := snd (block_allocator_init total_size) in
  free_offset a = 1 /\ head_block a = 0 /\
  (forall k, 0 <= k < 256 ->
     bin_list a k = if decide (k = bin_of total_size) then 0 else BLOCK_ALLOCATOR_UNUSED) /\
  size (block_at a 0) = total_size /\ offset (block_at a 0) = 0 /\
  mem_prev (block_at a 0) = BLOCK_ALLOCATOR_UNUSED /\
  mem_next (block_at a 0) = BLOCK_ALLOCATOR_UNUSED /\
  bin_next (block_at a 0) = BLOCK_ALLOCATOR_UNUSED /\
  bin_prev (block_at a 0) = Z.lor BLOCK_ALLOCATOR_HEAD_BITS (bin_of total_size) /\
  exists t b,
    block_allocator_size_to_bin_index total_size = (8 * t + b, t, b) /\
    0 <= t <= 28 /\ 0 <= b < 8 /\
    top_bins a = 2 ^ t /\
    (forall t', 0 <= t' < 32 -> bottom_bin a t' = if decide (t' = t) then 2 ^ b else 0).
Proof.
  intros Hsz. cbv zeta.
  rewrite init_unfold. cbn [snd].
  generalize init_cleared_spec. generalize init_cleared.
  intros a0 (Etop & Efo & Ehd & Ebot & Ebin & Efb).
  assert (Hs : 0 <= total_size < 2 ^ 32) by lia.
  assert (Hfo : free_offset a0 <> BLOCK_ALLOCATOR_MAX_ALLOCS) by (rewrite Efo; consts; lia).
  destruct (insert_spec a0 0 total_size BLOCK_ALLOCATOR_UNUSED BLOCK_ALLOCATOR_UNUSED
              Hfo Hs) as (a1 & -> & Heff).
  cbn [snd].
  assert (Hj : free_block a0 (free_offset a0) = 0) by (rewrite Efo; apply Efb; consts; lia).
  assert (H0 : 0 <= 0 < BLOCK_ALLOCATOR_MAX_ALLOCS) by (consts; lia).
  pose proof (bin_of_range total_size Hs) as Hb.
  destruct Heff as [Hfo' _ Hbits Hbin Hhead Hbp Hbn Hsize Hoff Hmn Hmp].
  rewrite Hj in *. rewrite Efo in Hfo'.
  split; [rewrite Hfo'; reflexivity|].
  split; [rewrite Hhead; reflexivity|].
  split.
  { intros k Hk. rewrite Hbin, lookup_total_insert.
    destruct (decide (bin_of total_size = k)) as [<-|Hne].
    - rewrite decide_True by reflexivity. reflexivity.
    - rewrite decide_False by congruence. apply Ebin, Hk. }
  split; [rewrite Hsize, decide_True by reflexivity; reflexivity|].
  split; [rewrite Hoff, decide_True by reflexivity; reflexivity|].
  assert (Eb : bin_list a0 (bin_of total_size) = BLOCK_ALLOCATOR_UNUSED) by (apply Ebin; lia).
  assert (HU : BLOCK_ALLOCATOR_UNUSED <> 0) by (consts; lia).
  split; [rewrite (Hmp 0 H0), decide_False, decide_True by auto; reflexivity|].
  split; [rewrite (Hmn 0 H0), decide_False, decide_True by auto; reflexivity|].
  split; [rewrite Hbn, decide_True by reflexivity; exact Eb|].
  split; [rewrite (Hbp 0 H0), Eb, decide_False, decide_True by auto; reflexivity|].
  destruct (size_to_bin_index_spec total_size Hs) as (t & b & E & Ht & Hbb).
  destruct Hbits as (t2 & b2 & Ebin2 & Ht2 & Hb2 & Etop2 & Ebot2).
  assert (Et : t2 = t /\ b2 = b).
  { unfold bin_of in Ebin2. rewrite E in Ebin2. cbn [fst] in Ebin2. lia. }
  destruct Et as [-> ->].
  exists t, b. split; [exact E|]. split; [exact Ht|]. split; [exact Hbb|].
  split.
  - rewrite Etop2, Etop, Z.lor_0_l, shiftl_pow2_u32 by lia. reflexivity.
  - intros t' Ht'. rewrite Ebot2, lookup_total_insert.
    destruct (decide (t = t')) as [<-|Hne].
    + rewrite decide_True by reflexivity. rewrite Ebot by lia.
      rewrite Z.lor_0_l, shiftl_pow2_u8 by lia. reflexivity.
    + rewrite decide_False by congruence. apply Ebot, Ht'.
Qed.

Lemma init_state total_size :
  1 <= total_size <= 0xffffffff ->
  let a := snd (block_allocator_init total_size) in
  free_offset a = 1 /\ head_block a = 0 /\
  (forall k, 0 <= k < 256 ->
     bin_list a k = if decide (k = bin_of total_size) then 0 else BLOCK_ALLOCATOR_UNUSED) /\
  size (block_at a 0) = total_size /\ offset (block_at a 0) = 0 /\
  mem_prev (block_at a 0) = BLOCK_ALLOCATOR_UNUSED /\
  mem_next (block_at a 0) = BLOCK_ALLOCATOR_UNUSED /\
  bin_next (block_at a 0) = BLOCK_ALLOCATOR_UNUSED /\
  bin_prev (block_at a 0) = Z.lor BLOCK_ALLOCATOR_HEAD_BITS (bin_of total_size).
Proof.
  intros Hsz. destruct (init_state_any total_size ltac:(lia)) as
    (H1 & H2 & H3 & H4 & H5 & H6 & H7 & H8 & H9 & _).
  cbv zeta. auto 10.
Qed.

(** A request for the whole heap finds no bin strictly above its own. *)
Lemma fresh_alloc_total total_size :
  1 <= total_size <= 0xffffffff ->
  block_allocator_alloc (snd (block_allocator_init total_size)) total_size =
  (BLOCK_ALLOCATOR_OUT_OF_MEMORY, snd (block_allocator_init total_size), None).
Proof.
  intros Hsz.
  pose proof (init_inv total_size Hsz) as Hinv.
  destruct (init_state total_size Hsz) as (_ & _ & Hbin & _).
  assert (Hnone : forall k, bin_of total_size < k < 256 ->
            bin_list (snd (block_allocator_init total_size)) k = BLOCK_ALLOCATOR_UNUSED).
  { intros k Hk. pose proof (bin_of_range total_size ltac:(lia)).
    rewrite Hbin by lia. rewrite decide_False by lia. reflexivity. }
  revert Hinv Hnone. generalize (snd (block_allocator_init total_size)). intros a Hinv Hnone.
  destruct (alloc_cases a [0] [] total_size Hinv ltac:(lia))
    as [[Hz E]|[(Hz & Hk & E)|[(Hz & Hk & _)|(Hz & Hk & _)]]]; try exact E.
  - destruct Hk as (k & Hk & Hne). elim Hne. apply Hnone, Hk.
  - destruct Hk as (k & Hk & Hne). elim Hne. apply Hnone, Hk.
Qed.

(** ** A successful allocation, field by field *)

Lemma alloc_success_detail a ch hs sz :
  state_inv a ch hs -> 0 < sz < 2 ^ 32 ->
  (exists k, bin_of sz < k < 256 /\ bin_list a k <> BLOCK_ALLOCATOR_UNUSED) ->
  free_offset a <> BLOCK_ALLOCATOR_MAX_ALLOCS ->
  exists p k,
    bin_of sz < k < 256 /\ bin_list a k = p /\ p ∈ ch /\
    block_allocator_is_used (block_at a p) = false /\
    let j := free_block a (free_offset a) in
    let rest := u32 (size (block_at a p) - sz) in
    let a' := alloc_state a sz in
    alloc_result a sz = BLOCK_ALLOCATOR_SUCCESS /\
    alloc_out a sz = Some (Allocation (offset (block_at a p)) sz p) /\
    free_offset a' = free_offset a + 1 /\
    free_blocks a' = free_blocks a /\
    0 <= j < BLOCK_ALLOCATOR_MAX_ALLOCS /\ (j ∉ ch) /\
    0 < rest /\
    size (block_at a' j) = rest /\
    offset (block_at a' j) = u32 (offset (block_at a p) + sz) /\
    bin_list a' (bin_of rest) = j /\
    block_allocator_is_used (block_at a' j) = false /\
    size (block_at a' p) = sz /\
    offset (block_at a' p) = offset (block_at a p) /\
    block_allocator_is_used (block_at a' p) = true /\
    mem_next (block_at a' p) = j /\ mem_prev (block_at a' j) = p /\
    (forall x, x ∈ ch -> x <> p ->
       block_allocator_is_used (block_at a' x) = block_allocator_is_used (block_at a x) /\
       size (block_at a' x) = size (block_at a x) /\
       offset (block_at a' x) = offset (block_at a x)) /\
    (forall k', bin_of sz < k' < k -> bin_list a k' = BLOCK_ALLOCATOR_UNUSED).
Proof.
  intros Hinv Hsz (k0 & Hk0 & Hk0ne) Hfree.
  destruct (size_to_bin_index_spec sz ltac:(lia)) as (t & b & E & Ht & Hb).
  assert (Ebin : bin_of sz = 8 * t + b) by (unfold bin_of; rewrite E; reflexivity).
  pose proof (state_inv_core a ch hs Hinv) as Hcore.
  pose proof Hcore as (Hpool & Hbr & Hbc & Hbins).
  pose proof (eq_refl (block_allocator_alloc a sz)) as Hval.
  unfold block_allocator_alloc at 2 in Hval.
  rewrite (proj2 (Z.eqb_neq sz 0) ltac:(lia)), E in Hval.
  destruct (alloc_find_bin a t b) as [[t' b']|] eqn:Ef.
  2: { exfalso. apply Hk0ne.
       apply (alloc_find_bin_None a Hbr Hbc t b ltac:(lia) Hb Ef). lia. }
  destruct (alloc_find_bin_Some a Hbr Hbc t b ltac:(lia) Hb t' b' Ef)
    as (Ht' & Hb' & Hne & Hlt).
  pose proof (alloc_find_bin_least a Hbr Hbc t b ltac:(lia) Hb t' b' Ef) as Hleast.
  assert (Hbin : bin_of sz <> 8 * t' + b') by lia.
  rewrite (surjective_pairing (alloc_pop a t' b')) in Hval.
  destruct (alloc_pop_facts a ch hs t' b' Hinv Ht' Hb' Hne)
    as (Efst & Hin & Hf & Hbh & Hcore1 & Hu1 & Ho1 & [_ Hlay] & Efo).
  destruct (bins_head a ch Hbins (8 * t' + b') ltac:(lia) Hne) as (_ & Hbp & _).
  destruct (pop_spec a t' b' Ht' Hb' Hbp) as (_ & _ & _ & _ & _ & Efb).
  rewrite Efst in Hval.
  set (h := bin_list a (8 * t' + b')) in *.
  set (a1 := snd (alloc_pop a t' b')) in *.
  cbv beta iota zeta in Hval.
  pose proof (alloc_remaining a ch hs t' b' sz Hinv Ht' Hb' Hne Hsz Hbin) as Hrem.
  fold a1 in Hrem. fold h in Hrem. rewrite Hrem in Hval.
  destruct (insert_spec a1 (u32 (offset (block_at a1 h) + sz))
              (u32 (size (block_at a1 h) - sz)) h (mem_next (block_at a1 h)))
    as (a2 & Eins & Heff); [congruence|apply u32_range|].
  rewrite Eins in Hval.
  change (BLOCK_ALLOCATOR_SUCCESS =? BLOCK_ALLOCATOR_OUT_OF_MEMORY) with false in Hval.
  cbv iota in Hval.
  assert (Hfo1 : free_offset a1 <> BLOCK_ALLOCATOR_MAX_ALLOCS) by congruence.
  destruct (core_insert a1 a2 ch _ _ _ _ Hcore1 Hfo1 (u32_range _) Heff)
    as (Hj & Hnj & Hcore2 & Hfree2 & Hused2).
  destruct Heff as [Hfo' Hfb' _ Hbl' _ _ _ Hsize Hoff Hmn Hmp].
  assert (Ej : free_block a1 (free_offset a1) = free_block a (free_offset a))
    by (rewrite Efo, Efb; reflexivity).
  rewrite Ej in *.
  set (j := free_block a (free_offset a)) in *.
  pose proof (core_range a ch Hcore) as Hr.
  assert (Hjh : j <> h) by (intros Ejh; apply Hnj; rewrite Ejh; exact Hin).
  destruct (Hlay h) as (Eoff & Esz & _).
  rewrite Esz, Eoff in *.
  exists h, (8 * t' + b').
  split; [lia|]. split; [reflexivity|]. split; [exact Hin|]. split; [exact Hf|].
  unfold alloc_result, alloc_out, alloc_state. rewrite Hval. cbn [fst snd].
  assert (Hu3 : forall x, block_allocator_is_used (block_at (store_size h sz a2) x) =
                          block_allocator_is_used (block_at a2 x))
    by (intros x; unfold block_allocator_is_used; rwg; reflexivity).
  pose proof (pool_le a ch Hpool) as Hle.
  pose proof (pool_len a ch Hpool) as Hlen.
  split; [reflexivity|]. split.
  { f_equal. f_equal; rwg.
    - rewrite Hoff, decide_False by exact Hjh. exact Eoff.
    - rewrite decide_True by reflexivity. reflexivity. }
  split. { rwg. rewrite Hfo', Efo. apply u32_id. consts. lia. }
  split. { rwg. rewrite Hfb'. exact Efb. }
  split; [exact Hj|]. split; [exact Hnj|].
  split; [apply Z.ltb_lt; exact Hrem|].
  split. { rwg. rewrite decide_False by congruence. rewrite Hsize, decide_True by reflexivity. reflexivity. }
  split. { rwg. rewrite Hoff, decide_True by reflexivity. reflexivity. }
  split. { rwg. rewrite Hbl', lookup_total_insert, decide_True by reflexivity. reflexivity. }
  split. { rewrite Hu3. exact Hfree2. }
  split. { rwg. rewrite decide_True by reflexivity. reflexivity. }
  split. { rwg. rewrite Hoff, decide_False by exact Hjh. exact Eoff. }
  split. { rewrite Hu3, Hused2 by exact Hin. exact Hu1. }
  split. { rwg. rewrite (Hmn h (Hr h Hin)), decide_True by reflexivity. reflexivity. }
  split. { rwg. rewrite (Hmp j Hj). case_decide as Hd.
           - exfalso. destruct (Hlay h) as (_ & _ & _ & Emn).
             pose proof (chain_links a ch (state_inv_chain a ch hs Hinv)) as Hseg.
             destruct (list_elem_of_split ch h Hin) as (l1 & l2 & Ech).
             rewrite Ech in Hseg. apply chain_seg_app in Hseg as [_ Hs].
             cbn [chain_seg] in Hs. destruct Hs as (_ & Hs & _).
             rewrite Emn, Hs in Hd.
             destruct l2 as [|n l2]; cbn [head default from_option id] in Hd.
             + rewrite <- Hd in Hj. revert Hj. consts. lia.
             + apply Hnj. rewrite <- Hd, Ech. set_solver.
           - rewrite decide_True by reflexivity. reflexivity. }
  split.
  { intros x Hx Hxh. split; [|split].
    - rewrite Hu3, Hused2 by exact Hx. apply Ho1; assumption.
    - rwg. rewrite decide_False by congruence.
      rewrite Hsize, decide_False by (intros Ejx; apply Hnj; rewrite Ejx; exact Hx).
      apply (Hlay x).
    - rwg. rewrite Hoff, decide_False by (intros Ejx; apply Hnj; rewrite Ejx; exact Hx).
      apply (Hlay x). }
  intros k' Hk'. apply Hleast. lia.
Qed.

(** ** An allocation that finds the pool used up *)

Lemma alloc_full_detail a ch hs sz :
  state_inv a ch hs -> 0 < sz < 2 ^ 32 ->
  (exists k, bin_of sz < k < 256 /\ bin_list a k <> BLOCK_ALLOCATOR_UNUSED) ->
  free_offset a = BLOCK_ALLOCATOR_MAX_ALLOCS ->
  exists p k,
    bin_of sz < k < 256 /\ bin_list a k = p /\ p ∈ ch /\
    block_allocator_is_used (block_at a p) = false /\
    let a' := alloc_state a sz in
    alloc_result a sz = BLOCK_ALLOCATOR_OUT_OF_MEMORY /\
    alloc_out a sz = None /\
    state_inv a' ch hs /\
    block_allocator_is_used (block_at a' p) = true /\
    size (block_at a' p) = size (block_at a p) /\
    free_offset a' = free_offset a /\
    (forall h, In h hs -> alloc_metadata h <> p).
Proof.
  intros Hinv Hsz (k0 & Hk0 & Hk0ne) Hfull.
  destruct (size_to_bin_index_spec sz ltac:(lia)) as (t & b & E & Ht & Hb).
  assert (Ebin : bin_of sz = 8 * t + b) by (unfold bin_of; rewrite E; reflexivity).
  pose proof (state_inv_core a ch hs Hinv) as (Hpool & Hbr & Hbc & Hbins).
  pose proof (eq_refl (block_allocator_alloc a sz)) as Hval.
  unfold block_allocator_alloc at 2 in Hval.
  rewrite (proj2 (Z.eqb_neq sz 0) ltac:(lia)), E in Hval.
  destruct (alloc_find_bin a t b) as [[t' b']|] eqn:Ef.
  2: { exfalso. apply Hk0ne.
       apply (alloc_find_bin_None a Hbr Hbc t b ltac:(lia) Hb Ef). lia. }
  destruct (alloc_find_bin_Some a Hbr Hbc t b ltac:(lia) Hb t' b' Ef)
    as (Ht' & Hb' & Hne & Hlt).
  assert (Hbin : bin_of sz <> 8 * t' + b') by lia.
  rewrite (surjective_pairing (alloc_pop a t' b')) in Hval.
  destruct (alloc_pop_facts a ch hs t' b' Hinv Ht' Hb' Hne)
    as (Efst & Hin & Hf & Hbh & Hcore1 & Hu1 & Ho1 & [_ Hlay] & Efo).
  pose proof (alloc_pop_inv a ch hs t' b' Hinv Ht' Hb' Hne) as Hinv1.
  rewrite Efst in Hval.
  set (h := bin_list a (8 * t' + b')) in *.
  set (a1 := snd (alloc_pop a t' b')) in *.
  cbv beta iota zeta in Hval.
  pose proof (alloc_remaining a ch hs t' b' sz Hinv Ht' Hb' Hne Hsz Hbin) as Hrem.
  fold a1 in Hrem. fold h in Hrem. rewrite Hrem in Hval.
  rewrite insert_full in Hval by congruence.
  exists h, (8 * t' + b').
  split; [lia|]. split; [reflexivity|]. split; [exact Hin|]. split; [exact Hf|].
  unfold alloc_result, alloc_out, alloc_state. rewrite Hval. cbn [fst snd].
  split; [reflexivity|]. split; [reflexivity|]. split; [exact Hinv1|].
  split; [exact Hu1|]. split; [apply (Hlay h)|]. split; [exact Efo|].
  intros x Hx. apply (alloc_handle_fresh a ch hs t' b' Hinv Ht' Hb' Hne x Hx).
Qed.

(** * Using up the block pool

    Starting from [init(0xFFFFFFFF)], every [alloc(1)] splits one byte off a
    large free block and takes one more slot from the pool. *)

Lemma bin_of_large s : 2 ^ 31 <= s < 2 ^ 32 -> 224 <= bin_of s.
Proof.
  intros Hs. unfold bin_of, block_allocator_size_to_bin_index, clz.
  destruct (Z.eqb_spec s 0) as [|_]; [lia|].
  assert (El : Z.log2 s = 31) by (apply Z.log2_unique; lia).
  rewrite El. change (31 - 31) with 0. change (28 <? 0) with false. cbv iota.
  change (28 - 0) with 28. cbn [fst].
  assert (Hb : 0 <= Z.land (Z.shiftr s 28) 7 < 8).
  { change 7 with (Z.ones 3). rewrite Z.land_ones by lia.
    apply Z.mod_pos_bound. lia. }
  rewrite lor_shiftl3 by lia. lia.
Qed.

Lemma drained_init : drained 0 (snd (block_allocator_init 0xffffffff)).
Proof.
  assert (Hsz : 1 <= 0xffffffff <= 0xffffffff) by lia.
  pose proof (init_inv _ Hsz) as Hinv.
  destruct (init_state _ Hsz) as (Hfo & _ & Hbin & Hsize & _).
  exists [0], []. split; [exact Hinv|]. split; [apply reach_init; exact Hsz|].
  split; [exact Hfo|]. split.
  - exists (bin_of 0xffffffff).
    assert (Hb : 224 <= bin_of 0xffffffff) by (apply bin_of_large; lia).
    pose proof (bin_of_range 0xffffffff ltac:(lia)).
    split; [lia|]. rewrite Hbin by lia. rewrite decide_True by reflexivity.
    unfold BLOCK_ALLOCATOR_UNUSED. lia.
  - intros x Hx _. apply list_elem_of_singleton in Hx as ->. rewrite Hsize. lia.
Qed.

Lemma bin_of_one : bin_of 1 = 1.
Proof. reflexivity. Qed.

Lemma drained_step m a :
  drained m a -> 0 <= m -> m + 1 < BLOCK_ALLOCATOR_MAX_ALLOCS ->
  alloc_result a 1 = BLOCK_ALLOCATOR_SUCCESS /\ drained (m + 1) (alloc_state a 1).
Proof.
  intros (ch & hs & Hinv & Hr & Hfo & (k & Hk & Hkne) & Hbig) Hm Hlt.
  assert (Hsz : 0 < 1 < 2 ^ 32) by lia.
  assert (Hex : exists k, bin_of 1 < k < 256 /\ bin_list a k <> BLOCK_ALLOCATOR_UNUSED)
    by (exists k; rewrite bin_of_one; split; [lia|exact Hkne]).
  assert (Hfree : free_offset a <> BLOCK_ALLOCATOR_MAX_ALLOCS) by lia.
  destruct (alloc_success_detail a ch hs 1 Hinv Hsz Hex Hfree)
    as (p & kp & Hkp & Ep & Hp & Hpf & Hd).
  cbv zeta in Hd.
  destruct Hd as (Eres & Eout & Efo' & Efb' & Hj & Hnj & Hrest & Esj & _ & Ebj & Hjf &
                  _ & _ & Hpu & _ & _ & Hframe & _).
  split; [exact Eres|].
  destruct (alloc_cases a ch hs 1 Hinv ltac:(lia))
    as [[Hz _]|[(_ & _ & E)|[(_ & _ & Hfull & _)|(_ & _ & _ & a' & h & ch' & E & Hinv')]]];
    [lia| |contradiction|].
  { unfold alloc_result in Eres. rewrite E in Eres. discriminate. }
  assert (Ea' : alloc_state a 1 = a') by (unfold alloc_state; rewrite E; reflexivity).
  rewrite Ea' in *.
  pose proof (chain_sizes a ch (state_inv_chain a ch hs Hinv) p Hp) as Hpr.
  pose proof (Hbig p Hp Hpf) as Hpb.
  assert (HM : BLOCK_ALLOCATOR_MAX_ALLOCS = 131072) by reflexivity.
  assert (Erest : u32 (size (block_at a p) - 1) = size (block_at a p) - 1)
    by (apply u32_id; lia).
  rewrite Erest in *.
  exists ch', (h :: hs). split; [exact Hinv'|].
  split; [apply (reach_alloc a hs 1 a' h Hr ltac:(lia) E)|].
  split; [lia|]. split.
  - exists (bin_of (size (block_at a p) - 1)).
    assert (224 <= bin_of (size (block_at a p) - 1)) by (apply bin_of_large; lia).
    assert (bin_of (size (block_at a p) - 1) < 232) by (apply bin_of_range; lia).
    split; [lia|]. rewrite Ebj. unfold BLOCK_ALLOCATOR_UNUSED. lia.
  - intros x Hx Hxf.
    destruct (Z.eq_dec x (free_block a (free_offset a))) as [->|Hxj]; [rewrite Esj; lia|].
    assert (Hxch : x ∈ ch).
    { pose proof (chain_slot_live a' ch' (h :: hs) x Hinv' Hx) as [Hxr Hnp].
      destruct (pool_total a ch (proj1 Hinv) x Hxr) as [H|(i & Hi & Ei)]; [exact H|].
      exfalso. apply Hnp. exists i. rewrite Efo'. unfold free_block in *.
      rewrite Efb'. split; [|exact Ei].
      destruct (Z.eq_dec i (free_offset a)) as [->|]; [congruence|lia]. }
    assert (Hxp : x <> p) by (intros ->; congruence).
    destruct (Hframe x Hxch Hxp) as (Eu & Es & _).
    rewrite Es. rewrite Eu in Hxf. specialize (Hbig x Hxch Hxf). lia.
Qed.

Lemma drained_repeat n : forall m a errors,
  drained m a -> 0 <= m -> m + Z.of_nat n < BLOCK_ALLOCATOR_MAX_ALLOCS ->
  drained (m + Z.of_nat n) (fst (alloc_repeat n 1 a errors)) /\
  snd (alloc_repeat n 1 a errors) = errors.
Proof.
  induction n as [|n IH]; intros m a errors Hd Hm Hlt.
  - cbn [alloc_repeat fst snd]. rewrite Z.add_0_r. auto.
  - cbn [alloc_repeat].
    destruct (drained_step m a Hd Hm ltac:(lia)) as [Eres Hd'].
    rewrite Eres. change (BLOCK_ALLOCATOR_SUCCESS =? BLOCK_ALLOCATOR_SUCCESS) with true.
    cbv iota.
    destruct (IH (m + 1) (alloc_state a 1) errors Hd' ltac:(lia) ltac:(lia)) as [H1 H2].
    split; [|exact H2].
    replace (m + Z.of_nat (S n)) with (m + 1 + Z.of_nat n) by lia. exact H1.
Qed.

(** After 131071 allocations of one byte the pool is used up, every call
    having succeeded, and a free block is left in a bin above that of a
    one-byte request. *)
Lemma pool_exhausted :
  let r := alloc_repeat (Z.to_nat (BLOCK_ALLOCATOR_MAX_ALLOCS - 1)) 1
             (snd (block_allocator_init 0xffffffff)) 0 in
  snd r = 0 /\ reachable_state (fst r) /\
  free_offset (fst r) = BLOCK_ALLOCATOR_MAX_ALLOCS /\
  ~ no_bin_above (fst r) 1.
Proof.
  cbv zeta.
  generalize (drained_repeat (Z.to_nat (BLOCK_ALLOCATOR_MAX_ALLOCS - 1)) 0
                (snd (block_allocator_init 0xffffffff)) 0 drained_init).
  generalize (alloc_repeat (Z.to_nat (BLOCK_ALLOCATOR_MAX_ALLOCS - 1)) 1
                (snd (block_allocator_init 0xffffffff)) 0).
  intros r H.
  assert (E : Z.of_nat (Z.to_nat (BLOCK_ALLOCATOR_MAX_ALLOCS - 1)) =
              BLOCK_ALLOCATOR_MAX_ALLOCS - 1) by (apply Z2Nat.id; reflexivity || discriminate).
  rewrite E in H.
  destruct H as [(ch & hs & Hinv & Hr & Hfo & (k & Hk & Hne) & _) He]; [lia|lia|].
  split; [exact He|]. split; [exists hs; exact Hr|]. split; [lia|].
  intros Hn. apply Hne, Hn. rewrite bin_of_one. lia.
Qed.

(** * Size classes

    [block_allocator_size_to_bin_index] keeps the four leading bits of a
    size of 8 or more: the top index is the position of the leading bit
    minus 3, the bottom index the three bits after it. *)

Lemma bin_of_small s : 0 <= s < 8 -> bin_of s = s.
Proof.
  intros Hs.
  assert (H : all_below 8 (fun s => bin_of s =? s) = true) by (vm_compute; reflexivity).
  apply Z.eqb_eq. apply (all_below_spec 8 _ H s). lia.
Qed.

Lemma size_to_bin_index_large s :
  8 <= s < 2 ^ 32 ->
  let t := Z.log2 s - 3 in
  let q := s / 2 ^ t in
  block_allocator_size_to_bin_index s = (8 * t + (q - 8), t, q - 8) /\
  0 <= t <= 28 /\ 8 <= q < 16 /\ q * 2 ^ t <= s < (q + 1) * 2 ^ t.
Proof.
  intros Hs t q.
  pose proof (Z.log2_spec s ltac:(lia)) as HL.
  assert (HL3 : 3 <= Z.log2 s) by (apply Z.log2_le_pow2; lia).
  assert (HL31 : Z.log2 s < 32) by (apply Z.log2_lt_pow2; lia).
  assert (Ht : 0 <= t <= 28) by (unfold t; lia).
  assert (Hp : 0 < 2 ^ t) by (apply Z.pow_pos_nonneg; lia).
  assert (E8 : 2 ^ Z.log2 s = 8 * 2 ^ t).
  { replace (Z.log2 s) with (3 + t) by (unfold t; lia).
    rewrite Z.pow_add_r by lia. reflexivity. }
  assert (E16 : 2 ^ Z.succ (Z.log2 s) = 16 * 2 ^ t).
  { replace (Z.succ (Z.log2 s)) with (4 + t) by (unfold t; lia).
    rewrite Z.pow_add_r by lia. reflexivity. }
  assert (Hq : 8 <= q < 16).
  { unfold q. split.
    - apply Z.div_le_lower_bound; lia.
    - apply Z.div_lt_upper_bound; lia. }
  assert (Hdiv : q * 2 ^ t <= s < (q + 1) * 2 ^ t).
  { unfold q. pose proof (Z.mul_div_le s (2 ^ t) Hp).
    pose proof (Z.mul_succ_div_gt s (2 ^ t) Hp). lia. }
  split; [|auto].
  unfold block_allocator_size_to_bin_index, clz. cbv zeta.
  destruct (Z.eqb_spec s 0); [lia|].
  replace (28 <? 31 - Z.log2 s) with false by (symmetry; apply Z.ltb_ge; lia).
  replace (28 - (31 - Z.log2 s)) with t by (unfold t; lia).
  rewrite Z.shiftr_div_pow2 by lia. fold q.
  assert (Eb : Z.land q 7 = q - 8).
  { change 7 with (Z.ones 3). rewrite Z.land_ones by lia.
    symmetry. apply (Z.mod_unique q (2 ^ 3) 1 (q - 8)); lia. }
  rewrite Eb, lor_shiftl3 by lia. reflexivity.
Qed.

Lemma bin_of_large_eq s :
  8 <= s < 2 ^ 32 ->
  bin_of s = 8 * (Z.log2 s - 3) + (s / 2 ^ (Z.log2 s - 3) - 8).
Proof.
  intros Hs. destruct (size_to_bin_index_large s Hs) as (E & _).
  unfold bin_of. rewrite E. reflexivity.
Qed.

(** From 8 bytes on, a larger size never maps to a lower bin. *)
Lemma bin_of_mono s s' : 8 <= s <= s' -> s' < 2 ^ 32 -> bin_of s <= bin_of s'.
Proof.
  intros Hs Hs'.
  destruct (size_to_bin_index_large s ltac:(lia)) as (_ & Ht & Hq & _).
  destruct (size_to_bin_index_large s' ltac:(lia)) as (_ & Ht' & Hq' & _).
  rewrite !bin_of_large_eq by lia.
  pose proof (Z.log2_le_mono s s' ltac:(lia)) as Hl.
  destruct (Z.eq_dec (Z.log2 s) (Z.log2 s')) as [E|Hne].
  - rewrite <- E in *.
    assert (0 < 2 ^ (Z.log2 s - 3)) by (apply Z.pow_pos_nonneg; lia).
    pose proof (Z.div_le_mono s s' (2 ^ (Z.log2 s - 3)) ltac:(lia) ltac:(lia)). lia.
  - lia.
Qed.

(** Outside the requests of 8 to 15 bytes, a block in a bin above that of
    the request is larger than the request. *)
Lemma higher_bin_larger sz s :
  1 <= sz < 2 ^ 32 -> 0 <= s < 2 ^ 32 -> ~ 8 <= sz <= 15 ->
  bin_of sz < bin_of s -> sz < s.
Proof.
  intros Hsz Hs Hout Hbin.
  destruct (Z.lt_ge_cases sz 8) as [Hlo|Hhi].
  - rewrite (bin_of_small sz) in Hbin by lia.
    destruct (Z.lt_ge_cases s 8) as [Hs8|Hs8]; [|lia].
    rewrite (bin_of_small s) in Hbin by lia. exact Hbin.
  - assert (H16 : 16 <= sz) by lia.
    assert (Hb8 : 8 <= bin_of sz).
    { destruct (size_to_bin_index_large sz ltac:(lia)) as (_ & _ & Hq & _).
      rewrite bin_of_large_eq by lia.
      assert (4 <= Z.log2 sz) by (apply Z.log2_le_pow2; lia). lia. }
    destruct (Z.lt_ge_cases s 8) as [Hs8|Hs8].
    + rewrite (bin_of_small s) in Hbin by lia. lia.
    + destruct (Z.lt_ge_cases sz s) as [|Hle]; [assumption|].
      pose proof (bin_of_mono s sz ltac:(lia) ltac:(lia)). lia.
Qed.

(** * The Odin port against the C code *)

Lemma shiftl_one_u32 t : 0 <= t < 32 -> u32 (Z.shiftl 1 t) = Z.shiftl 1 t.
Proof.
  intros Ht. apply u32_id. rewrite Z.shiftl_1_l. split; [apply Z.pow_nonneg; lia|].
  apply Z.pow_lt_mono_r; lia.
Qed.

Lemma shiftl_one_u8 b : 0 <= b < 8 -> u8 (Z.shiftl 1 b) = Z.shiftl 1 b.
Proof.
  intros Hb. unfold u8. apply Z.mod_small. rewrite Z.shiftl_1_l.
  split; [apply Z.pow_nonneg; lia|]. apply Z.pow_lt_mono_r; lia.
Qed.

(** [insert_block] with room in the pool is [block_allocator_insert]. *)
Lemma odin_insert_block_room a n o s mp mn :
  0 <= s < 2 ^ 32 ->
  free_offset a <> u32 n -> free_offset a <> BLOCK_ALLOCATOR_MAX_ALLOCS ->
  Odin.insert_block (Odin.Make a n) o s mp mn =
  (true, Odin.Make (snd (block_allocator_insert a o s mp mn)) n) /\
  fst (block_allocator_insert a o s mp mn) = BLOCK_ALLOCATOR_SUCCESS.
Proof.
  intros Hs Hn Hmax.
  destruct (size_to_bin_index_spec s Hs) as (t & b & E & Ht & Hb).
  unfold Odin.insert_block, block_allocator_insert.
  change (Odin.size_to_bin_index s) with (block_allocator_size_to_bin_index s).
  rewrite E. cbn [Odin.fields Odin.max_allocs].
  rewrite shiftl_one_u32, shiftl_one_u8 by lia.
  rewrite (proj2 (Z.eqb_neq _ _) Hmax).
  rwg. rewrite (proj2 (Z.eqb_neq _ _) Hn).
  split; reflexivity.
Qed.

(** [remove_block] is [block_allocator_remove]. *)
Lemma odin_remove_block a n i :
  Odin.remove_block (Odin.Make a n) i = Odin.Make (block_allocator_remove a i) n.
Proof.
  unfold Odin.remove_block, block_allocator_remove, release_slot.
  cbn [Odin.fields Odin.max_allocs].
  destruct (negb (Z.land (bin_prev (block_at a i)) Odin.BLOCK_HEAD_BITS =? 0)) eqn:Eh;
    change Odin.BLOCK_HEAD_BITS with BLOCK_ALLOCATOR_HEAD_BITS in Eh; rewrite Eh;
    cbn [negb];
    change Odin.BLOCK_UNUSED with BLOCK_ALLOCATOR_UNUSED;
    destruct (bin_next (block_at a i) =? BLOCK_ALLOCATOR_UNUSED); reflexivity.
Qed.

(** [block_free] runs the steps of [block_allocator_free] without the test
    of the size field, and ends in [insert_block]. *)
Lemma odin_block_free_unfold a n h :
  Odin.block_free (Odin.Make a n) h =
  snd (Odin.insert_block (Odin.Make (snd (free_merged a h)) n)
         (offset (fst (free_merged a h))) (size (fst (free_merged a h)))
         (mem_prev (fst (free_merged a h))) (mem_next (fst (free_merged a h)))).
Proof.
  unfold Odin.block_free, free_merged, free_merge_prev, free_merge_next, release_slot.
  cbn [Odin.fields Odin.max_allocs]. cbv zeta.
  change Odin.block_is_used with block_allocator_is_used.
  change Odin.BLOCK_UNUSED with BLOCK_ALLOCATOR_UNUSED.
  set (b0 := block_at a (alloc_metadata h)).
  set (a1 := set_free_block _ _ _).
  destruct (negb (mem_prev b0 =? BLOCK_ALLOCATOR_UNUSED) &&
            negb (block_allocator_is_used (block_at a1 (mem_prev b0)))) eqn:E1.
  - rewrite odin_remove_block. cbn [Odin.fields fst snd].
    match goal with |- context [if ?c then _ else _] =>
      destruct c eqn:E2 end.
    + rewrite odin_remove_block. reflexivity.
    + reflexivity.
  - cbn [fst snd].
    match goal with |- context [if ?c then _ else _] =>
      destruct c eqn:E2 end.
    + rewrite odin_remove_block. reflexivity.
    + reflexivity.
Qed.

Lemma store_bin_prev_next_comm i u v a :
  store_bin_prev i u (store_bin_next i v a) = store_bin_next i v (store_bin_prev i u a).
Proof.
  unfold store_bin_prev, store_bin_next, set_block.
  cbn [blocks top_bins bottom_bins bin_lists head_block free_blocks free_offset].
  rewrite !lookup_total_insert_eq, !insert_insert_eq. reflexivity.
Qed.

Lemma land_lnot_byte x : 0 <= x < 2 ^ 8 -> Z.land x (Z.lnot 255) = 0.
Proof.
  intros Hx. rewrite <- Z.ldiff_land. change 255 with (Z.ones 8).
  rewrite Z.ldiff_ones_r by lia.
  rewrite Z.shiftr_div_pow2, Z.div_small by lia. reflexivity.
Qed.

(** The search of the port, which has neither the test [bottom_index == 7]
    nor the test [top_index == 31], finds the bin the C code finds. *)
Lemma odin_search a t b :
  bitmaps_in_range a -> bitmaps_consistent a -> 0 <= t <= 28 -> 0 <= b < 8 ->
  (let bigger_bottoms :=
     u8 (Z.land (bottom_bin a t) (Z.lnot (u8 (u8 (Z.shiftl 1 (b + 1)) - 1)))) in
   if negb (bigger_bottoms =? 0) then Some (t, Odin.ctz8 bigger_bottoms)
   else
     let bigger_tops :=
       u32 (Z.land (top_bins a) (Z.lnot (u32 (u32 (Z.shiftl 1 (t + 1)) - 1)))) in
     if bigger_tops =? 0 then None
     else
       let top_index := ctz bigger_tops in
       Some (top_index, Odin.ctz8 (bottom_bin a top_index))) =
  alloc_find_bin a t b.
Proof.
  intros [Hr1 Hr2] [Hc1 Hc2] Ht Hb. unfold alloc_find_bin. cbv zeta.
  assert (Ebot : u8 (Z.land (bottom_bin a t) (Z.lnot (u8 (u8 (Z.shiftl 1 (b + 1)) - 1)))) =
                 if b =? 7 then 0
                 else u8 (Z.land (bottom_bin a t) (Z.lnot (Z.shiftl 1 (b + 1) - 1)))).
  { destruct (Z.eqb_spec b 7) as [->|Hb7].
    - change (u8 (u8 (Z.shiftl 1 (7 + 1)) - 1)) with 255.
      rewrite land_lnot_byte by (apply Hr2; lia). reflexivity.
    - rewrite shiftl_one_u8 by lia.
      assert (Hp : 1 <= Z.shiftl 1 (b + 1) < 2 ^ 8).
      { rewrite Z.shiftl_1_l. split; [|apply Z.pow_lt_mono_r; lia].
        assert (0 < 2 ^ (b + 1)) by (apply Z.pow_pos_nonneg; lia). lia. }
      replace (u8 (Z.shiftl 1 (b + 1) - 1)) with (Z.shiftl 1 (b + 1) - 1)
        by (unfold u8; rewrite Z.mod_small; lia).
      reflexivity. }
  rewrite Ebot.
  set (m := if b =? 7 then 0
            else u8 (Z.land (bottom_bin a t) (Z.lnot (Z.shiftl 1 (b + 1) - 1)))).
  destruct (Z.eqb_spec m 0) as [Hm|Hm]; cbn [negb].
  - destruct (Z.eqb_spec t 31) as [|_]; [lia|].
    rewrite shiftl_one_u32 by lia.
    assert (Hp : 1 <= Z.shiftl 1 (t + 1) < 2 ^ 32).
    { rewrite Z.shiftl_1_l. split; [|apply Z.pow_lt_mono_r; lia].
      assert (0 < 2 ^ (t + 1)) by (apply Z.pow_pos_nonneg; lia). lia. }
    rewrite (u32_id (Z.shiftl 1 (t + 1) - 1)) by lia.
    set (mt := u32 (Z.land (top_bins a) (Z.lnot (Z.shiftl 1 (t + 1) - 1)))).
    destruct (Z.eqb_spec mt 0) as [Hmt|Hmt]; [reflexivity|].
    destruct (ctz_spec 32 mt ltac:(lia) (u32_range _) Hmt) as (Hbit & Hc & _).
    unfold mt at 1 in Hbit. rewrite testbit_u32, testbit_above in Hbit by lia.
    apply andb_true_iff in Hbit as [Hbit _].
    apply Hc1 in Hbit; [|lia].
    unfold Odin.ctz8. rewrite (proj2 (Z.eqb_neq _ _) Hbit). reflexivity.
  - unfold Odin.ctz8. rewrite (proj2 (Z.eqb_neq _ _) Hm). reflexivity.
Qed.

(** [block_alloc] in terms of the steps of the C code. *)
Lemma odin_block_alloc_unfold a n sz t b :
  bitmaps_in_range a -> bitmaps_consistent a ->
  block_allocator_size_to_bin_index sz = (8 * t + b, t, b) ->
  0 <= t <= 28 -> 0 <= b < 8 ->
  Odin.block_alloc (Odin.Make a n) sz =
  match alloc_find_bin a t b with
  | None => (Allocation 0 0 0, false, Odin.Make a n)
  | Some (t', b') =>
    let p := bin_list a (Z.lor (Z.shiftl t' 3) b') in
    if size (block_at a p) <? sz then (Allocation 0 0 0, false, Odin.Make a n)
    else
      let a1 := snd (alloc_pop a t' b') in
      let rest := u32 (size (block_at a1 p) - sz) in
      let r :=
        if 0 <? rest then
          Odin.insert_block (Odin.Make a1 n) (u32 (offset (block_at a1 p) + sz))
            rest p (mem_next (block_at a1 p))
        else (true, Odin.Make a1 n) in
      if negb (fst r) then (Allocation 0 0 0, false, snd r)
      else
        let a3 := store_size p sz (Odin.fields (snd r)) in
        (Allocation (offset (block_at a3 p)) (size (block_at a3 p)) p, true,
         Odin.Make a3 n)
  end.
Proof.
  intros Hbr Hbc E Ht Hb. unfold Odin.block_alloc.
  change (Odin.size_to_bin_index sz) with (block_allocator_size_to_bin_index sz).
  rewrite E. cbn [Odin.fields Odin.max_allocs].
  pose proof (odin_search a t b Hbr Hbc Ht Hb) as Hs. cbv zeta in Hs. cbv zeta.
  rewrite Hs.
  destruct (alloc_find_bin a t b) as [[t' b']|]; [|reflexivity].
  destruct (size (block_at a (bin_list a (Z.lor (Z.shiftl t' 3) b'))) <? sz); [reflexivity|].
  unfold alloc_pop. cbv zeta. cbn [snd].
  change Odin.BLOCK_UNUSED with BLOCK_ALLOCATOR_UNUSED.
  change Odin.BLOCK_HEAD_BITS with BLOCK_ALLOCATOR_HEAD_BITS.
  rewrite store_bin_prev_next_comm.
  match goal with |- context [if 0 <? ?r then ?x else ?y] =>
    destruct (if 0 <? r then x else y) as [ok al] end.
  reflexivity.
Qed.

(** Off the requests of 8 to 15 bytes and with room in the pool, the port
    allocates as the C code does. *)
Lemma odin_alloc_agrees a ch hs sz :
  state_inv a ch hs -> 1 <= sz < 2 ^ 32 -> ~ 8 <= sz <= 15 ->
  free_offset a <> BLOCK_ALLOCATOR_MAX_ALLOCS ->
  Odin.block_alloc (Odin.Make a BLOCK_ALLOCATOR_MAX_ALLOCS) sz =
  (default (Allocation 0 0 0) (alloc_out a sz),
   alloc_result a sz =? BLOCK_ALLOCATOR_SUCCESS,
   Odin.Make (alloc_state a sz) BLOCK_ALLOCATOR_MAX_ALLOCS).
Proof.
  intros Hinv Hsz Hout Hfree.
  destruct (size_to_bin_index_spec sz ltac:(lia)) as (t & b & E & Ht & Hb).
  assert (Ebin : bin_of sz = 8 * t + b) by (unfold bin_of; rewrite E; reflexivity).
  pose proof (state_inv_core a ch hs Hinv) as (Hpool & Hbr & Hbc & Hbins).
  rewrite (odin_block_alloc_unfold a _ sz t b Hbr Hbc E Ht Hb).
  unfold alloc_out, alloc_result, alloc_state.
  pose proof (eq_refl (block_allocator_alloc a sz)) as Hval.
  unfold block_allocator_alloc at 2 in Hval.
  rewrite (proj2 (Z.eqb_neq sz 0) ltac:(lia)), E in Hval.
  destruct (alloc_find_bin a t b) as [[t' b']|] eqn:Ef.
  2: { rewrite Hval. reflexivity. }
  destruct (alloc_find_bin_Some a Hbr Hbc t b ltac:(lia) Hb t' b' Ef)
    as (Ht' & Hb' & Hne & Hlt).
  assert (Hbin : bin_of sz <> 8 * t' + b') by lia.
  rewrite lor_shiftl3 by lia.
  rewrite (surjective_pairing (alloc_pop a t' b')) in Hval.
  destruct (alloc_pop_facts a ch hs t' b' Hinv Ht' Hb' Hne)
    as (Efst & Hin & Hf & Hbh & Hcore1 & Hu1 & Ho1 & [_ Hlay] & Efo).
  rewrite Efst in Hval.
  set (h := bin_list a (8 * t' + b')) in *.
  set (a1 := snd (alloc_pop a t' b')) in *.
  cbv beta iota zeta in Hval. cbv zeta.
  pose proof (alloc_remaining a ch hs t' b' sz Hinv Ht' Hb' Hne ltac:(lia) Hbin) as Hrem.
  fold a1 in Hrem. fold h in Hrem. rewrite Hrem in Hval. rewrite Hrem.
  pose proof (chain_sizes a ch (state_inv_chain a ch hs Hinv) h Hin) as Hhr.
  assert (Hgt : sz < size (block_at a h))
    by (apply higher_bin_larger; [lia|exact Hhr|exact Hout|rewrite Hbh; lia]).
  rewrite (proj2 (Z.ltb_ge _ _)) by lia.
  destruct (odin_insert_block_room a1 BLOCK_ALLOCATOR_MAX_ALLOCS
              (u32 (offset (block_at a1 h) + sz)) (u32 (size (block_at a1 h) - sz))
              h (mem_next (block_at a1 h)) (u32_range _))
    as [Eodin Eres];
    [change (u32 BLOCK_ALLOCATOR_MAX_ALLOCS) with BLOCK_ALLOCATOR_MAX_ALLOCS; congruence
    |congruence|].
  rewrite Eodin. cbn [fst snd negb Odin.fields].
  rewrite (surjective_pairing (block_allocator_insert _ _ _ _ _)) in Hval.
  rewrite Eres in Hval.
  change (BLOCK_ALLOCATOR_SUCCESS =? BLOCK_ALLOCATOR_OUT_OF_MEMORY) with false in Hval.
  cbv iota in Hval. rewrite Hval. reflexivity.
Qed.

(** Freeing an allocation that is held: the port does what the C code does. *)
Lemma odin_free_agrees a ch hs h :
  state_inv a ch hs -> In h hs ->
  Odin.block_free (Odin.Make a BLOCK_ALLOCATOR_MAX_ALLOCS) h =
  Odin.Make (block_allocator_free a h) BLOCK_ALLOCATOR_MAX_ALLOCS.
Proof.
  intros Hinv Hh.
  destruct (free_handle a ch hs h Hinv Hh) as (_ & _ & Hsz).
  destruct (free_detail a ch hs h Hinv Hh) as (_ & _ & _ & _ & Hfo & Hsize & _).
  pose proof (pool_le a ch (proj1 Hinv)) as Hle.
  rewrite odin_block_free_unfold, (free_unfold a h Hsz). cbv zeta.
  fold (free_merged a h).
  destruct (odin_insert_block_room (snd (free_merged a h)) BLOCK_ALLOCATOR_MAX_ALLOCS
              (offset (fst (free_merged a h))) (size (fst (free_merged a h)))
              (mem_prev (fst (free_merged a h))) (mem_next (fst (free_merged a h))) Hsize)
    as [Eodin _];
    [change (u32 BLOCK_ALLOCATOR_MAX_ALLOCS) with BLOCK_ALLOCATOR_MAX_ALLOCS; lia|lia|].
  rewrite Eodin. reflexivity.
Qed.

(** A request of 0 bytes: the port has no test for it, and serves it as
    long as a bin above bin 0 holds a block and the pool has room. *)
Lemma odin_alloc_zero a ch hs :
  state_inv a ch hs -> free_offset a <> BLOCK_ALLOCATOR_MAX_ALLOCS ->
  (exists k, 0 < k < 256 /\ bin_list a k <> BLOCK_ALLOCATOR_UNUSED) ->
  exists p,
    p ∈ ch /\ block_allocator_is_used (block_at a p) = false /\
    let r := Odin.block_alloc (Odin.Make a BLOCK_ALLOCATOR_MAX_ALLOCS) 0 in
    snd (fst r) = true /\
    fst (fst r) = Allocation (offset (block_at a p)) 0 p /\
    free_offset (Odin.fields (snd r)) = free_offset a + 1 /\
    size (block_at (Odin.fields (snd r)) p) = 0 /\
    block_allocator_is_used (block_at (Odin.fields (snd r)) p) = true /\
    size (block_at (Odin.fields (snd r)) (free_block a (free_offset a))) =
      size (block_at a p).
Proof.
  intros Hinv Hfree (k0 & Hk0 & Hk0ne).
  assert (E : block_allocator_size_to_bin_index 0 = (8 * 0 + 0, 0, 0)) by reflexivity.
  pose proof (state_inv_core a ch hs Hinv) as Hcore.
  pose proof Hcore as (Hpool & Hbr & Hbc & Hbins).
  cbv zeta.
  rewrite (odin_block_alloc_unfold a _ 0 0 0 Hbr Hbc E ltac:(lia) ltac:(lia)).
  destruct (alloc_find_bin a 0 0) as [[t' b']|] eqn:Ef.
  2: { exfalso. apply Hk0ne.
       apply (alloc_find_bin_None a Hbr Hbc 0 0 ltac:(lia) ltac:(lia) Ef). lia. }
  destruct (alloc_find_bin_Some a Hbr Hbc 0 0 ltac:(lia) ltac:(lia) t' b' Ef)
    as (Ht' & Hb' & Hne & Hlt).
  rewrite lor_shiftl3 by lia.
  destruct (alloc_pop_facts a ch hs t' b' Hinv Ht' Hb' Hne)
    as (Efst & Hin & Hf & Hbh & Hcore1 & Hu1 & Ho1 & [_ Hlay] & Efo).
  destruct (bins_head a ch Hbins (8 * t' + b') ltac:(lia) Hne) as (_ & Hbp & _).
  destruct (pop_spec a t' b' Ht' Hb' Hbp) as (_ & _ & _ & _ & _ & Efb).
  set (h := bin_list a (8 * t' + b')) in *.
  set (a1 := snd (alloc_pop a t' b')) in *.
  pose proof (chain_sizes a ch (state_inv_chain a ch hs Hinv) h Hin) as Hhr.
  destruct (Hlay h) as (Eoff & Esz & _).
  assert (Hpos : 0 < size (block_at a h)).
  { destruct (Z.eq_dec (size (block_at a h)) 0) as [E0|]; [|lia].
    rewrite E0 in Hbh. change (bin_of 0) with 0 in Hbh. lia. }
  cbv zeta.
  rewrite (proj2 (Z.ltb_ge _ _)) by lia.
  rewrite Esz, Z.sub_0_r, Z.add_0_r, (u32_id (size (block_at a h))) by lia.
  rewrite (proj2 (Z.ltb_lt _ _) Hpos).
  destruct (odin_insert_block_room a1 BLOCK_ALLOCATOR_MAX_ALLOCS
              (u32 (offset (block_at a1 h))) (size (block_at a h))
              h (mem_next (block_at a1 h)) Hhr)
    as [Eodin _];
    [change (u32 BLOCK_ALLOCATOR_MAX_ALLOCS) with BLOCK_ALLOCATOR_MAX_ALLOCS; congruence
    |congruence|].
  rewrite Eodin. cbn [fst snd negb Odin.fields].
  destruct (insert_spec a1 (u32 (offset (block_at a1 h))) (size (block_at a h)) h
              (mem_next (block_at a1 h))) as (a2 & Eins & Heff); [congruence|exact Hhr|].
  rewrite Eins. cbn [snd].
  assert (Hfo1 : free_offset a1 <> BLOCK_ALLOCATOR_MAX_ALLOCS) by congruence.
  destruct (core_insert a1 a2 ch _ _ _ _ Hcore1 Hfo1 Hhr Heff)
    as (Hj & Hnj & _ & _ & Hused2).
  destruct Heff as [Hfo' _ _ _ _ _ _ Hsize Hoff _ _].
  assert (Ej : free_block a1 (free_offset a1) = free_block a (free_offset a))
    by (rewrite Efo, Efb; reflexivity).
  rewrite Ej in *.
  assert (Hjh : free_block a (free_offset a) <> h)
    by (intros Ejh; apply Hnj; rewrite Ejh; exact Hin).
  pose proof (pool_le a ch Hpool) as Hle.
  pose proof (pool_len a ch Hpool) as Hlen.
  exists h. split; [exact Hin|]. split; [exact Hf|].
  split; [reflexivity|]. split.
  { f_equal; rwg.
    - rewrite Hoff, decide_False by exact Hjh. exact Eoff.
    - rewrite decide_True by reflexivity. reflexivity. }
  split. { rwg. rewrite Hfo', Efo. apply u32_id. consts. lia. }
  split. { rwg. rewrite decide_True by reflexivity. reflexivity. }
  split. { unfold block_allocator_is_used. rwg.
           fold (block_allocator_is_used (block_at a2 h)).
           rewrite Hused2 by exact Hin. exact Hu1. }
  rwg. rewrite decide_False by congruence.
  rewrite Hsize, decide_True by reflexivity. reflexivity.
Qed.

(** * The claims of the specification *)

(** ** Allocation on a fresh allocator *)




(** ** The size of the block taken from a bin *)

(** C2 fails in the C code: after [init(10)] and a first [alloc(8)], the
    second [alloc(8)] maps to bin 0, finds bin 2 non-empty, and pops its
    head, a block of 2 bytes; the call returns SUCCESS with an allocation of
    8 bytes at offset 8 and leaves a free block whose size is
    [2 - 8] wrapped to 32 bits.  The Odin port refuses the same call. *)
Theorem C2_popped_block_smaller_than_request :
  let a0 := snd (block_allocator_init 10) in
  let a1 := alloc_state a0 8 in
  alloc_result a0 8 = BLOCK_ALLOCATOR_SUCCESS /\
  chain_layout a1 = [(0, 8, true); (8, 2, false)] /\
  block_allocator_size_to_bin_index 8 = (0, 0, 0) /\
  alloc_find_bin a1 0 0 = Some (0, 2) /\
  size (block_at a1 (bin_list a1 2)) = 2 /\
  alloc_result a1 8 = BLOCK_ALLOCATOR_SUCCESS /\
  alloc_out a1 8 = Some (Allocation 8 8 1) /\
  chain_layout (alloc_state a1 8) =
    [(0, 8, true); (8, 8, true); (16, 2 ^ 32 - 6, false)] /\
  let o0 := Odin.block_allocator_init 10 131072 in
  let o1 := snd (Odin.block_alloc o0 8) in
  snd (fst (Odin.block_alloc o0 8)) = true /\
  snd (fst (Odin.block_alloc o1 8)) = false.
Proof. vm_compute. repeat split. Qed.

(** ** When allocation fails *)




(** ** The state after a failed allocation *)

(** C4 fails in the C code: in a reachable state whose block pool is used up,
    a request of [sz >= 1] bytes that finds a free block in a bin above its
    own returns OUT_OF_MEMORY after it has popped that block; the block is
    left marked used though no allocation was written, so the allocator
    differs from the one before the call. *)
Theorem C4_failed_split_leaks_block a sz :
  reachable_state a -> 1 <= sz < 2 ^ 32 ->
  free_offset a = BLOCK_ALLOCATOR_MAX_ALLOCS -> ~ no_bin_above a sz ->
  alloc_result a sz = BLOCK_ALLOCATOR_OUT_OF_MEMORY /\ alloc_out a sz = None /\
  alloc_state a sz <> a /\
  exists p k,
    bin_of sz < k < 256 /\ bin_list a k = p /\ slot_live a p /\
    block_allocator_is_used (block_at a p) = false /\
    block_allocator_is_used (block_at (alloc_state a sz) p) = true /\
    free_offset (alloc_state a sz) = free_offset a.
Proof.
  intros [hs Hr] Hsz Hfull Hnone.
  destruct (reachable_inv a hs Hr) as [ch Hinv].
  assert (Hex : exists k, bin_of sz < k < 256 /\ bin_list a k <> BLOCK_ALLOCATOR_UNUSED).
  { destruct (alloc_cases a ch hs sz Hinv ltac:(lia))
      as [[Hz _]|[(_ & Hn & _)|[(_ & Hk & _)|(_ & _ & Hfo & _)]]];
      [lia|contradiction|exact Hk|contradiction]. }
  destruct (alloc_full_detail a ch hs sz Hinv ltac:(lia) Hex Hfull)
    as (p & k & Hk & Ep & Hp & Hpf & Hd).
  cbv zeta in Hd. destruct Hd as (Eres & Eout & _ & Hpu & _ & Efo & _).
  split; [exact Eres|]. split; [exact Eout|]. split.
  - intros E. rewrite E in Hpu. congruence.
  - exists p, k. split; [exact Hk|]. split; [exact Ep|].
    split; [apply (chain_slot_live a ch hs p Hinv Hp)|]. auto.
Qed.

Lemma C4_failed_split_leaks_block_witness :
  let a := fst (alloc_repeat (Z.to_nat (BLOCK_ALLOCATOR_MAX_ALLOCS - 1)) 1
                  (snd (block_allocator_init 0xffffffff)) 0) in
  reachable_state a /\ 1 <= 1 < 2 ^ 32 /\
  free_offset a = BLOCK_ALLOCATOR_MAX_ALLOCS /\ ~ no_bin_above a 1 /\
  alloc_result a 1 = BLOCK_ALLOCATOR_OUT_OF_MEMORY /\ alloc_out a 1 = None /\
  alloc_state a 1 <> a /\
  exists p k,
    bin_of 1 < k < 256 /\ bin_list a k = p /\ slot_live a p /\
    block_allocator_is_used (block_at a p) = false /\
    block_allocator_is_used (block_at (alloc_state a 1) p) = true /\
    free_offset (alloc_state a 1) = free_offset a.
Proof.
  intros a. pose proof pool_exhausted as H. cbv zeta in H. fold a in H.
  destruct H as (_ & Hr & Hfo & Hn).
  split; [exact Hr|]. split; [lia|]. split; [exact Hfo|]. split; [exact Hn|].
  apply (C4_failed_split_leaks_block a 1 Hr); [lia|exact Hfo|exact Hn].
Defined.

(** ** The largest heap *)

(** C5, as the code behaves: after [init(0xFFFFFFFF)] the allocator holds one
    block, offset 0, size 0xFFFFFFFF, [mem_prev = mem_next = UNUSED]; it heads
    bin 231 (top 28, bottom 7), and the bitmaps mark that bin and no other. *)
Theorem C5_init_max_size_bin_231 :
  let a := snd (block_allocator_init 0xffffffff) in
  fst (block_allocator_init 0xffffffff) = BLOCK_ALLOCATOR_SUCCESS /\
  block_allocator_size_to_bin_index 0xffffffff = (231, 28, 7) /\
  free_offset a = 1 /\
  spatial_chain a =
    [Block 0 0xffffffff (Z.lor BLOCK_ALLOCATOR_HEAD_BITS 231) BLOCK_ALLOCATOR_UNUSED
           BLOCK_ALLOCATOR_UNUSED BLOCK_ALLOCATOR_UNUSED] /\
  (forall k, 0 <= k < 256 ->
     bin_list a k = if decide (k = 231) then head_block a else BLOCK_ALLOCATOR_UNUSED) /\
  top_bins a = 2 ^ 28 /\
  (forall t, 0 <= t < 32 -> bottom_bin a t = if decide (t = 28) then 2 ^ 7 else 0).
Proof.
  cbv zeta.
  split; [vm_compute; reflexivity|]. split; [vm_compute; reflexivity|].
  split; [vm_compute; reflexivity|]. split; [vm_compute; reflexivity|].
  split; [|split; [vm_compute; reflexivity|]].
  - intros k Hk.
    assert (H : all_below 256 (fun k =>
              bin_list (snd (block_allocator_init 0xffffffff)) k =?
              (if decide (k = 231) then head_block (snd (block_allocator_init 0xffffffff))
               else BLOCK_ALLOCATOR_UNUSED)) = true) by (vm_compute; reflexivity).
    apply Z.eqb_eq. apply (all_below_spec 256 _ H k). lia.
  - intros t Ht.
    assert (H : all_below 32 (fun t =>
              bottom_bin (snd (block_allocator_init 0xffffffff)) t =?
              (if decide (t = 28) then 2 ^ 7 else 0)) = true) by (vm_compute; reflexivity).
    apply Z.eqb_eq. apply (all_below_spec 32 _ H t). lia.
Qed.

(** C5 as stated fails: bin 255 is empty after [init(0xFFFFFFFF)], and
    neither bit 31 of [top_bins] nor [bottom_bins[31]] is set. *)
Lemma C5_bin_255_is_empty :
  let a := snd (block_allocator_init 0xffffffff) in
  bin_list a 255 = BLOCK_ALLOCATOR_UNUSED /\
  Z.testbit (top_bins a) 31 = false /\ bottom_bin a 31 = 0 /\
  bin_of 0xffffffff = 231 /\ bin_list a 231 = 0.
Proof. vm_compute. repeat split. Qed.

(** ** The spatial chain *)

(** C6 fails in the C code: [init(10)], [alloc(8)], [alloc(8)] all return
    SUCCESS and leave a chain of three blocks that ends in a block of
    [2^32 - 6] bytes; the sizes sum to [2^32 + 10], not 10. *)
Theorem C6_chain_sizes_exceed_heap :
  let a0 := snd (block_allocator_init 10) in
  let a1 := alloc_state a0 8 in
  let a2 := alloc_state a1 8 in
  alloc_result a0 8 = BLOCK_ALLOCATOR_SUCCESS /\
  alloc_result a1 8 = BLOCK_ALLOCATOR_SUCCESS /\
  chain_layout a2 = [(0, 8, true); (8, 8, true); (16, 2 ^ 32 - 6, false)] /\
  chain_contiguous (spatial_chain a2) = true /\
  chain_total a2 = 2 ^ 32 + 10 /\
  chain_total a2 <> 10.
Proof. vm_compute. repeat split. discriminate. Qed.

(** C7: in every state reached from [block_allocator_init] by calls of
    [block_allocator_alloc] and [block_allocator_free], the blocks handed out
    by the pool form one chain linked through [mem_prev] and [mem_next] in
    which no two neighbours are both free; so each spatial neighbour of a free
    block is a used block that links back to it, or the end of the chain. *)
Theorem C7_no_adjacent_free_blocks a hs :
  reachable a hs ->
  no_free_neighbours a /\
  exists ch, NoDup ch /\ (forall i, i ∈ ch <-> slot_live a i) /\
    chain_seg a BLOCK_ALLOCATOR_UNUSED ch BLOCK_ALLOCATOR_UNUSED /\
    no_adjacent_free a true ch.
Proof.
  intros Hr. split; [apply (reachable_no_free_neighbours a hs Hr)|].
  destruct (reachable_inv a hs Hr) as [ch Hinv]. exists ch.
  destruct (state_inv_chain a ch hs Hinv) as [Hseg Hadj _].
  split; [apply (pool_nodup a ch (proj1 Hinv))|]. split; [|auto].
  intros i. split; [apply (chain_slot_live a ch hs i Hinv)|apply (slot_live_chain a ch hs i Hinv)].
Qed.

Lemma C7_no_adjacent_free_blocks_witness :
  reachable (snd (block_allocator_init 1024)) [] /\
  no_free_neighbours (snd (block_allocator_init 1024)) /\
  exists ch, NoDup ch /\
    (forall i, i ∈ ch <-> slot_live (snd (block_allocator_init 1024)) i) /\
    chain_seg (snd (block_allocator_init 1024)) BLOCK_ALLOCATOR_UNUSED ch
      BLOCK_ALLOCATOR_UNUSED /\
    no_adjacent_free (snd (block_allocator_init 1024)) true ch.
Proof.
  assert (Hr : reachable (snd (block_allocator_init 1024)) [])
    by (apply reach_init; lia).
  split; [exact Hr|]. apply (C7_no_adjacent_free_blocks _ [] Hr).
Defined.

(** ** Bitmaps after a failed call *)

(** C8 fails in the Odin port: with a pool of one slot, [block_alloc] of 10
    bytes on a heap of 100 pops the only block, and [insert_block] sets the
    bits of bin 27 before it finds the pool used up; the call returns
    [ok = false] with bit 3 of [top_bins] and of [bottom_bins[3]] set while
    every bin list is empty. *)
Theorem C8_odin_failed_insert_leaves_bits :
  let o := Odin.block_allocator_init 100 1 in
  let r := Odin.block_alloc o 10 in
  let a := Odin.fields (snd r) in
  snd (fst r) = false /\
  Odin.size_to_bin_index 90 = (27, 3, 3) /\
  Z.testbit (top_bins a) 3 = true /\
  Z.testbit (bottom_bin a 3) 3 = true /\
  bin_list a (8 * 3 + 3) = BLOCK_ALLOCATOR_UNUSED /\
  all_below 256 (fun k => bin_list a k =? BLOCK_ALLOCATOR_UNUSED) = true /\
  ~ bitmaps_consistent a.
Proof.
  cbv zeta.
  split; [vm_compute; reflexivity|]. split; [vm_compute; reflexivity|].
  split; [vm_compute; reflexivity|]. split; [vm_compute; reflexivity|].
  split; [vm_compute; reflexivity|]. split; [vm_compute; reflexivity|].
  intros [_ H]. specialize (H 3 3 ltac:(lia) ltac:(lia)).
  apply H; vm_compute; reflexivity.
Qed.

(** ** Allocate, then free *)

(** C9 fails in the C code: after [init(0xFFFFFFFF)] and 29 allocations of
    [2^31, 2^30, ..., 8] bytes a free block of 7 bytes is left at offset
    [2^32 - 8].  [alloc(8)] pops it, returns SUCCESS, and inserts a remainder
    at offset 0, which moves [head_block] to slot 30; freeing the allocation
    at once merges it with that remainder into slot 30 again, at offset
    [2^32 - 8], and [head_block] stays there: the traversal that met 30
    blocks before the two calls meets only the last block afterwards. *)
Theorem C9_alloc_free_moves_head_block :
  let r := alloc_each (halving_sizes 29 3) (snd (block_allocator_init 0xffffffff)) 0 in
  let a := fst r in
  let a' := alloc_state a 8 in
  let a'' := block_allocator_free a' (Allocation (2 ^ 32 - 8) 8 29) in
  snd r = 0 /\
  alloc_result a 8 = BLOCK_ALLOCATOR_SUCCESS /\
  alloc_out a 8 = Some (Allocation (2 ^ 32 - 8) 8 29) /\
  head_block a = 0 /\ length (spatial_chain a) = 30%nat /\
  nth 29 (chain_layout a) (0, 0, true) = (2 ^ 32 - 8, 7, false) /\
  head_block a' = 30 /\
  head_block a'' = 30 /\ free_offset a'' = free_offset a /\
  chain_layout a'' = [(2 ^ 32 - 8, 7, false)].
Proof. vm_compute. repeat split. Qed.

(** ** Freeing a zero-sized record *)

(** C10: [block_allocator_free] called with an allocation record whose size
    field is 0 returns the allocator unchanged, whatever the state and the
    other fields of the record. *)
Theorem C10_free_zero_size_is_noop (a : block_allocator_t) (off md : Z) :
  block_allocator_free a (Allocation off 0 md) = a.
Proof. reflexivity. Qed.

(** * Lemmas behind the further properties *)

Lemma alloc_triple a sz :
  block_allocator_alloc a sz = (alloc_result a sz, alloc_state a sz, alloc_out a sz).
Proof.
  unfold alloc_result, alloc_state, alloc_out.
  destruct (block_allocator_alloc a sz) as [[r a'] o]. reflexivity.
Qed.

(** A successful call, seen from a reachable state. *)
Lemma reachable_alloc_success a hs sz :
  reachable a hs -> 0 <= sz < 2 ^ 32 ->
  alloc_result a sz = BLOCK_ALLOCATOR_SUCCESS ->
  0 < sz /\ free_offset a <> BLOCK_ALLOCATOR_MAX_ALLOCS /\
  (exists k, bin_of sz < k < 256 /\ bin_list a k <> BLOCK_ALLOCATOR_UNUSED) /\
  exists h, alloc_out a sz = Some h /\ reachable (alloc_state a sz) (h :: hs).
Proof.
  intros Hr Hsz Hres.
  destruct (reachable_inv a hs Hr) as [ch Hinv].
  pose proof (alloc_triple a sz) as Et.
  destruct (alloc_cases a ch hs sz Hinv Hsz)
    as [[_ E]|[(_ & _ & E)|[(_ & _ & _ & a2 & E & _)|(Hz & Hk & Hfo & a2 & h & ch' & E & _)]]];
    rewrite E in Et; injection Et as Er Ea Eo;
    try (rewrite <- Er in Hres; discriminate).
  split; [lia|]. split; [exact Hfo|]. split; [exact Hk|].
  exists h. split; [congruence|]. rewrite <- Ea.
  apply (reach_alloc a hs sz a2 h Hr Hsz E).
Qed.

Lemma reachable_pool_nonempty a hs : reachable a hs -> 1 <= free_offset a.
Proof.
  induction 1 as [total Ht|a hs sz a' h Hr IH Hsz E|a hs sz a' Hr IH Hsz E
                 |a hs h Hr IH Hh].
  - destruct (init_state total Ht) as (Hfo & _). rewrite Hfo. lia.
  - destruct (reachable_inv a hs Hr) as [ch Hinv].
    pose proof (alloc_triple a sz) as Et. rewrite E in Et. injection Et as Er Ea Eo.
    destruct (reachable_alloc_success a hs sz Hr Hsz (eq_sym Er)) as (Hz & Hfo & Hk & _).
    destruct (alloc_success_detail a ch hs sz Hinv ltac:(lia) Hk Hfo)
      as (p & k & _ & _ & _ & _ & Hd).
    cbv zeta in Hd. destruct Hd as (_ & _ & Efo & _). rewrite <- Ea in Efo. lia.
  - destruct (reachable_inv a hs Hr) as [ch Hinv].
    pose proof (alloc_triple a sz) as Et.
    destruct (alloc_cases a ch hs sz Hinv Hsz)
      as [[_ E']|[(_ & _ & E')|[(Hz & Hk & Hfull & _)|(_ & _ & _ & a2 & h & ch' & E' & _)]]];
      try (rewrite E' in E; injection E as <-; exact IH).
    + destruct (alloc_full_detail a ch hs sz Hinv ltac:(lia) Hk Hfull)
        as (p & k & _ & _ & _ & _ & Hd).
      cbv zeta in Hd. destruct Hd as (_ & _ & _ & _ & _ & Efo & _).
      rewrite E in Et. injection Et as _ Ea _. rewrite <- Ea in Efo. lia.
    + rewrite E' in E. discriminate.
  - destruct (reachable_inv a hs Hr) as [ch Hinv].
    destruct (free_detail a ch hs h Hinv Hh) as (_ & _ & [_ H1] & _). exact H1.
Qed.

(** A state with one allocation held, for use as an instance. *)
Lemma held_example :
  let a0 := snd (block_allocator_init 4096) in
  let h := default (Allocation 0 0 0) (alloc_out a0 16) in
  reachable a0 [] /\ alloc_result a0 16 = BLOCK_ALLOCATOR_SUCCESS /\
  alloc_out a0 16 = Some h /\ reachable (alloc_state a0 16) [h].
Proof.
  assert (Hsz : 1 <= 4096 <= 0xffffffff) by lia.
  assert (H16 : 0 <= 16 < 2 ^ 32) by lia.
  assert (HM : 1 <> BLOCK_ALLOCATOR_MAX_ALLOCS) by discriminate.
  intros a0 h.
  assert (Hr : reachable a0 []) by (apply reach_init; exact Hsz).
  destruct (init_state 4096 Hsz) as (Hfo & _ & Hbin & _). fold a0 in Hfo, Hbin.
  assert (Hres : alloc_result a0 16 = BLOCK_ALLOCATOR_SUCCESS).
  { destruct (alloc_outcome a0 [] 16 Hr H16) as [(_ & _ & Hc)|(E & _)]; [|exact E].
    exfalso. destruct Hc as [Hc|[Hc|Hc]]; [discriminate| |rewrite Hfo in Hc; contradiction].
    assert (Hb : bin_of 16 < bin_of 4096 < 256) by (vm_compute; split; reflexivity).
    specialize (Hc (bin_of 4096) Hb).
    assert (Hb0 : 0 <= bin_of 4096 < 256) by (vm_compute; split; [discriminate|reflexivity]).
    rewrite Hbin, decide_True in Hc by (reflexivity || exact Hb0). discriminate. }
  destruct (reachable_alloc_success a0 [] 16 Hr H16 Hres) as (_ & _ & _ & h' & Eo & Hr').
  assert (Eh : h = h') by (unfold h; rewrite Eo; reflexivity).
  rewrite Eh. auto.
Qed.

(** A successful call in a reachable state, field by field. *)
Lemma reachable_split a hs sz :
  reachable a hs -> 1 <= sz < 2 ^ 32 ->
  alloc_result a sz = BLOCK_ALLOCATOR_SUCCESS ->
  exists p k, split_result a sz p k.
Proof.
  intros Hr Hsz Hres.
  destruct (reachable_alloc_success a hs sz Hr ltac:(lia) Hres) as (_ & Hfo & Hk & _).
  destruct (reachable_inv a hs Hr) as [ch Hinv].
  destruct (alloc_success_detail a ch hs sz Hinv ltac:(lia) Hk Hfo)
    as (p & k & Hkr & Ep & Hp & Hpf & Hd).
  cbv zeta in Hd.
  destruct Hd as (_ & Eout & Efo' & Efb' & Hj & Hnj & Hrest & Esj & Eoj & Ebj & Hjf &
                  Esp & Eop & Hpu & Emn & Emp & Hframe & Hleast).
  pose proof (proj1 Hinv) as Hpool.
  pose proof (pool_le a ch Hpool) as Hle.
  pose proof (pool_len a ch Hpool) as Hlen.
  assert (Hkeep : forall x, 0 <= x < BLOCK_ALLOCATOR_MAX_ALLOCS ->
            slot_pending (alloc_state a sz) x -> slot_pending a x).
  { intros x Hx (i & Hi & Ei). exists i. rewrite Efo' in Hi. rewrite Efb' in Ei.
    split; [lia|exact Ei]. }
  exists p, k. unfold split_result. cbv zeta.
  split; [exact Hkr|]. split; [exact Ep|]. split; [exact Hleast|].
  split; [apply (chain_slot_live a ch hs p Hinv Hp)|]. split; [exact Hpf|].
  split; [exact Eout|]. split; [exact Efo'|].
  split; [intros Hl; apply Hnj, (slot_live_chain a ch hs _ Hinv Hl)|].
  split.
  { split; [exact Hj|]. intros (i & Hi & Ei). rewrite Efo' in Hi. rewrite Efb' in Ei.
    assert (i = free_offset a); [|lia].
    apply (pool_inj a ch Hpool); [lia|lia|exact Ei]. }
  split; [exact Esp|]. split; [exact Eop|]. split; [exact Hpu|].
  split; [exact Esj|]. split; [rewrite Esj; exact Hrest|]. split; [exact Eoj|].
  split; [exact Hjf|]. split; [rewrite Esj; exact Ebj|].
  split; [exact Emn|]. split; [exact Emp|].
  intros x Hx Hxp. pose proof (slot_live_chain a ch hs x Hinv Hx) as Hxin.
  destruct Hx as [Hxr Hxnp].
  split; [split; [exact Hxr|]; intros H; apply Hxnp, (Hkeep x Hxr H)|].
  apply (Hframe x Hxin Hxp).
Qed.

(** The block popped is larger than the request, off the sizes 8 to 15. *)
Lemma split_block_larger a hs sz p k :
  reachable a hs -> 1 <= sz < 2 ^ 32 -> ~ 8 <= sz <= 15 ->
  bin_of sz < k < 256 -> bin_list a k = p -> slot_live a p ->
  sz < size (block_at a p) < 2 ^ 32.
Proof.
  intros Hr Hsz Hout Hk Ep Hp.
  destruct (reachable_inv a hs Hr) as [ch Hinv].
  pose proof (slot_live_chain a ch hs p Hinv Hp) as Hin.
  pose proof (chain_sizes a ch (state_inv_chain a ch hs Hinv) p Hin) as Hsize.
  destruct (slot_live_tag a p Hp) as (HpU & _).
  destruct Hinv as (_ & _ & _ & [Hhead _ _] & _).
  destruct (Hhead k ltac:(pose proof (bin_of_range sz ltac:(lia)); lia)
              ltac:(rewrite Ep; exact HpU)) as (_ & _ & Hb).
  rewrite Ep in Hb. split; [|lia].
  apply higher_bin_larger; [lia|exact Hsize|exact Hout|rewrite Hb; lia].
Qed.

Lemma reachable_held a hs : reachable a hs -> held_blocks a hs.
Proof.
  intros Hr. destruct (reachable_inv a hs Hr) as [ch Hinv].
  destruct (state_inv_handles a ch hs Hinv) as [Hinj Hlive].
  split; [|exact Hinj].
  intros h Hh. destruct (Hlive h Hh) as (H1 & H2 & H3).
  split; [apply (chain_slot_live a ch hs _ Hinv H1)|]. auto.
Qed.

Lemma reachable_next a hs : reachable a hs -> next_stays_in_pool a.
Proof.
  intros Hr. destruct (reachable_inv a hs Hr) as [ch Hinv].
  intros i Hi. pose proof (slot_live_chain a ch hs i Hinv Hi) as Hin.
  destruct (list_elem_of_split ch i Hin) as (L1 & L2 & Ech).
  pose proof (chain_links a ch (state_inv_chain a ch hs Hinv)) as Hseg.
  pose proof (pool_nodup a ch (proj1 Hinv)) as Hnd.
  rewrite Ech in Hseg, Hnd.
  apply chain_seg_app in Hseg as [_ Hseg]. cbn [chain_seg] in Hseg.
  destruct Hseg as (_ & Hmn & Hseg).
  apply NoDup_app in Hnd as (_ & _ & Hnd). apply NoDup_cons in Hnd as [Hnd _].
  unfold block_allocator_next.
  destruct L2 as [|n L2]; cbn [head default from_option id] in Hmn.
  - left. rewrite Hmn. split; reflexivity.
  - right. cbn [chain_seg] in Hseg. destruct Hseg as (Hmp & _).
    assert (Hn : slot_live a n)
      by (apply (chain_slot_live a ch hs n Hinv); rewrite Ech; set_solver).
    destruct (slot_live_tag a n Hn) as (HnU & _).
    rewrite Hmn. split; [exact Hn|]. split; [intros ->; apply Hnd; set_solver|].
    split; [exact Hmp|].
    rewrite (proj2 (Z.eqb_neq _ _) HnU). reflexivity.
Qed.

(** ** Fresh allocators *)


Lemma init_free_stack total_size k :
  0 <= total_size <= 0xffffffff -> 0 <= k < BLOCK_ALLOCATOR_MAX_ALLOCS ->
  free_block (snd (block_allocator_init total_size)) k = k.
Proof.
  intros Hsz Hk. rewrite init_unfold. cbn [snd].
  generalize init_cleared_spec. generalize init_cleared.
  intros a0 (_ & Efo & _ & _ & _ & Efb).
  assert (Hfo : free_offset a0 <> BLOCK_ALLOCATOR_MAX_ALLOCS) by (rewrite Efo; discriminate).
  destruct (insert_spec a0 0 total_size BLOCK_ALLOCATOR_UNUSED BLOCK_ALLOCATOR_UNUSED
              Hfo ltac:(lia)) as (a1 & -> & Heff).
  cbn [snd]. rewrite (ins_fb _ _ _ _ _ _ Heff). apply Efb, Hk.
Qed.



(** The first allocation on a fresh allocator. *)
Lemma fresh_first_alloc total_size sz :
  1 <= total_size <= 0xffffffff -> 1 <= sz < 2 ^ 32 ->
  bin_of sz < bin_of total_size ->
  let a := snd (block_allocator_init total_size) in
  let a' := alloc_state a sz in
  alloc_result a sz = BLOCK_ALLOCATOR_SUCCESS /\
  alloc_out a sz = Some (Allocation 0 sz 0) /\
  free_offset a' = 2 /\
  size (block_at a' 0) = sz /\ offset (block_at a' 0) = 0 /\
  block_allocator_is_used (block_at a' 0) = true /\
  size (block_at a' 1) = u32 (total_size - sz) /\ offset (block_at a' 1) = sz /\
  block_allocator_is_used (block_at a' 1) = false /\
  mem_next (block_at a' 0) = 1 /\ mem_prev (block_at a' 1) = 0 /\
  (~ 8 <= sz <= 15 -> size (block_at a' 1) = total_size - sz).
Proof.
  intros Ht Hsz Hlt a a'.
  assert (Hr : reachable a []) by (apply reach_init; exact Ht).
  destruct (init_state total_size Ht) as (Hfo & _ & Hbin & Hsize & Hoff & _).
  fold a in Hfo, Hbin, Hsize, Hoff.
  pose proof (bin_of_range total_size ltac:(lia)) as Hbt.
  pose proof (bin_of_range sz ltac:(lia)) as Hbs.
  assert (Hres : alloc_result a sz = BLOCK_ALLOCATOR_SUCCESS).
  { destruct (alloc_outcome a [] sz Hr ltac:(lia)) as [(_ & _ & Hc)|(E & _)]; [|exact E].
    exfalso. destruct Hc as [Hc|[Hc|Hc]]; [lia| |rewrite Hfo in Hc; discriminate].
    specialize (Hc (bin_of total_size) ltac:(lia)).
    rewrite Hbin, decide_True in Hc by (reflexivity || lia). discriminate. }
  destruct (reachable_split a [] sz Hr Hsz Hres) as (p & k & Hs).
  unfold split_result in Hs. cbv zeta in Hs. fold a' in Hs.
  destruct Hs as (Hk & Ep & _ & Hp & _ & Eout & Efo' & _ & _ & Esp & Eop & Hpu & Esj &
                  _ & Eoj & Hjf & _ & Emn & Emp & _).
  destruct (slot_live_tag a p Hp) as (HpU & _).
  assert (Ek : k = bin_of total_size /\ p = 0).
  { rewrite Hbin in Ep by lia.
    destruct (decide (k = bin_of total_size)); [auto|congruence]. }
  destruct Ek as [-> ->].
  assert (Ej : free_block a (free_offset a) = 1)
    by (rewrite Hfo; apply init_free_stack; [lia|split; [lia|reflexivity]]).
  rewrite Ej, Hsize, Hoff in *.
  split; [exact Hres|]. split; [exact Eout|]. split; [lia|].
  split; [exact Esp|]. split; [exact Eop|]. split; [exact Hpu|].
  split; [exact Esj|]. split; [rewrite Eoj; apply u32_id; lia|].
  split; [exact Hjf|]. split; [exact Emn|]. split; [exact Emp|].
  intros Hout. rewrite Esj. apply u32_id.
  assert (sz < total_size); [|lia].
  apply (higher_bin_larger sz total_size); [lia|lia|exact Hout|exact Hlt].
Qed.

(** * Further properties of the code *)

(** ** Invariants of the C allocator *)

(** X1: in every state reached from [block_allocator_init] by calls of
    [block_allocator_alloc] (failed calls included) and [block_allocator_free],
    bit [t] of [top_bins] is set iff [bottom_bins[t]] is not 0, bit [b] of
    [bottom_bins[t]] is set iff [bin_lists[8t+b]] is not UNUSED, and the two
    bitmaps stay within 32 and 8 bits. *)
Theorem X1_bitmaps_match_bin_lists a hs :
  reachable a hs -> bitmaps_consistent a /\ bitmaps_in_range a.
Proof.
  intros Hr. destruct (reachable_inv a hs Hr) as [ch Hinv].
  destruct Hinv as (_ & H1 & H2 & _). auto.
Qed.

Lemma X1_bitmaps_match_bin_lists_witness :
  reachable (snd (block_allocator_init 1024)) [] /\
  bitmaps_consistent (snd (block_allocator_init 1024)) /\
  bitmaps_in_range (snd (block_allocator_init 1024)).
Proof.
  assert (Hr : reachable (snd (block_allocator_init 1024)) [])
    by (apply reach_init; lia).
  split; [exact Hr|]. apply (X1_bitmaps_match_bin_lists _ [] Hr).
Defined.

(** X2: in every reachable state [free_offset] lies in [1, MAX_ALLOCS] and
    counts the slots in use; every slot of the pool is either in use or
    listed in [free_blocks] at an index from [free_offset] on, and those
    entries are distinct slot numbers. *)
Theorem X2_pool_accounting a hs : reachable a hs -> pool_accounted a.
Proof.
  intros Hr. pose proof (reachable_pool_nonempty a hs Hr) as H1.
  destruct (reachable_inv a hs Hr) as [ch Hinv].
  destruct (proj1 Hinv) as [Hlen Hle Hnd Hlive Hrange Hinj Htot].
  split; [lia|]. split.
  { exists ch. split; [exact Hnd|]. split; [exact Hlen|].
    intros i. split; [apply Hlive|apply (slot_live_chain a ch hs i Hinv)]. }
  split.
  { intros i Hi. destruct (Htot i Hi) as [H|H]; [left; apply Hlive, H|right; exact H]. }
  split; [exact Hrange|exact Hinj].
Qed.

Lemma X2_pool_accounting_witness :
  reachable (snd (block_allocator_init 1024)) [] /\
  pool_accounted (snd (block_allocator_init 1024)).
Proof.
  assert (Hr : reachable (snd (block_allocator_init 1024)) [])
    by (apply reach_init; lia).
  split; [exact Hr|]. apply (X2_pool_accounting _ [] Hr).
Defined.

(** X3: in every reachable state the head of a non-empty bin [k] is a free
    block in use by the pool whose [bin_prev] is [HEAD_BITS | k] and whose
    size maps to bin [k]; the [bin_next] of a free block, when it is not
    UNUSED, is a block of the pool that links back through [bin_prev] and
    whose size maps to the same bin; and a free block is either such a head
    or the [bin_next] of the block its [bin_prev] names. *)
Theorem X3_bin_lists_hold_blocks_of_their_class a hs :
  reachable a hs -> bins_hold_class a.
Proof.
  intros Hr. destruct (reachable_inv a hs Hr) as [ch Hinv].
  destruct Hinv as (Hp & _ & _ & [Hhead Hprev Hnext] & _).
  pose proof (pool_live a ch Hp) as Hlive.
  assert (Hin : forall i, slot_live a i -> i ∈ ch).
  { intros i [Hi Hnp]. destruct (pool_total a ch Hp i Hi); [assumption|contradiction]. }
  split; [|split].
  - intros k Hk Hne. destruct (Hhead k Hk Hne) as (H1 & H2 & H3).
    split; [apply Hlive, H1|]. split; [apply (tagged_not_used _ k Hk H2)|]. auto.
  - intros i Hi Hf Hn. destruct (Hnext i (Hin i Hi) Hf Hn) as (H1 & H2 & H3).
    split; [apply Hlive, H1|]. auto.
  - intros i Hi Hf. destruct (Hprev i (Hin i Hi) Hf) as [H|[H1 H2]]; [left; exact H|].
    right. split; [apply Hlive, H1|exact H2].
Qed.

Lemma X3_bin_lists_hold_blocks_of_their_class_witness :
  reachable (snd (block_allocator_init 1024)) [] /\
  bins_hold_class (snd (block_allocator_init 1024)).
Proof.
  assert (Hr : reachable (snd (block_allocator_init 1024)) [])
    by (apply reach_init; lia).
  split; [exact Hr|]. apply (X3_bin_lists_hold_blocks_of_their_class _ [] Hr).
Defined.

(** X4: in a reachable state a call of [block_allocator_alloc] that returns
    OUT_OF_MEMORY writes no allocation, and it leaves the allocator exactly
    as it was if and only if the size was 0 or no bin above the bin of the
    size held a block; in particular it leaves it as it was whenever the
    pool still has a free slot. *)
Theorem X4_failed_alloc_keeps_state a hs sz :
  reachable a hs -> 0 <= sz < 2 ^ 32 ->
  alloc_result a sz = BLOCK_ALLOCATOR_OUT_OF_MEMORY ->
  alloc_out a sz = None /\
  (alloc_state a sz = a <-> sz = 0 \/ no_bin_above a sz) /\
  (free_offset a <> BLOCK_ALLOCATOR_MAX_ALLOCS -> alloc_state a sz = a).
Proof.
  intros Hr Hsz Hres. destruct (reachable_inv a hs Hr) as [ch Hinv].
  pose proof (alloc_triple a sz) as Et.
  destruct (alloc_cases a ch hs sz Hinv Hsz)
    as [[Hz E]|[(Hz & Hn & E)|[(Hz & Hk & Hfull & a2 & E & Hne & _)
                              |(_ & _ & _ & a2 & h & ch' & E & _)]]];
    rewrite E in Et; injection Et as Er Ea Eo.
  - split; [congruence|]. split; [|congruence]. split; [auto|congruence].
  - split; [congruence|]. split; [|congruence]. split; [intros _; right; exact Hn|congruence].
  - split; [congruence|]. split; [|contradiction]. split.
    + intros E'. congruence.
    + intros [H|H]; [contradiction|]. destruct Hk as (k & Hk & Hkne).
      exfalso. apply Hkne, H, Hk.
  - rewrite <- Er in Hres. discriminate.
Qed.

Lemma X4_failed_alloc_keeps_state_witness :
  reachable (snd (block_allocator_init 4096)) [] /\ 0 <= 4096 < 2 ^ 32 /\
  alloc_result (snd (block_allocator_init 4096)) 4096 = BLOCK_ALLOCATOR_OUT_OF_MEMORY /\
  alloc_out (snd (block_allocator_init 4096)) 4096 = None /\
  (alloc_state (snd (block_allocator_init 4096)) 4096 = snd (block_allocator_init 4096) <->
   4096 = 0 \/ no_bin_above (snd (block_allocator_init 4096)) 4096) /\
  (free_offset (snd (block_allocator_init 4096)) <> BLOCK_ALLOCATOR_MAX_ALLOCS ->
   alloc_state (snd (block_allocator_init 4096)) 4096 = snd (block_allocator_init 4096)).
Proof.
  assert (Hr : reachable (snd (block_allocator_init 4096)) [])
    by (apply reach_init; lia).
  assert (Hs : 0 <= 4096 < 2 ^ 32) by lia.
  assert (Hres : alloc_result (snd (block_allocator_init 4096)) 4096 =
                 BLOCK_ALLOCATOR_OUT_OF_MEMORY)
    by (unfold alloc_result; rewrite fresh_alloc_total by lia; reflexivity).
  split; [exact Hr|]. split; [exact Hs|]. split; [exact Hres|].
  apply (X4_failed_alloc_keeps_state _ [] 4096 Hr Hs Hres).
Defined.

(** ** What a successful allocation does *)

(** X5: a call [block_allocator_alloc(a, sz)] that returns SUCCESS in a
    reachable state took the head [p] of the lowest non-empty bin strictly
    above the bin of [sz]; the allocation written is
    [{offset of p, sz, p}]; [p] keeps its offset, has size [sz] and is used;
    the rest, [size of p - sz] modulo 2^32 (never 0), is a new free block at
    [offset of p + sz] modulo 2^32 in the slot that was on top of the free
    stack, at the head of the bin of its size and linked after [p];
    [free_offset] grows by one and the other blocks keep their size, offset
    and usage. *)
Theorem X5_alloc_splits_head_of_lowest_bin a hs sz :
  reachable a hs -> 1 <= sz < 2 ^ 32 ->
  alloc_result a sz = BLOCK_ALLOCATOR_SUCCESS ->
  exists p k, split_result a sz p k.
Proof. apply reachable_split. Qed.

Lemma X5_alloc_splits_head_of_lowest_bin_witness :
  reachable (snd (block_allocator_init 4096)) [] /\ 1 <= 16 < 2 ^ 32 /\
  alloc_result (snd (block_allocator_init 4096)) 16 = BLOCK_ALLOCATOR_SUCCESS /\
  exists p k, split_result (snd (block_allocator_init 4096)) 16 p k.
Proof.
  assert (Hs : 1 <= 16 < 2 ^ 32) by lia.
  pose proof held_example as H. cbv zeta in H. destruct H as (Hr & Hres & _).
  split; [exact Hr|]. split; [exact Hs|]. split; [exact Hres|].
  apply (X5_alloc_splits_head_of_lowest_bin _ [] 16 Hr Hs Hres).
Defined.

(** X6: when the size asked for is not one of 8 to 15, the block a
    successful [block_allocator_alloc] pops in a reachable state is strictly
    larger than the request, so the subtraction on line 199 does not wrap:
    the sizes of the allocated block and of the remainder add up to the size
    the popped block had. *)
Theorem X6_split_conserves_bytes a hs sz :
  reachable a hs -> 1 <= sz < 2 ^ 32 -> ~ 8 <= sz <= 15 ->
  alloc_result a sz = BLOCK_ALLOCATOR_SUCCESS ->
  exists p,
    alloc_out a sz = Some (Allocation (offset (block_at a p)) sz p) /\
    sz < size (block_at a p) /\
    size (block_at (alloc_state a sz) p) = sz /\
    size (block_at (alloc_state a sz) (free_block a (free_offset a))) =
      size (block_at a p) - sz.
Proof.
  intros Hr Hsz Hout Hres.
  destruct (reachable_split a hs sz Hr Hsz Hres) as (p & k & Hs).
  unfold split_result in Hs. cbv zeta in Hs.
  destruct Hs as (Hk & Ep & _ & Hp & _ & Eout & _ & _ & _ & Esp & _ & _ & Esj & _).
  destruct (split_block_larger a hs sz p k Hr Hsz Hout Hk Ep Hp) as [Hgt Hlt].
  exists p. split; [exact Eout|]. split; [exact Hgt|]. split; [exact Esp|].
  rewrite Esj. apply u32_id. lia.
Qed.

Lemma X6_split_conserves_bytes_witness :
  reachable (snd (block_allocator_init 4096)) [] /\ 1 <= 16 < 2 ^ 32 /\
  ~ 8 <= 16 <= 15 /\
  alloc_result (snd (block_allocator_init 4096)) 16 = BLOCK_ALLOCATOR_SUCCESS /\
  exists p,
    alloc_out (snd (block_allocator_init 4096)) 16 =
      Some (Allocation (offset (block_at (snd (block_allocator_init 4096)) p)) 16 p) /\
    16 < size (block_at (snd (block_allocator_init 4096)) p) /\
    size (block_at (alloc_state (snd (block_allocator_init 4096)) 16) p) = 16 /\
    size (block_at (alloc_state (snd (block_allocator_init 4096)) 16)
            (free_block (snd (block_allocator_init 4096))
               (free_offset (snd (block_allocator_init 4096))))) =
      size (block_at (snd (block_allocator_init 4096)) p) - 16.
Proof.
  assert (Hs : 1 <= 16 < 2 ^ 32) by lia.
  assert (Ho : ~ 8 <= 16 <= 15) by lia.
  pose proof held_example as H. cbv zeta in H. destruct H as (Hr & Hres & _).
  split; [exact Hr|]. split; [exact Hs|]. split; [exact Ho|]. split; [exact Hres|].
  apply (X6_split_conserves_bytes _ [] 16 Hr Hs Ho Hres).
Defined.

(** X7: the allocation a successful [block_allocator_alloc] writes in a
    reachable state has the size asked for, which is not 0, and names a block
    that no allocation still held names; with it added, the allocations held
    are again distinct used blocks of the pool. *)
Theorem X7_alloc_hands_out_an_unheld_block a hs sz h :
  reachable a hs -> 0 <= sz < 2 ^ 32 ->
  alloc_result a sz = BLOCK_ALLOCATOR_SUCCESS -> alloc_out a sz = Some h ->
  alloc_size h = sz /\ sz <> 0 /\
  (forall h', In h' hs -> alloc_metadata h' <> alloc_metadata h) /\
  reachable (alloc_state a sz) (h :: hs) /\
  held_blocks (alloc_state a sz) (h :: hs).
Proof.
  intros Hr Hsz Hres Hout.
  destruct (reachable_alloc_success a hs sz Hr Hsz Hres) as (Hpos & _ & _ & h0 & Eo & Hr').
  assert (h0 = h) by congruence. subst h0.
  destruct (reachable_split a hs sz Hr ltac:(lia) Hres) as (p & k & Hs).
  unfold split_result in Hs. cbv zeta in Hs.
  destruct Hs as (_ & _ & _ & _ & Hpf & Eout & _).
  assert (Eh : h = Allocation (offset (block_at a p)) sz p) by congruence.
  split; [rewrite Eh; reflexivity|]. split; [lia|]. split.
  - intros h' Hh' E. destruct (reachable_held a hs Hr) as [Hlive _].
    destruct (Hlive h' Hh') as (_ & Hu & _).
    rewrite E, Eh in Hu. cbn [alloc_metadata] in Hu. congruence.
  - split; [exact Hr'|]. apply (reachable_held _ _ Hr').
Qed.

Lemma X7_alloc_hands_out_an_unheld_block_witness :
  reachable (snd (block_allocator_init 4096)) [] /\ 0 <= 16 < 2 ^ 32 /\
  alloc_result (snd (block_allocator_init 4096)) 16 = BLOCK_ALLOCATOR_SUCCESS /\
  alloc_out (snd (block_allocator_init 4096)) 16 =
    Some (default (Allocation 0 0 0) (alloc_out (snd (block_allocator_init 4096)) 16)) /\
  alloc_size (default (Allocation 0 0 0) (alloc_out (snd (block_allocator_init 4096)) 16))
    = 16 /\ 16 <> 0 /\
  (forall h', In h' [] ->
     alloc_metadata h' <>
     alloc_metadata
       (default (Allocation 0 0 0) (alloc_out (snd (block_allocator_init 4096)) 16))) /\
  reachable (alloc_state (snd (block_allocator_init 4096)) 16)
    [default (Allocation 0 0 0) (alloc_out (snd (block_allocator_init 4096)) 16)] /\
  held_blocks (alloc_state (snd (block_allocator_init 4096)) 16)
    [default (Allocation 0 0 0) (alloc_out (snd (block_allocator_init 4096)) 16)].
Proof.
  assert (Hs : 0 <= 16 < 2 ^ 32) by lia.
  pose proof held_example as H. cbv zeta in H. destruct H as (Hr & Hres & Hout & _).
  split; [exact Hr|]. split; [exact Hs|]. split; [exact Hres|]. split; [exact Hout|].
  apply (X7_alloc_hands_out_an_unheld_block _ [] 16 _ Hr Hs Hres Hout).
Defined.

(** X8: in every reachable state the allocations handed out and not yet
    freed name pairwise distinct blocks of the pool, each marked used, and
    none has size 0. *)
Theorem X8_held_allocations_are_used_blocks a hs :
  reachable a hs -> held_blocks a hs.
Proof. apply reachable_held. Qed.

Lemma X8_held_allocations_are_used_blocks_witness :
  reachable (alloc_state (snd (block_allocator_init 4096)) 16)
    [default (Allocation 0 0 0) (alloc_out (snd (block_allocator_init 4096)) 16)] /\
  held_blocks (alloc_state (snd (block_allocator_init 4096)) 16)
    [default (Allocation 0 0 0) (alloc_out (snd (block_allocator_init 4096)) 16)].
Proof.
  pose proof held_example as H. cbv zeta in H. destruct H as (_ & _ & _ & Hr).
  split; [exact Hr|]. apply (X8_held_allocations_are_used_blocks _ _ Hr).
Defined.

(** ** What freeing does *)

(** X9: [block_allocator_free] of an allocation that is held, in a reachable
    state: the call of [block_allocator_insert] that ends it, whose result
    the function drops, returns SUCCESS; [free_offset] stays or goes down
    by one or two (one slot per free neighbour merged); the block of the
    allocation is no longer a used block of the pool; and the state is again
    reachable with the other allocations held. *)
Theorem X9_free_gives_the_block_back a hs h :
  reachable a hs -> In h hs ->
  free_insert_result a h = BLOCK_ALLOCATOR_SUCCESS /\
  free_offset a - 2 <= free_offset (block_allocator_free a h) <= free_offset a /\
  ~ (slot_live (block_allocator_free a h) (alloc_metadata h) /\
     block_allocator_is_used
       (block_at (block_allocator_free a h) (alloc_metadata h)) = true) /\
  reachable (block_allocator_free a h) (remove allocation_eq_dec h hs) /\
  held_blocks (block_allocator_free a h) (remove allocation_eq_dec h hs).
Proof.
  intros Hr Hh. destruct (reachable_inv a hs Hr) as [ch Hinv].
  destruct (free_detail a ch hs h Hinv Hh) as (ch' & Hinv' & [Hfo _] & Hu & _ & _ & Hres).
  pose proof (reach_free a hs h Hr Hh) as Hr'.
  split; [exact Hres|]. split; [exact Hfo|]. split.
  - intros [Hl Hused]. rewrite Hu in Hused; [discriminate|].
    apply (slot_live_chain _ ch' _ _ Hinv' Hl).
  - split; [exact Hr'|]. apply (reachable_held _ _ Hr').
Qed.

Lemma X9_free_gives_the_block_back_witness :
  let a := alloc_state (snd (block_allocator_init 4096)) 16 in
  let h := default (Allocation 0 0 0) (alloc_out (snd (block_allocator_init 4096)) 16) in
  reachable a [h] /\ In h [h] /\
  free_insert_result a h = BLOCK_ALLOCATOR_SUCCESS /\
  free_offset a - 2 <= free_offset (block_allocator_free a h) <= free_offset a /\
  ~ (slot_live (block_allocator_free a h) (alloc_metadata h) /\
     block_allocator_is_used
       (block_at (block_allocator_free a h) (alloc_metadata h)) = true) /\
  reachable (block_allocator_free a h) (remove allocation_eq_dec h [h]) /\
  held_blocks (block_allocator_free a h) (remove allocation_eq_dec h [h]).
Proof.
  intros a h.
  pose proof held_example as H. cbv zeta in H. destruct H as (_ & _ & _ & Hr).
  fold a h in Hr.
  assert (Hin : In h [h]) by (left; reflexivity).
  split; [exact Hr|]. split; [exact Hin|].
  apply (X9_free_gives_the_block_back a [h] h Hr Hin).
Defined.

(** ** Traversal *)

(** X10: in every reachable state, [block_allocator_next] called on a block
    of the pool either reports the end of the heap ([mem_next] is UNUSED) or
    returns another block of the pool, whose [mem_prev] names the block it
    was called on. *)
Theorem X10_next_stays_in_pool a hs : reachable a hs -> next_stays_in_pool a.
Proof. apply reachable_next. Qed.

Lemma X10_next_stays_in_pool_witness :
  reachable (snd (block_allocator_init 1024)) [] /\
  next_stays_in_pool (snd (block_allocator_init 1024)).
Proof.
  assert (Hr : reachable (snd (block_allocator_init 1024)) [])
    by (apply reach_init; lia).
  split; [exact Hr|]. apply (X10_next_stays_in_pool _ [] Hr).
Defined.

(** ** Size classes *)





(** ** Fresh allocators *)





(** X15: on a fresh allocator over [total_size >= 1] bytes, a request of
    [sz >= 1] bytes whose bin lies below the bin of [total_size] returns
    SUCCESS with the allocation [{0, sz, 0}]: slot 0 becomes a used block of
    [sz] bytes at offset 0, and slot 1 a free block at offset [sz] that holds
    the rest ([total_size - sz], exactly so when [sz] is not of 8 to 15) and
    follows it in memory. *)
Theorem X15_first_allocation_is_at_offset_0 total_size sz :
  1 <= total_size <= 0xffffffff -> 1 <= sz < 2 ^ 32 ->
  bin_of sz < bin_of total_size ->
  let a := snd (block_allocator_init total_size) in
  let a' := alloc_state a sz in
  alloc_result a sz = BLOCK_ALLOCATOR_SUCCESS /\
  alloc_out a sz = Some (Allocation 0 sz 0) /\
  free_offset a' = 2 /\
  size (block_at a' 0) = sz /\ offset (block_at a' 0) = 0 /\
  block_allocator_is_used (block_at a' 0) = true /\
  size (block_at a' 1) = u32 (total_size - sz) /\ offset (block_at a' 1) = sz /\
  block_allocator_is_used (block_at a' 1) = false /\
  mem_next (block_at a' 0) = 1 /\ mem_prev (block_at a' 1) = 0 /\
  (~ 8 <= sz <= 15 -> size (block_at a' 1) = total_size - sz).
Proof. apply fresh_first_alloc. Qed.

Lemma X15_first_allocation_is_at_offset_0_witness :
  1 <= 4096 <= 0xffffffff /\ 1 <= 16 < 2 ^ 32 /\ bin_of 16 < bin_of 4096 /\
  let a := snd (block_allocator_init 4096) in
  let a' := alloc_state a 16 in
  alloc_result a 16 = BLOCK_ALLOCATOR_SUCCESS /\
  alloc_out a 16 = Some (Allocation 0 16 0) /\
  free_offset a' = 2 /\
  size (block_at a' 0) = 16 /\ offset (block_at a' 0) = 0 /\
  block_allocator_is_used (block_at a' 0) = true /\
  size (block_at a' 1) = u32 (4096 - 16) /\ offset (block_at a' 1) = 16 /\
  block_allocator_is_used (block_at a' 1) = false /\
  mem_next (block_at a' 0) = 1 /\ mem_prev (block_at a' 1) = 0 /\
  (~ 8 <= 16 <= 15 -> size (block_at a' 1) = 4096 - 16).
Proof.
  assert (Hb : bin_of 16 < bin_of 4096) by reflexivity.
  split; [lia|]. split; [lia|]. split; [exact Hb|].
  apply (X15_first_allocation_is_at_offset_0 4096 16); [lia|lia|exact Hb].
Defined.

(** X16: starting from [block_allocator_init(0xFFFFFFFF)], each of the first
    [n <= 131071] calls [block_allocator_alloc(1)] returns SUCCESS and takes
    one slot of the pool: after them [free_offset] is [n + 1]. *)
Theorem X16_one_slot_per_allocation n :
  Z.of_nat n < BLOCK_ALLOCATOR_MAX_ALLOCS ->
  snd (alloc_repeat n 1 (snd (block_allocator_init 0xffffffff)) 0) = 0 /\
  free_offset (fst (alloc_repeat n 1 (snd (block_allocator_init 0xffffffff)) 0)) =
    Z.of_nat n + 1 /\
  reachable_state (fst (alloc_repeat n 1 (snd (block_allocator_init 0xffffffff)) 0)).
Proof.
  intros Hn.
  destruct (drained_repeat n 0 (snd (block_allocator_init 0xffffffff)) 0 drained_init
              ltac:(lia) ltac:(lia)) as [(ch & hs & _ & Hr & Hfo & _) He].
  split; [exact He|]. split; [lia|]. exists hs. exact Hr.
Qed.

Lemma X16_one_slot_per_allocation_witness :
  Z.of_nat 3 < BLOCK_ALLOCATOR_MAX_ALLOCS /\
  snd (alloc_repeat 3 1 (snd (block_allocator_init 0xffffffff)) 0) = 0 /\
  free_offset (fst (alloc_repeat 3 1 (snd (block_allocator_init 0xffffffff)) 0)) =
    Z.of_nat 3 + 1 /\
  reachable_state (fst (alloc_repeat 3 1 (snd (block_allocator_init 0xffffffff)) 0)).
Proof.
  assert (H : Z.of_nat 3 < BLOCK_ALLOCATOR_MAX_ALLOCS) by reflexivity.
  split; [exact H|]. apply (X16_one_slot_per_allocation 3 H).
Defined.

(** ** The Odin port *)

(** X17: started on a reachable state of the C allocator whose pool has a
    free slot, with [max_allocs] the C constant, the port's [block_alloc] of
    a size from 1 on that is not of 8 to 15 returns [ok] exactly when
    [block_allocator_alloc] returns SUCCESS, with the same allocation (the
    zero record on failure) and the same allocator fields. *)
Theorem X17_odin_block_alloc_agrees a hs sz :
  reachable a hs -> 1 <= sz < 2 ^ 32 -> ~ 8 <= sz <= 15 ->
  free_offset a <> BLOCK_ALLOCATOR_MAX_ALLOCS ->
  Odin.block_alloc (Odin.Make a BLOCK_ALLOCATOR_MAX_ALLOCS) sz =
  (default (Allocation 0 0 0) (alloc_out a sz),
   alloc_result a sz =? BLOCK_ALLOCATOR_SUCCESS,
   Odin.Make (alloc_state a sz) BLOCK_ALLOCATOR_MAX_ALLOCS).
Proof.
  intros Hr Hsz Hout Hfo. destruct (reachable_inv a hs Hr) as [ch Hinv].
  apply (odin_alloc_agrees a ch hs sz Hinv Hsz Hout Hfo).
Qed.

Lemma X17_odin_block_alloc_agrees_witness :
  let a := snd (block_allocator_init 4096) in
  reachable a [] /\ 1 <= 16 < 2 ^ 32 /\ ~ 8 <= 16 <= 15 /\
  free_offset a <> BLOCK_ALLOCATOR_MAX_ALLOCS /\
  Odin.block_alloc (Odin.Make a BLOCK_ALLOCATOR_MAX_ALLOCS) 16 =
  (default (Allocation 0 0 0) (alloc_out a 16),
   alloc_result a 16 =? BLOCK_ALLOCATOR_SUCCESS,
   Odin.Make (alloc_state a 16) BLOCK_ALLOCATOR_MAX_ALLOCS).
Proof.
  assert (Hs : 1 <= 16 < 2 ^ 32) by lia.
  assert (Ho : ~ 8 <= 16 <= 15) by lia.
  assert (Ht : 1 <= 4096 <= 0xffffffff) by lia.
  intros a.
  assert (Hr : reachable a []) by (apply reach_init; exact Ht).
  assert (Hfo : free_offset a <> BLOCK_ALLOCATOR_MAX_ALLOCS).
  { destruct (init_state 4096 Ht) as (E & _). fold a in E. rewrite E. discriminate. }
  split; [exact Hr|]. split; [exact Hs|]. split; [exact Ho|]. split; [exact Hfo|].
  apply (X17_odin_block_alloc_agrees a [] 16 Hr Hs Ho Hfo).
Defined.

(** X18: on a reachable state of the C allocator, the port's [block_free]
    of an allocation that is held leaves the allocator fields that
    [block_allocator_free] leaves. *)
Theorem X18_odin_block_free_agrees a hs h :
  reachable a hs -> In h hs ->
  Odin.block_free (Odin.Make a BLOCK_ALLOCATOR_MAX_ALLOCS) h =
  Odin.Make (block_allocator_free a h) BLOCK_ALLOCATOR_MAX_ALLOCS.
Proof.
  intros Hr Hh. destruct (reachable_inv a hs Hr) as [ch Hinv].
  apply (odin_free_agrees a ch hs h Hinv Hh).
Qed.

Lemma X18_odin_block_free_agrees_witness :
  let a := alloc_state (snd (block_allocator_init 4096)) 16 in
  let h := default (Allocation 0 0 0) (alloc_out (snd (block_allocator_init 4096)) 16) in
  reachable a [h] /\ In h [h] /\
  Odin.block_free (Odin.Make a BLOCK_ALLOCATOR_MAX_ALLOCS) h =
  Odin.Make (block_allocator_free a h) BLOCK_ALLOCATOR_MAX_ALLOCS.
Proof.
  intros a h.
  pose proof held_example as H. cbv zeta in H. destruct H as (_ & _ & _ & Hr).
  fold a h in Hr.
  assert (Hin : In h [h]) by (left; reflexivity).
  split; [exact Hr|]. split; [exact Hin|].
  apply (X18_odin_block_free_agrees a [h] h Hr Hin).
Defined.

(** X19: the port has no test for a size of 0.  On a reachable state of the
    C allocator with a free slot in the pool and a block in some bin above
    bin 0, [block_alloc(0)] returns [ok = true] with an allocation of size
    0: it takes a free block [p], leaves it in place as a used block of
    size 0, and inserts a new free block with the whole size of [p], taking
    one slot of the pool.  The C function returns OUT_OF_MEMORY for size 0
    and changes nothing. *)
Theorem X19_odin_serves_a_request_of_0_bytes a hs :
  reachable a hs -> free_offset a <> BLOCK_ALLOCATOR_MAX_ALLOCS ->
  (exists k, 0 < k < 256 /\ bin_list a k <> BLOCK_ALLOCATOR_UNUSED) ->
  block_allocator_alloc a 0 = (BLOCK_ALLOCATOR_OUT_OF_MEMORY, a, None) /\
  exists p,
    slot_live a p /\ block_allocator_is_used (block_at a p) = false /\
    let r := Odin.block_alloc (Odin.Make a BLOCK_ALLOCATOR_MAX_ALLOCS) 0 in
    snd (fst r) = true /\
    fst (fst r) = Allocation (offset (block_at a p)) 0 p /\
    free_offset (Odin.fields (snd r)) = free_offset a + 1 /\
    size (block_at (Odin.fields (snd r)) p) = 0 /\
    block_allocator_is_used (block_at (Odin.fields (snd r)) p) = true /\
    size (block_at (Odin.fields (snd r)) (free_block a (free_offset a))) =
      size (block_at a p).
Proof.
  intros Hr Hfo Hk. destruct (reachable_inv a hs Hr) as [ch Hinv].
  split; [reflexivity|].
  destruct (odin_alloc_zero a ch hs Hinv Hfo Hk) as (p & Hp & Hpf & H).
  exists p. split; [apply (chain_slot_live a ch hs p Hinv Hp)|]. auto.
Qed.

Lemma X19_odin_serves_a_request_of_0_bytes_witness :
  let a := snd (block_allocator_init 4096) in
  reachable a [] /\ free_offset a <> BLOCK_ALLOCATOR_MAX_ALLOCS /\
  (exists k, 0 < k < 256 /\ bin_list a k <> BLOCK_ALLOCATOR_UNUSED) /\
  block_allocator_alloc a 0 = (BLOCK_ALLOCATOR_OUT_OF_MEMORY, a, None) /\
  exists p,
    slot_live a p /\ block_allocator_is_used (block_at a p) = false /\
    let r := Odin.block_alloc (Odin.Make a BLOCK_ALLOCATOR_MAX_ALLOCS) 0 in
    snd (fst r) = true /\
    fst (fst r) = Allocation (offset (block_at a p)) 0 p /\
    free_offset (Odin.fields (snd r)) = free_offset a + 1 /\
    size (block_at (Odin.fields (snd r)) p) = 0 /\
    block_allocator_is_used (block_at (Odin.fields (snd r)) p) = true /\
    size (block_at (Odin.fields (snd r)) (free_block a (free_offset a))) =
      size (block_at a p).
Proof.
  assert (Ht : 1 <= 4096 <= 0xffffffff) by lia.
  assert (Hb : 0 < bin_of 4096 < 256) by (split; reflexivity).
  intros a.
  assert (Hr : reachable a []) by (apply reach_init; exact Ht).
  destruct (init_state 4096 Ht) as (E & _ & Hbin & _). fold a in E, Hbin.
  assert (Hfo : free_offset a <> BLOCK_ALLOCATOR_MAX_ALLOCS)
    by (rewrite E; discriminate).
  assert (Hk : exists k, 0 < k < 256 /\ bin_list a k <> BLOCK_ALLOCATOR_UNUSED).
  { exists (bin_of 4096). split; [exact Hb|].
    rewrite Hbin, decide_True by (reflexivity || (destruct Hb; split; [apply Z.lt_le_incl|]; assumption)).
    discriminate. }
  split; [exact Hr|]. split; [exact Hfo|]. split; [exact Hk|].
  apply (X19_odin_serves_a_request_of_0_bytes a [] Hr Hfo Hk).
Defined.


